(** * AI scalping EA: ensemble engine, signal validator and bridge failover

    A shallow embedding of

      - [backend/src/ai_orchestrator.py]       ([Agent], [AIOrchestrator]),
      - [backend/src/utils/signal_validator.py] ([SignalValidator]),
      - [backend/src/communication.py]          ([CommunicationManager]),

    followed by the properties of the specification that concern them.

    Conventions of the embedding.
      - Python floats are modelled by the rationals [Q]: sums, products and
        quotients are exact, comparisons are those of the rationals.  NaN
        and rounding are therefore outside the model: an equation between
        computed values is one between the exact values.
      - A number read from the database keeps the Python type the driver
        gives it ([PyNumber]: float or [decimal.Decimal]), since the
        arithmetic of the scoring pass depends on it.
      - A Python [dict] whose iteration order matters is an association
        list in insertion order ([Dict]).
      - A call that may raise returns a [Result]; [try/except Exception]
        becomes a [match] on it.
      - [datetime.now()] is a parameter [now], in microseconds since the
        epoch; one reading is used for a whole call.
      - The model handle, the model loader and the numeric (numpy) stages
        of an agent are capabilities collected in the class [Runtime]. *)

From Stdlib Require Import ZArith QArith Qminmax Qabs Qfield Lqa String List Bool Lia.
Import ListNotations.

Local Open Scope Z_scope.
Local Open Scope Q_scope.

Infix "+++" := String.append (at level 60, right associativity).

(** ** Python values and exceptions *)

Module Py.

Inductive Exception : Type :=
| KeyError (key : string)
| TypeError (msg : string)
| Error (msg : string).

(** [str(e)] *)
Definition str (e : Exception) : string :=
  match e with
  | KeyError k => "'" +++ k +++ "'"
  | TypeError m => m
  | Error m => m
  end.

Inductive Result (A : Type) : Type :=
| Return (a : A)
| Raise (e : Exception).
Arguments Return {A} a.
Arguments Raise {A} e.

Definition bind {A B : Type} (r : Result A) (k : A -> Result B) : Result B :=
  match r with
  | Return a => k a
  | Raise e => Raise e
  end.

Definition raises {A : Type} (r : Result A) : bool :=
  match r with Return _ => false | Raise _ => true end.

(** An insertion-ordered dictionary with string keys. *)
Definition Dict (V : Type) : Type := list (string * V).

Fixpoint get {V : Type} (d : Dict V) (k : string) : option V :=
  match d with
  | [] => None
  | (k', v) :: d' => if String.eqb k' k then Some v else get d' k
  end.

(** [d[k] = v]: an existing key keeps its position, a new key goes last. *)
Fixpoint set {V : Type} (d : Dict V) (k : string) (v : V) : Dict V :=
  match d with
  | [] => [(k, v)]
  | (k', v') :: d' =>
      if String.eqb k' k then (k, v) :: d' else (k', v') :: set d' k v
  end.

Definition contains {V : Type} (d : Dict V) (k : string) : bool :=
  match get d k with Some _ => true | None => false end.

Definition values {V : Type} (d : Dict V) : list V := List.map snd d.

(** [sep.join(l)] *)
Fixpoint join (sep : string) (l : list string) : string :=
  match l with
  | [] => EmptyString
  | [s] => s
  | s :: l' => s +++ sep +++ join sep l'
  end.

(** [l[-n:]] *)
Definition last_n {A : Type} (n : nat) (l : list A) : list A :=
  List.skipn (List.length l - n) l.

(** Values handed to [json.dumps]. *)
#[local] Unset Elimination Schemes.
Inductive Json : Type :=
| JStr (s : string)
| JNum (q : Q)
| JDatetime (t : Z)
| JList (l : list Json)
| JDict (l : list (string * Json)).
#[local] Set Elimination Schemes.

Fixpoint json_serializable (v : Json) : bool :=
  match v with
  | JStr _ | JNum _ => true
  | JDatetime _ => false
  | JList l => List.forallb json_serializable l
  | JDict l => List.forallb (fun kv => json_serializable (snd kv)) l
  end.

(** [json.dumps(v)] with the default encoder, which has no case for
    [datetime] objects and raises [TypeError] on them; [encode] is the text
    produced otherwise. *)
Definition json_dumps (encode : Json -> string) (v : Json) : Result string :=
  if json_serializable v then Return (encode v)
  else Raise (TypeError "Object of type datetime is not JSON serializable").

End Py.

Import Py.

Notation "x <- r ;; k" := (Py.bind r (fun x => k))
  (at level 61, r at next level, right associativity).

(** Strict [>] and [<] on floats. *)
Definition Qgtb (x y : Q) : bool := negb (Qle_bool x y).
Definition Qltb (x y : Q) : bool := negb (Qle_bool y x).

(** ** Capabilities consumed by the engine *)

Inductive Action : Type := BUY | SELL | HOLD.

Definition action_name (a : Action) : string :=
  match a with BUY => "BUY" | SELL => "SELL" | HOLD => "HOLD" end.

(** The key of the [votes] dictionary a string denotes, if any. *)
Definition action_of_string (s : string) : option Action :=
  if String.eqb s "BUY" then Some BUY
  else if String.eqb s "SELL" then Some SELL
  else if String.eqb s "HOLD" then Some HOLD
  else None.

(** What [_postprocess_prediction] returns: [action] is whatever the model
    gave, [confidence] has not been through [float()] yet. *)
Record PostResult (PyObj : Type) : Type := {
  pr_action : string;
  pr_confidence : PyObj;
  pr_reason : string;
  pr_metadata : list (string * string)
}.
Arguments pr_action {PyObj} _.
Arguments pr_confidence {PyObj} _.
Arguments pr_reason {PyObj} _.
Arguments pr_metadata {PyObj} _.

Class Runtime : Type := {
  Data : Type;            (* {"symbol", "market_data", "news_data"} *)
  Features : Type;        (* numpy feature vector *)
  RawPrediction : Type;   (* what the model returns *)
  PyObj : Type;           (* an arbitrary Python object *)
  Model : Type;           (* loaded model handle *)
  Market : Type;          (* the market_data and news_data arguments *)
  (* {"symbol": symbol, "market_data": ..., "news_data": ... or []} *)
  make_data : string -> Market -> Data;
  (* ModelLoader.load_model(path) *)
  ModelLoader_load_model : string -> Result Model;
  (* model.predict(features) *)
  model_predict : Model -> Features -> Result RawPrediction;
  (* Agent._preprocess_data: dispatch on the agent name *)
  _preprocess_data : string -> Data -> Result Features;
  (* Agent._postprocess_prediction *)
  _postprocess_prediction : RawPrediction -> Result (PostResult PyObj);
  (* float(x) *)
  py_float : PyObj -> Result Q;
  (* f"{x}" for a float *)
  repr_float : Q -> string;
  (* the text json.dumps produces for a serializable value *)
  json_encode : Json -> string
}.

(** [settings] of config.py, the part used here. *)
Record Settings : Type := {
  confidence_threshold : Q;
  model_update_interval : Z
}.

(** ** Agent *)

Record Agent `{Runtime} : Type := {
  name : string;
  model_path : string;
  version : string;
  performance_score : Q;
  model : option Model
}.

(** A prediction as [Agent.predict] returns it. *)
Record Decision : Type := {
  d_agent : string;
  d_action : string;
  d_confidence : Q;
  d_reason : string;
  d_metadata : list (string * string)
}.

Section AgentMethods.
Context `{RT : Runtime}.

(** [Agent.__init__] *)
Definition new_Agent (n p v : string) (score : Q) : Agent :=
  {| name := n; model_path := p; version := v;
     performance_score := score; model := None |}.

Definition with_model (a : Agent) (m : Model) : Agent :=
  {| name := name a; model_path := model_path a; version := version a;
     performance_score := performance_score a; model := Some m |}.

Definition with_score (a : Agent) (s : Q) : Agent :=
  {| name := name a; model_path := model_path a; version := version a;
     performance_score := s; model := model a |}.

(** [Agent.load_model]: the failure is logged and re-raised. *)
Definition load_model (a : Agent) : Result Agent :=
  match ModelLoader_load_model (model_path a) with
  | Return m => Return (with_model a m)
  | Raise e => Raise e
  end.

(** The body of the [try] block of [Agent.predict]. *)
Definition predict_body (a : Agent) (data : Data) : Result Decision :=
  processed_data <- _preprocess_data (name a) data ;;
  prediction <- match model a with
                | Some m => model_predict m processed_data
                | None => Raise (Error "'NoneType' object has no attribute 'predict'")
                end ;;
  result <- _postprocess_prediction prediction ;;
  c <- py_float (pr_confidence result) ;;
  Return {| d_agent := name a; d_action := pr_action result;
            d_confidence := c; d_reason := pr_reason result;
            d_metadata := pr_metadata result |}.

(** The decision built by the [except Exception] handler. *)
Definition error_decision (a : Agent) (e : Exception) : Decision :=
  {| d_agent := name a; d_action := "HOLD"; d_confidence := 0;
     d_reason := "Error: " +++ str e; d_metadata := [] |}.

(** [try: ... except Exception as e: ...] of [Agent.predict] *)
Definition predict_guarded (a : Agent) (data : Data) : Decision :=
  match predict_body a data with
  | Return d => d
  | Raise e => error_decision a e
  end.

(** [Agent.predict].  The lazy [load_model] call stands before the [try];
    the agent comes back with the model it may have loaded. *)
Definition predict (a : Agent) (data : Data) : Agent * Result Decision :=
  match model a with
  | None =>
      match load_model a with
      | Raise e => (a, Raise e)
      | Return a' => (a', Return (predict_guarded a' data))
      end
  | Some _ => (a, Return (predict_guarded a data))
  end.

End AgentMethods.

(** ** Signal validator (utils/signal_validator.py) *)

(** An entry of [recent_signals].  [r_symbol] and [r_timestamp] are read
    with [dict.get], so absence is possible. *)
Record SignalRecord : Type := {
  r_symbol : option string;
  r_action : string;
  r_confidence : Q;
  r_timestamp : option Z
}.

(** The [signal] dictionary as the validator reads it: a key that is
    absent is [None]; [sd_confidence] is [None] also when the value is not
    an [int] or a [float]. *)
Record SignalDict : Type := {
  sd_symbol : option string;
  sd_action : option string;
  sd_confidence : option Q
}.

Record SignalValidator : Type := {
  recent_signals : list SignalRecord;
  max_signal_history : nat
}.

(** [SignalValidator.__init__] *)
Definition new_SignalValidator : SignalValidator :=
  {| recent_signals := []; max_signal_history := 100 |}.

(** [x == y] on values that are a string or [None]. *)
Definition opt_string_eqb (x y : option string) : bool :=
  match x, y with
  | Some a, Some b => String.eqb a b
  | None, None => true
  | _, _ => false
  end.

(** [datetime.now().hour] *)
Definition hour_of (now : Z) : Z := ((now / 3600000000) mod 24)%Z.

(** [(t1 - t0).seconds]: the seconds field of the normalised
    [timedelta], between 0 and 86399. *)
Definition timedelta_seconds (t1 t0 : Z) : Z :=
  (((t1 - t0) / 1000000) mod 86400)%Z.

Section Validator.
Variable settings : Settings.
Variable now : Z.

Definition _validate_basic_structure (signal : SignalDict) : bool :=
  match sd_action signal, sd_confidence signal with
  | Some a, Some _ =>
      match action_of_string a with Some _ => true | None => false end
  | _, _ => false
  end.

Definition _validate_confidence (signal : SignalDict) : bool :=
  match sd_confidence signal with
  | Some confidence => negb (Qltb confidence (confidence_threshold settings))
  | None => false
  end.

Definition _validate_market_conditions (symbol : string) (signal : SignalDict) : bool :=
  let current_hour := hour_of now in
  if negb ((0 <=? current_hour)%Z && (current_hour <=? 23)%Z) then false
  else true.

Definition _validate_risk_management (signal : SignalDict) : bool := true.

Definition _validate_signal_frequency (self : SignalValidator) (signal : SignalDict) : bool :=
  let same := fun s => opt_string_eqb (r_symbol s) (sd_symbol signal) in
  let recent_symbol_signals := List.filter same (last_n 20 (recent_signals self)) in
  if (3 <=? List.length recent_symbol_signals)%nat then false
  else
    match List.find same (List.rev (recent_signals self)) with
    | Some last_signal =>
        let ts := match r_timestamp last_signal with Some t => t | None => now end in
        let time_diff := timedelta_seconds now ts in
        if (time_diff <? 60)%Z then false else true
    | None => true
    end.

Definition _validate_volatility (symbol : string) (signal : SignalDict) : bool := true.

Definition _validate_spread (symbol : string) (signal : SignalDict) : bool := true.

(** [_record_signal]; it is reached only after [_validate_basic_structure],
    so [signal['action']] and [signal['confidence']] are there. *)
Definition _record_signal (self : SignalValidator) (signal : SignalDict) : SignalValidator :=
  let signal_record :=
    {| r_symbol := Some (match sd_symbol signal with Some s => s | None => "UNKNOWN"%string end);
       r_action := match sd_action signal with Some a => a | None => ""%string end;
       r_confidence := match sd_confidence signal with Some c => c | None => 0 end;
       r_timestamp := Some now |} in
  let appended := (recent_signals self ++ [signal_record])%list in
  {| recent_signals :=
       if (max_signal_history self <? List.length appended)%nat
       then List.tl appended else appended;
     max_signal_history := max_signal_history self |}.

(** [validate_signal]: the verdict and the validator afterwards. *)
Definition validate_signal (self : SignalValidator) (symbol : string) (signal : SignalDict)
  : bool * SignalValidator :=
  if negb (_validate_basic_structure signal) then (false, self)
  else if negb (_validate_confidence signal) then (false, self)
  else if negb (_validate_market_conditions symbol signal) then (false, self)
  else if negb (_validate_risk_management signal) then (false, self)
  else if negb (_validate_signal_frequency self signal) then (false, self)
  else if negb (_validate_volatility symbol signal) then (false, self)
  else if negb (_validate_spread symbol signal) then (false, self)
  else (true, _record_signal self signal).

End Validator.

(** ** Persistence (the part of the store the orchestrator touches) *)

Inductive Status : Type := active | inactive.

Record RegistryRow : Type := {
  reg_agent_name : string;
  reg_model_path : string;
  reg_version : string;
  reg_performance_score : Q;
  reg_status : Status;
  reg_updated_at : Z
}.

(** A number as the driver hands it to Python: a [float] (a DOUBLE
    PRECISION column), or a [decimal.Decimal] (a NUMERIC one, and so the
    AVG over the literals 1.0 and 0.0). *)
Inductive PyNumber : Type :=
  | PyFloat (q : Q)
  | PyDecimal (q : Q).

Definition number_value (x : PyNumber) : Q :=
  match x with PyFloat q => q | PyDecimal q => q end.

(** A row of the 24-hour aggregate over [trade_history]; a column can be
    NULL. *)
Record PerfRow : Type := {
  perf_agent_name : string;
  perf_win_rate : option PyNumber;
  perf_avg_pnl : option PyNumber;
  perf_trade_count : option Z
}.

Record AuditRow : Type := {
  au_timestamp : Z;
  au_agent_name : string;
  au_metric_name : string;
  au_metric_value : Q;
  au_metadata : string
}.

(** The connection: the tables, and for each of the coming operations
    ([cursor()], [execute], [commit]) whether it fails; past the end of the
    list nothing fails.  Transaction isolation is not modelled. *)
Record DB : Type := {
  model_registry : list RegistryRow;
  ai_performance : list AuditRow;
  trade_stats : list PerfRow;
  faults : list bool
}.

Definition with_faults (db : DB) (f : list bool) : DB :=
  {| model_registry := model_registry db; ai_performance := ai_performance db;
     trade_stats := trade_stats db; faults := f |}.

Definition with_registry (db : DB) (r : list RegistryRow) : DB :=
  {| model_registry := r; ai_performance := ai_performance db;
     trade_stats := trade_stats db; faults := faults db |}.

Definition with_audit (db : DB) (a : list AuditRow) : DB :=
  {| model_registry := model_registry db; ai_performance := a;
     trade_stats := trade_stats db; faults := faults db |}.

(** One operation on the connection: it fails as the schedule says, and
    applies [effect] otherwise. *)
Definition db_op (effect : DB -> DB) (db : DB) : DB * Result unit :=
  match faults db with
  | true :: rest => (with_faults db rest, Raise (Error "database error"))
  | false :: rest => (effect (with_faults db rest), Return tt)
  | [] => (effect db, Return tt)
  end.

Definition db_cursor : DB -> DB * Result unit := db_op (fun db => db).
Definition db_commit : DB -> DB * Result unit := db_op (fun db => db).

(** UPDATE model_registry SET performance_score = s, updated_at = NOW()
    WHERE agent_name = n *)
Definition sql_update_score (now : Z) (s : Q) (n : string) (db : DB) : DB :=
  with_registry db
    (List.map (fun r =>
       if String.eqb (reg_agent_name r) n
       then {| reg_agent_name := reg_agent_name r; reg_model_path := reg_model_path r;
               reg_version := reg_version r; reg_performance_score := s;
               reg_status := reg_status r; reg_updated_at := now |}
       else r) (model_registry db)).

Definition set_status (r : RegistryRow) (st : Status) : RegistryRow :=
  {| reg_agent_name := reg_agent_name r; reg_model_path := reg_model_path r;
     reg_version := reg_version r; reg_performance_score := reg_performance_score r;
     reg_status := st; reg_updated_at := reg_updated_at r |}.

Definition is_active (r : RegistryRow) : bool :=
  match reg_status r with active => true | inactive => false end.

(** UPDATE model_registry SET status = 'inactive'
    WHERE agent_name = n AND status = 'active' *)
Definition sql_deactivate (n : string) (db : DB) : DB :=
  with_registry db
    (List.map (fun r =>
       if String.eqb (reg_agent_name r) n && is_active r
       then set_status r inactive else r) (model_registry db)).

(** UPDATE model_registry SET status = 'active'
    WHERE agent_name = n AND version = v *)
Definition sql_activate (n v : string) (db : DB) : DB :=
  with_registry db
    (List.map (fun r =>
       if String.eqb (reg_agent_name r) n && String.eqb (reg_version r) v
       then set_status r active else r) (model_registry db)).

(** INSERT INTO ai_performance ... *)
Definition sql_insert_audit (row : AuditRow) (db : DB) : DB :=
  with_audit db (ai_performance db ++ [row])%list.

(** ** Ensemble engine (class [AIOrchestrator]) *)

Record Votes : Type := {
  votes_BUY : Q;
  votes_SELL : Q;
  votes_HOLD : Q
}.

Definition votes_get (v : Votes) (a : Action) : Q :=
  match a with
  | BUY => votes_BUY v
  | SELL => votes_SELL v
  | HOLD => votes_HOLD v
  end.

Definition votes_set (v : Votes) (a : Action) (x : Q) : Votes :=
  match a with
  | BUY => {| votes_BUY := x; votes_SELL := votes_SELL v; votes_HOLD := votes_HOLD v |}
  | SELL => {| votes_BUY := votes_BUY v; votes_SELL := x; votes_HOLD := votes_HOLD v |}
  | HOLD => {| votes_BUY := votes_BUY v; votes_SELL := votes_SELL v; votes_HOLD := x |}
  end.

Definition zero_votes : Votes :=
  {| votes_BUY := 0; votes_SELL := 0; votes_HOLD := 0 |}.

(** The dictionary the engine returns. *)
Record EnsembleSignal : Type := {
  action : Action;
  confidence : Q;
  reason : string;
  votes : Votes
}.

Definition with_action (s : EnsembleSignal) (a : Action) : EnsembleSignal :=
  {| action := a; confidence := confidence s; reason := reason s; votes := votes s |}.

Definition add_reason (s : EnsembleSignal) (fragment : string) : EnsembleSignal :=
  {| action := action s; confidence := confidence s;
     reason := reason s +++ fragment; votes := votes s |}.

(** The validator's view of an ensemble result: it has the keys [action],
    [confidence], [reason] and [votes], and no key [symbol]. *)
Definition signal_dict (s : EnsembleSignal) : SignalDict :=
  {| sd_symbol := None;
     sd_action := Some (action_name (action s));
     sd_confidence := Some (confidence s) |}.

Fixpoint Qsum (l : list Q) : Q :=
  match l with
  | [] => 0
  | x :: l' => x + Qsum l'
  end.

(** [np.mean(l)] of a non-empty list *)
Definition np_mean (l : list Q) : Q :=
  Qsum l / inject_Z (Z.of_nat (List.length l)).

(** [max(votes, key=votes.get)]: the keys are visited in the order BUY,
    SELL, HOLD and a later key wins only with a strictly larger value. *)
Definition max_votes (v : Votes) : Action :=
  let best := BUY in
  let best := if Qgtb (votes_get v SELL) (votes_get v best) then SELL else best in
  let best := if Qgtb (votes_get v HOLD) (votes_get v best) then HOLD else best in
  best.

Section Orchestrator.
Context `{RT : Runtime}.
Variable settings : Settings.

Record AIOrchestrator : Type := {
  db_conn : DB;
  active_agents : Dict Agent;
  signal_validator : SignalValidator;
  running : bool
}.

Definition with_db (self : AIOrchestrator) (db : DB) : AIOrchestrator :=
  {| db_conn := db; active_agents := active_agents self;
     signal_validator := signal_validator self; running := running self |}.

Definition with_agents (self : AIOrchestrator) (d : Dict Agent) : AIOrchestrator :=
  {| db_conn := db_conn self; active_agents := d;
     signal_validator := signal_validator self; running := running self |}.

Definition with_validator (self : AIOrchestrator) (v : SignalValidator) : AIOrchestrator :=
  {| db_conn := db_conn self; active_agents := active_agents self;
     signal_validator := v; running := running self |}.

(** The accumulators of the loop of [_weighted_vote]. *)
Record VoteAcc : Type := {
  acc_votes : Votes;
  acc_total_weight : Q;
  acc_reasons : list string;
  acc_confidences : list Q
}.

Definition vote_init : VoteAcc :=
  {| acc_votes := zero_votes; acc_total_weight := 0;
     acc_reasons := []; acc_confidences := [] |}.

(** One iteration; [votes[action] += ...] raises [KeyError] on a key that
    is not in [votes]. *)
Definition vote_step (agents : Dict Agent) (acc : VoteAcc) (result : Decision)
  : Result VoteAcc :=
  let agent_name := d_agent result in
  match get agents agent_name with
  | None => Return acc
  | Some agent =>
      let weight := performance_score agent in
      let confidence := d_confidence result in
      match action_of_string (d_action result) with
      | None => Raise (KeyError (d_action result))
      | Some a =>
          Return {| acc_votes := votes_set (acc_votes acc) a
                                   (votes_get (acc_votes acc) a + weight * confidence);
                    acc_total_weight := acc_total_weight acc + weight;
                    acc_reasons := (acc_reasons acc
                                    ++ [agent_name +++ ": " +++ d_reason result])%list;
                    acc_confidences := (acc_confidences acc ++ [confidence])%list |}
      end
  end.

Fixpoint vote_loop (agents : Dict Agent) (acc : VoteAcc) (agent_results : list Decision)
  : Result VoteAcc :=
  match agent_results with
  | [] => Return acc
  | result :: rest =>
      acc' <- vote_step agents acc result ;;
      vote_loop agents acc' rest
  end.

Definition normalize (v : Votes) (total_weight : Q) : Votes :=
  {| votes_BUY := votes_BUY v / total_weight;
     votes_SELL := votes_SELL v / total_weight;
     votes_HOLD := votes_HOLD v / total_weight |}.

(** [AIOrchestrator._weighted_vote] *)
Definition _weighted_vote (self : AIOrchestrator) (agent_results : list Decision)
  : Result EnsembleSignal :=
  acc <- vote_loop (active_agents self) vote_init agent_results ;;
  let votes :=
    if Qgtb (acc_total_weight acc) 0
    then normalize (acc_votes acc) (acc_total_weight acc)
    else acc_votes acc in
  let winning_action := max_votes votes in
  let final_confidence :=
    match acc_confidences acc with
    | [] => 0
    | _ => np_mean (acc_confidences acc)
    end in
  Return {| action := winning_action; confidence := final_confidence;
            reason := join " | " (acc_reasons acc); votes := votes |}.

Definition decision_json (d : Decision) : Json :=
  JDict [("agent"%string, JStr (d_agent d)); ("action"%string, JStr (d_action d));
         ("confidence"%string, JNum (d_confidence d)); ("reason"%string, JStr (d_reason d));
         ("metadata"%string, JDict (List.map (fun kv => (fst kv, JStr (snd kv))) (d_metadata d)))].

Definition votes_json (v : Votes) : Json :=
  JDict [("BUY"%string, JNum (votes_BUY v)); ("SELL"%string, JNum (votes_SELL v));
         ("HOLD"%string, JNum (votes_HOLD v))].

(** [AIOrchestrator._log_signal]: whatever goes wrong is logged and
    dropped.  The arguments of [cursor.execute] are evaluated, [json.dumps]
    among them, before the statement is sent. *)
Definition _log_signal (now : Z) (self : AIOrchestrator) (symbol : string)
    (ensemble_result : EnsembleSignal) (agent_results : list Decision) : AIOrchestrator :=
  let signal_data :=
    JDict [("symbol"%string, JStr symbol);
           ("timestamp"%string, JDatetime now);
           ("ensemble_action"%string, JStr (action_name (action ensemble_result)));
           ("ensemble_confidence"%string, JNum (confidence ensemble_result));
           ("agent_signals"%string, JList (List.map decision_json agent_results));
           ("votes"%string, votes_json (votes ensemble_result))] in
  let (db1, opened) := db_cursor (db_conn self) in
  match opened with
  | Raise _ => with_db self db1
  | Return _ =>
      match json_dumps json_encode signal_data with
      | Raise _ => with_db self db1
      | Return text =>
          let row := {| au_timestamp := now; au_agent_name := "ensemble";
                        au_metric_name := "signal_confidence";
                        au_metric_value := confidence ensemble_result;
                        au_metadata := text |} in
          let (db2, executed) := db_op (sql_insert_audit row) db1 in
          match executed with
          | Raise _ => with_db self db2
          | Return _ => with_db self (fst (db_commit db2))
          end
      end
  end.

(** [asyncio.gather] with [return_exceptions=True] over the agents, in
    the order of the dictionary: each agent as [predict] leaves it, and
    what its task produced. *)
Definition run_agents (agents : Dict Agent) (data : Data)
  : Dict Agent * list (Result Decision) :=
  let outcomes := List.map (fun kv => (fst kv, predict (snd kv) data)) agents in
  (List.map (fun o => (fst o, fst (snd o))) outcomes,
   List.map (fun o => snd (snd o)) outcomes).

(** The results that are a dictionary with an [action] key: those that are
    not an exception. *)
Fixpoint valid_results_of (results : list (Result Decision)) : list Decision :=
  match results with
  | [] => []
  | Return d :: rest => d :: valid_results_of rest
  | Raise _ :: rest => valid_results_of rest
  end.

Definition confidence_fragment : string :=
  " | Confidence below threshold (" +++ repr_float (confidence_threshold settings) +++ ")".

Definition validation_fragment : string := " | Failed signal validation".

(** The two gates that follow the vote. *)
Definition confidence_gate (ensemble_result : EnsembleSignal) : EnsembleSignal :=
  if Qltb (confidence ensemble_result) (confidence_threshold settings)
  then add_reason (with_action ensemble_result HOLD) confidence_fragment
  else ensemble_result.

Definition validation_gate (now : Z) (v : SignalValidator) (symbol : string)
    (ensemble_result : EnsembleSignal) : EnsembleSignal * SignalValidator :=
  let (ok, v') := validate_signal settings now v symbol (signal_dict ensemble_result) in
  if negb ok
  then (add_reason (with_action ensemble_result HOLD) validation_fragment, v')
  else (ensemble_result, v').

(** [AIOrchestrator.get_ensemble_signal]: the orchestrator afterwards and
    what the call returns or raises. *)
Definition get_ensemble_signal (now : Z) (self : AIOrchestrator) (symbol : string)
    (market : Market) : AIOrchestrator * Result EnsembleSignal :=
  match active_agents self with
  | [] => (self, Return {| action := HOLD; confidence := 0;
                           reason := "No active agents available";
                           votes := zero_votes |})
  | _ =>
      let data := make_data symbol market in
      let (agents', results) := run_agents (active_agents self) data in
      let self1 := with_agents self agents' in
      let valid_results := valid_results_of results in
      match valid_results with
      | [] => (self1, Return {| action := HOLD; confidence := 0;
                                reason := "No valid agent predictions";
                                votes := zero_votes |})
      | _ =>
          match _weighted_vote self1 valid_results with
          | Raise e => (self1, Raise e)
          | Return voted =>
              let gated := confidence_gate voted in
              let (ensemble_result, v') :=
                validation_gate now (signal_validator self1) symbol gated in
              let self2 := with_validator self1 v' in
              let self3 := _log_signal now self2 symbol ensemble_result valid_results in
              (self3, Return ensemble_result)
          end
      end
  end.

End Orchestrator.

(** ** Performance tracker and hot-swap controller *)

(** [x or 0.0]: the float 0.0 for NULL and for a zero of either type,
    the value itself otherwise. *)
Definition or_float_zero (x : option PyNumber) : PyNumber :=
  match x with
  | None => PyFloat 0
  | Some n => if Qeq_bool (number_value n) 0 then PyFloat 0 else n
  end.

(** [x / 100]: the quotient keeps the type of [x]. *)
Definition div_int (x : PyNumber) (n : Q) : PyNumber :=
  match x with
  | PyFloat q => PyFloat (q / n)
  | PyDecimal q => PyDecimal (q / n)
  end.

(** [min(x, f)] for a float [f]: [f] when [f < x], else [x] itself, of
    whatever type it is. *)
Definition min_with_float (x : PyNumber) (f : Q) : PyNumber :=
  if Qltb f (number_value x) then PyFloat f else x.

(** The composite score of a row with enough trades, on floats. *)
Definition composite_score (win_rate avg_pnl : Q) : Q :=
  let performance_score := win_rate * 0.7 + Qmin (avg_pnl / 100) 1 * 0.3 in
  Qmax 0 (Qmin 1 performance_score).

(** [trade_count >= 10], with [row['trade_count'] or 0]. *)
Definition row_qualifies (row : PerfRow) : bool :=
  (10 <=? match perf_trade_count row with Some n => n | None => 0%Z end)%Z.

(** The two assignments to [performance_score] for one row.  A [Decimal]
    multiplied by the float 0.7 or 0.3 raises TypeError; with floats on
    both sides the value is [composite_score]. *)
Definition row_performance_score (row : PerfRow) : Result Q :=
  let win_rate := or_float_zero (perf_win_rate row) in
  let avg_pnl := or_float_zero (perf_avg_pnl row) in
  match win_rate with
  | PyDecimal _ =>
      Raise (TypeError
        "unsupported operand type(s) for *: 'decimal.Decimal' and 'float'")
  | PyFloat w =>
      match min_with_float (div_int avg_pnl 100) 1 with
      | PyDecimal _ =>
          Raise (TypeError
            "unsupported operand type(s) for *: 'decimal.Decimal' and 'float'")
      | PyFloat _ => Return (composite_score w (number_value avg_pnl))
      end
  end.

(** The row [fetchone()] gives for the best inactive candidate. *)
Record BackupRow : Type := {
  b_model_path : string;
  b_version : string;
  b_performance_score : Q
}.

Section Tracker.
Context `{RT : Runtime}.
Variable now : Z.

(** [self.active_agents[agent_name].performance_score = s], guarded by
    [agent_name in self.active_agents]. *)
Definition set_live_score (agents : Dict Agent) (agent_name : string) (s : Q) : Dict Agent :=
  match get agents agent_name with
  | Some a => set agents agent_name (with_score a s)
  | None => agents
  end.

(** One iteration of the loop over [performance_data]. *)
Definition score_row (self : AIOrchestrator) (row : PerfRow) : AIOrchestrator * Result unit :=
  let agent_name := perf_agent_name row in
  if row_qualifies row then
    match row_performance_score row with
    | Raise e => (self, Raise e)
    | Return performance_score =>
        let (db', updated) :=
          db_op (sql_update_score now performance_score agent_name) (db_conn self) in
        match updated with
        | Raise e => (with_db self db', Raise e)
        | Return _ =>
            (with_agents (with_db self db')
               (set_live_score (active_agents self) agent_name performance_score),
             Return tt)
        end
    end
  else (self, Return tt).

Fixpoint score_rows (self : AIOrchestrator) (performance_data : list PerfRow)
  : AIOrchestrator * Result unit :=
  match performance_data with
  | [] => (self, Return tt)
  | row :: rest =>
      let (self', r) := score_row self row in
      match r with
      | Raise e => (self', Raise e)
      | Return _ => score_rows self' rest
      end
  end.

(** [AIOrchestrator._update_performance_scores]: the orchestrator after
    the pass, and whether the pass went through ([Return]) or was cut by
    an exception, which the [except] clause logs and drops. *)
Definition update_performance_scores_outcome (self : AIOrchestrator)
  : AIOrchestrator * Result unit :=
  let (db1, opened) := db_cursor (db_conn self) in
  match opened with
  | Raise e => (with_db self db1, Raise e)
  | Return _ =>
      let (db2, selected) := db_op (fun db => db) db1 in
      match selected with
      | Raise e => (with_db self db2, Raise e)
      | Return _ =>
          let performance_data := trade_stats db2 in
          let (self', r) := score_rows (with_db self db2) performance_data in
          match r with
          | Raise e => (self', Raise e)
          | Return _ =>
              let (db3, committed) := db_commit (db_conn self') in
              (with_db self' db3, committed)
          end
      end
  end.

Definition _update_performance_scores (self : AIOrchestrator) : AIOrchestrator :=
  fst (update_performance_scores_outcome self).

(** [AIOrchestrator._swap_model] as the sequence of states the
    orchestrator goes through: on entry, then after each statement that
    was executed.  An exception ends the sequence (the [except] clause
    only logs). *)
Definition _swap_model_trace (self : AIOrchestrator) (agent_name : string)
    (backup_model : BackupRow) : list AIOrchestrator :=
  self ::
  let (db1, opened) := db_cursor (db_conn self) in
  with_db self db1 ::
  match opened with
  | Raise _ => []
  | Return _ =>
      let (db2, r2) := db_op (sql_deactivate agent_name) db1 in
      with_db self db2 ::
      match r2 with
      | Raise _ => []
      | Return _ =>
          let (db3, r3) := db_op (sql_activate agent_name (b_version backup_model)) db2 in
          with_db self db3 ::
          match r3 with
          | Raise _ => []
          | Return _ =>
              let (db4, r4) := db_commit db3 in
              let self4 := with_db self db4 in
              self4 ::
              match r4 with
              | Raise _ => []
              | Return _ =>
                  let new_agent :=
                    new_Agent agent_name (b_model_path backup_model)
                      (b_version backup_model) (b_performance_score backup_model) in
                  match load_model new_agent with
                  | Raise _ => []
                  | Return loaded =>
                      [with_agents self4 (set (active_agents self4) agent_name loaded)]
                  end
              end
          end
      end
  end.

Definition _swap_model (self : AIOrchestrator) (agent_name : string)
    (backup_model : BackupRow) : AIOrchestrator :=
  List.last (_swap_model_trace self agent_name backup_model) self.

End Tracker.

(** ** Communication manager (communication.py) *)

Inductive Bridge : Type := zmq | websocket.

Definition Handle : Type := nat.

Record ZMQBridge : Type := {
  zmq_running : bool;
  publisher : option Handle;
  responder : option Handle
}.

Record WebSocketBridge : Type := {
  ws_running : bool;
  server : option Handle;
  clients : list Handle
}.

Definition is_some {A : Type} (x : option A) : bool :=
  match x with Some _ => true | None => false end.

Definition zmq_is_healthy (b : ZMQBridge) : bool :=
  zmq_running b && is_some (publisher b) && is_some (responder b).

Definition ws_is_healthy (b : WebSocketBridge) : bool :=
  ws_running b && is_some (server b).

Record CommunicationManager : Type := {
  zmq_bridge : ZMQBridge;
  websocket_bridge : WebSocketBridge;
  active_bridge : Bridge;
  failover_enabled : bool;
  health_check_interval : Z;
  cm_running : bool
}.

Definition with_active (self : CommunicationManager) (b : Bridge) : CommunicationManager :=
  {| zmq_bridge := zmq_bridge self; websocket_bridge := websocket_bridge self;
     active_bridge := b; failover_enabled := failover_enabled self;
     health_check_interval := health_check_interval self;
     cm_running := cm_running self |}.

Definition other_bridge (b : Bridge) : Bridge :=
  match b with zmq => websocket | websocket => zmq end.

Definition bridge_healthy (self : CommunicationManager) (b : Bridge) : bool :=
  match b with
  | zmq => zmq_is_healthy (zmq_bridge self)
  | websocket => ws_is_healthy (websocket_bridge self)
  end.

(** The body of one iteration of [_health_monitor], up to the sleep. *)
Definition health_tick (self : CommunicationManager) : CommunicationManager :=
  let zmq_healthy := zmq_is_healthy (zmq_bridge self) in
  let ws_healthy := ws_is_healthy (websocket_bridge self) in
  match active_bridge self with
  | zmq =>
      if negb zmq_healthy && ws_healthy then with_active self websocket else self
  | websocket =>
      if negb ws_healthy && zmq_healthy then with_active self zmq else self
  end.

(** [_health_monitor] over the next [n] periods: [env k] is what the two
    bridges and the [running] flag look like when tick [k] reads them; the
    loop ends when [running] is cleared.  The result lists the manager
    after each tick; between two ticks the loop sleeps for
    [health_check_interval] seconds. *)
Fixpoint _health_monitor (env : nat -> ZMQBridge * WebSocketBridge * bool)
    (self : CommunicationManager) (k n : nat) : list CommunicationManager :=
  match n with
  | O => []
  | S n' =>
      let '(zb, wb, run) := env k in
      let observed :=
        {| zmq_bridge := zb; websocket_bridge := wb;
           active_bridge := active_bridge self;
           failover_enabled := failover_enabled self;
           health_check_interval := health_check_interval self;
           cm_running := run |} in
      if cm_running observed then
        let self' := health_tick observed in
        self' :: _health_monitor env self' (S k) n'
      else []
  end.

(** [CommunicationManager.send_signal]; what the two bridges answer when
    asked to send is given: [zmq_sent] for [zmq_bridge.send_signal] and
    [ws_count] for [websocket_bridge.broadcast_signal]. *)
Definition send_signal (self : CommunicationManager) (zmq_sent : bool) (ws_count : nat)
  : CommunicationManager * bool :=
  match active_bridge self with
  | zmq =>
      let success := zmq_sent in
      if negb success && failover_enabled self
      then (with_active self websocket, (0 <? ws_count)%nat)
      else (self, success)
  | websocket =>
      let success := (0 <? ws_count)%nat in
      if negb success && failover_enabled self
      then (with_active self zmq, zmq_sent)
      else (self, success)
  end.

(** ** Reference quantities of the specification *)

Section VoteSpec.
Context `{RT : Runtime}.
Variable agents : Dict Agent.

(** The weight [w_i] of the agent behind a decision. *)
Definition weight_of (d : Decision) : Q :=
  match get agents (d_agent d) with
  | Some a => performance_score a
  | None => 0
  end.

(** A valid decision: its agent is live and its action is one of the
    three. *)
Definition valid_decision (d : Decision) : Prop :=
  get agents (d_agent d) <> None /\ action_of_string (d_action d) <> None.

Definition action_eqb (a b : Action) : bool :=
  match a, b with
  | BUY, BUY | SELL, SELL | HOLD, HOLD => true
  | _, _ => false
  end.

(** Σ(w_i·c_i | action = a) *)
Definition weighted_confidence_for (a : Action) (ds : list Decision) : Q :=
  Qsum (List.map (fun d =>
          match action_of_string (d_action d) with
          | Some b => if action_eqb b a then weight_of d * d_confidence d else 0
          | None => 0
          end) ds).

(** Σ w_i·c_i *)
Definition weighted_confidence (ds : list Decision) : Q :=
  Qsum (List.map (fun d => weight_of d * d_confidence d) ds).

(** Σ w_i *)
Definition total_weight (ds : list Decision) : Q :=
  Qsum (List.map weight_of ds).

End VoteSpec.

Definition votes_total (v : Votes) : Q :=
  votes_BUY v + votes_SELL v + votes_HOLD v.

(** The part of [get_ensemble_signal] before the gates: [None] when the
    call returns early, else what [_weighted_vote] gave. *)
Definition vote_stage `{RT : Runtime} (self : AIOrchestrator) (symbol : string)
    (market : Market) : option (Result EnsembleSignal) :=
  match active_agents self with
  | [] => None
  | _ =>
      let (agents', results) := run_agents (active_agents self) (make_data symbol market) in
      match valid_results_of results with
      | [] => None
      | valid_results => Some (_weighted_vote (with_agents self agents') valid_results)
      end
  end.

(** The in-memory effect of the scoring loop on the rows it got through. *)
Definition apply_scores `{RT : Runtime} (agents : Dict Agent) (rows : list PerfRow)
  : Dict Agent :=
  List.fold_left (fun ag row =>
      if row_qualifies row
      then match row_performance_score row with
           | Return s => set_live_score ag (perf_agent_name row) s
           | Raise _ => ag
           end
      else ag) rows agents.

(** A row whose iteration reaches its UPDATE, if it has one: its score
    computes; and the number of UPDATE statements a list of rows asks for. *)
Definition row_computes (row : PerfRow) : bool :=
  negb (row_qualifies row) || negb (raises (row_performance_score row)).

Definition updates_of (rows : list PerfRow) : nat :=
  List.length (List.filter row_qualifies rows).

(** ** A concrete runtime and concrete states *)

(** A stub model is the answer it always gives: an exception, or an
    action with a confidence.  Every path loads except one. *)
#[global] Instance stub_runtime : Runtime := {|
  Data := string;
  Features := unit;
  RawPrediction := string * Q;
  PyObj := Q;
  Model := Result (string * Q);
  Market := unit;
  make_data := fun symbol _ => symbol;
  ModelLoader_load_model := fun path =>
    if String.eqb path "/models/missing.pkl"
    then Raise (Error "Unsupported model format for /models/missing.pkl")
    else Return (Return ("HOLD"%string, 1 # 2));
  model_predict := fun m _ => m;
  _preprocess_data := fun _ _ => Return tt;
  _postprocess_prediction := fun p =>
    Return {| pr_action := fst p; pr_confidence := snd p;
              pr_reason := "Model prediction: " +++ fst p; pr_metadata := [] |};
  py_float := fun q => Return q;
  repr_float := fun _ => "0.75"%string;
  json_encode := fun _ => "{}"%string
|}.

Definition demo_settings : Settings :=
  {| confidence_threshold := 0.75; model_update_interval := 3600 |}.

Definition stub_agent (n : string) (score : Q) (answer : Result (string * Q)) : Agent :=
  {| name := n; model_path := "/models/" +++ n +++ ".pkl"; version := "1.0.0";
     performance_score := score; model := Some answer |}.

Definition empty_db : DB :=
  {| model_registry := []; ai_performance := []; trade_stats := []; faults := [] |}.

Definition demo_orchestrator (agents : list Agent) (history : list SignalRecord) (db : DB)
  : AIOrchestrator :=
  {| db_conn := db;
     active_agents := List.map (fun a => (name a, a)) agents;
     signal_validator := {| recent_signals := history; max_signal_history := 100 |};
     running := true |}.

(** Scenario A of the specification. *)
Definition agent_A : Agent := stub_agent "A" 0.8 (Return ("BUY"%string, 0.9)).
Definition agent_B : Agent := stub_agent "B" 0.5 (Return ("SELL"%string, 0.6)).
Definition scenario_A : AIOrchestrator := demo_orchestrator [agent_A; agent_B] [] empty_db.
Definition decisions_A : list Decision :=
  [ {| d_agent := "A"; d_action := "BUY"; d_confidence := 0.9;
       d_reason := "up"; d_metadata := [] |};
    {| d_agent := "B"; d_action := "SELL"; d_confidence := 0.6;
       d_reason := "down"; d_metadata := [] |} ].

(** 2026-01-05 10:00:00, in microseconds. *)
Definition t0 : Z := 1767607200000000.

Definition unhealthy_zmq_manager : CommunicationManager :=
  {| zmq_bridge := {| zmq_running := true; publisher := None; responder := Some 2%nat |};
     websocket_bridge := {| ws_running := true; server := Some 3%nat; clients := [] |};
     active_bridge := zmq; failover_enabled := true;
     health_check_interval := 30; cm_running := true |}.

Definition failing_agent : Agent :=
  stub_agent "error_agent" 0.5 (Raise (Error "Model error")).

Definition unloaded_agent : Agent :=
  new_Agent "missing" "/models/missing.pkl" "1.0.0" 0.5.

Definition idle_orchestrator : AIOrchestrator :=
  demo_orchestrator [] [] empty_db.

(** What a call returned, and what the vote gave, for a call known to have
    returned a signal. *)
Definition no_signal : EnsembleSignal :=
  {| action := HOLD; confidence := 0; reason := ""; votes := zero_votes |}.

Definition returned (r : AIOrchestrator * Result EnsembleSignal) : EnsembleSignal :=
  match snd r with Return s => s | Raise _ => no_signal end.

Definition the_vote (o : option (Result EnsembleSignal)) : EnsembleSignal :=
  match o with Some (Return s) => s | _ => no_signal end.

(** One agent voting BUY with confidence 0.3, below the threshold. *)
Definition hesitant_orchestrator : AIOrchestrator :=
  demo_orchestrator [stub_agent "technical" 0.8 (Return ("BUY"%string, 0.3))] [] empty_db.

(** One agent voting BUY with confidence 0.9. *)
Definition confident_orchestrator (history : list SignalRecord) : AIOrchestrator :=
  demo_orchestrator [stub_agent "technical" 0.8 (Return ("BUY"%string, 0.9))] history empty_db.

(** Three signals for EURUSD, ten seconds before [t0]. *)
Definition eurusd_record : SignalRecord :=
  {| r_symbol := Some "EURUSD"%string; r_action := "BUY"; r_confidence := 0.9;
     r_timestamp := Some (t0 - 10000000)%Z |}.

Definition busy_history : list SignalRecord :=
  [eurusd_record; eurusd_record; eurusd_record].

(** The technical agent is live and scored 0.30; the candidate's model
    file cannot be loaded. *)
Definition weak_technical : AIOrchestrator :=
  demo_orchestrator [stub_agent "technical" 0.3 (Return ("HOLD"%string, 0.5))] []
    {| model_registry :=
         [ {| reg_agent_name := "technical"; reg_model_path := "/models/technical.pkl";
              reg_version := "1.0.0"; reg_performance_score := 0.3;
              reg_status := active; reg_updated_at := (t0 - 600000000)%Z |};
           {| reg_agent_name := "technical"; reg_model_path := "/models/missing.pkl";
              reg_version := "2.0.0"; reg_performance_score := 0.65;
              reg_status := inactive; reg_updated_at := (t0 - 600000000)%Z |} ];
       ai_performance := []; trade_stats := []; faults := [] |}.

Definition broken_backup : BackupRow :=
  {| b_model_path := "/models/missing.pkl"; b_version := "2.0.0";
     b_performance_score := 0.65 |}.

(** Two live agents scored 0.5, a row with enough trades for each, its
    aggregates floats as the mocked cursor of the repository's tests hands
    them over, and a connection whose coming operations fail as [f]
    says. *)
Definition scoring_db (f : list bool) : DB :=
  {| model_registry := []; ai_performance := [];
     trade_stats :=
       [ {| perf_agent_name := "technical"; perf_win_rate := Some (PyFloat 0.65);
            perf_avg_pnl := Some (PyFloat 15.5); perf_trade_count := Some 20%Z |};
         {| perf_agent_name := "sentiment"; perf_win_rate := Some (PyFloat 0.4);
            perf_avg_pnl := Some (PyFloat 5); perf_trade_count := Some 12%Z |} ];
     faults := f |}.

Definition scoring_orchestrator (f : list bool) : AIOrchestrator :=
  demo_orchestrator [stub_agent "technical" 0.5 (Return ("BUY"%string, 0.9));
                     stub_agent "sentiment" 0.5 (Return ("SELL"%string, 0.6))]
    [] (scoring_db f).

Definition live_score (self : AIOrchestrator) (n : string) : Q :=
  match get (active_agents self) n with
  | Some a => performance_score a
  | None => 0
  end.

(** Calls of [get_ensemble_signal] one after the other, at the given
    times. *)
Fixpoint run_calls `{RT : Runtime} (settings : Settings) (self : AIOrchestrator)
    (symbol : string) (market : Market) (times : list Z)
  : AIOrchestrator * list (Result EnsembleSignal) :=
  match times with
  | [] => (self, [])
  | now :: rest =>
      let (self1, r) := get_ensemble_signal settings now self symbol market in
      let (self2, rs) := run_calls settings self1 symbol market rest in
      (self2, r :: rs)
  end.

(** * Further parts of the three modules *)

(** ** [SignalValidator.get_signal_stats] and [reset_stats] *)

(** The dictionary [get_signal_stats] returns; with an empty memory it has
    the first two keys only. *)
Record SignalStats : Type := {
  total_signals : nat;
  avg_confidence : Q;
  actions : option (Dict nat);
  time_range : option (Z * Z)
}.

(** [actions[action] = actions.get(action, 0) + 1] over the memory *)
Definition count_action (acts : Dict nat) (s : SignalRecord) : Dict nat :=
  set acts (r_action s)
    (match get acts (r_action s) with Some n => n | None => 0%nat end + 1)%nat.

Definition count_actions (l : list SignalRecord) : Dict nat :=
  List.fold_left count_action l [].

(** [s['timestamp']], which raises when the key is absent *)
Definition timestamp_of (s : SignalRecord) : Result Z :=
  match r_timestamp s with
  | Some t => Return t
  | None => Raise (KeyError "timestamp")
  end.

Definition get_signal_stats (self : SignalValidator) : Result SignalStats :=
  match recent_signals self with
  | [] => Return {| total_signals := 0; avg_confidence := 0;
                    actions := None; time_range := None |}
  | first :: _ =>
      let total := List.length (recent_signals self) in
      let avg := np_mean (List.map r_confidence (recent_signals self)) in
      let acts := count_actions (recent_signals self) in
      oldest <- timestamp_of first ;;
      newest <- timestamp_of (List.last (recent_signals self) first) ;;
      Return {| total_signals := total; avg_confidence := avg;
                actions := Some acts; time_range := Some (oldest, newest) |}
  end.

Definition reset_stats (self : SignalValidator) : SignalValidator :=
  {| recent_signals := []; max_signal_history := max_signal_history self |}.

Definition sum_counts (d : Dict nat) : nat :=
  List.fold_right (fun kv n => (snd kv + n)%nat) 0%nat d.

(** ** [Agent]: indicators and feature vectors *)

(** A candle of [market_data]; every field is read with [dict.get]. *)
Record Candle : Type := {
  c_close : option Q;
  c_price : option Q;
  c_high : option Q;
  c_low : option Q;
  c_volume : option Q;
  c_spread : option Q
}.

Definition get_or (x : option Q) (default : Q) : Q :=
  match x with Some q => q | None => default end.

(** [candle.get("close", candle.get("price", 0))] *)
Definition candle_close (c : Candle) : Q := get_or (c_close c) (get_or (c_price c) 0).





(** [max(a, b, c)]: a later argument wins only when strictly larger. *)
Definition max3 (a b c : Q) : Q :=
  let m := if Qgtb b a then b else a in
  if Qgtb c m then c else m.

(** The true ranges of the loop of [_calculate_atr] over consecutive
    candles. *)
Fixpoint true_ranges (market_data : list Candle) : list Q :=
  match market_data with
  | prev :: ((cur :: _) as rest) =>
      let high := get_or (c_high cur) 0 in
      let low := get_or (c_low cur) 0 in
      let prev_close := candle_close prev in
      max3 (high - low) (Qabs (high - prev_close)) (Qabs (low - prev_close))
      :: true_ranges rest
  | _ => []
  end.

(** [Agent._calculate_atr]: [i] runs from 1 to
    [min(len(market_data), period + 1) - 1], that is over the first
    [period + 1] candles. *)
Definition _calculate_atr (market_data : list Candle) (period : nat) : Q :=
  if (List.length market_data <? period)%nat then 0
  else
    let tr_values := true_ranges (List.firstn (period + 1) market_data) in
    match tr_values with
    | [] => 0
    | _ => np_mean tr_values
    end.

(** [Agent._preprocess_price_data] on [data.get("market_data", [])]; the
    result is the row of the 1 x n array. *)
Definition _preprocess_price_data (market_data : list Candle) : list Q :=
  if (20 <=? List.length market_data)%nat
  then List.map candle_close (last_n 20 market_data)
  else List.repeat 0 20.

(** [Agent._preprocess_risk_data] *)
Definition _preprocess_risk_data (now : Z) (market_data : list Candle) : list Q :=
  match market_data with
  | [] => [0; 0; 2; 0; 0.5]
  | first :: _ =>
      let latest := List.last market_data first in
      let price := candle_close latest in
      let volume := get_or (c_volume latest) 0 in
      let spread := get_or (c_spread latest) 2 in
      let atr := _calculate_atr market_data 14 in
      let hour := hour_of now in
      let time_factor := if (8 <=? hour)%Z && (hour <=? 16)%Z then 1 else 0.5 in
      [price; volume; spread; atr; time_factor]
  end.

(** ** [AIOrchestrator]: start-up, health, performance check *)

(** Stable insertion by descending score: ORDER BY performance_score DESC *)
Fixpoint insert_desc (r : RegistryRow) (l : list RegistryRow) : list RegistryRow :=
  match l with
  | [] => [r]
  | x :: l' =>
      if Qgtb (reg_performance_score r) (reg_performance_score x)
      then r :: x :: l' else x :: insert_desc r l'
  end.

Definition order_by_score_desc (l : list RegistryRow) : list RegistryRow :=
  List.fold_left (fun acc r => insert_desc r acc) l [].

(** SELECT ... FROM model_registry WHERE status = 'active'
    ORDER BY performance_score DESC *)
Definition sql_active_models (db : DB) : list RegistryRow :=
  order_by_score_desc (List.filter is_active (model_registry db)).

(** SELECT ... WHERE status = 'active' AND performance_score < 0.45
    AND updated_at > NOW() - INTERVAL '1 hour' *)
Definition sql_underperformers (now : Z) (db : DB) : list RegistryRow :=
  List.filter (fun r => is_active r
                        && Qltb (reg_performance_score r) 0.45
                        && (now - 3600000000 <? reg_updated_at r)%Z)
    (model_registry db).

Definition backup_of (r : RegistryRow) : BackupRow :=
  {| b_model_path := reg_model_path r; b_version := reg_version r;
     b_performance_score := reg_performance_score r |}.

(** SELECT ... WHERE agent_name = n AND status = 'inactive'
    AND performance_score > s ORDER BY performance_score DESC LIMIT 1 *)
Definition sql_best_backup (n : string) (s : Q) (db : DB) : option BackupRow :=
  List.hd_error
    (List.map backup_of
       (order_by_score_desc
          (List.filter (fun r => String.eqb (reg_agent_name r) n
                                 && negb (is_active r)
                                 && Qgtb (reg_performance_score r) s)
             (model_registry db)))).

Section OrchestratorMore.
Context `{RT : Runtime}.

(** [AIOrchestrator.is_healthy] *)
Definition is_healthy (self : AIOrchestrator) : bool :=
  running self && (0 <? List.length (active_agents self))%nat.

(** The loop of [load_active_models] over the fetched rows. *)
Fixpoint load_rows (agents : Dict Agent) (rows : list RegistryRow)
  : Dict Agent * Result unit :=
  match rows with
  | [] => (agents, Return tt)
  | row :: rest =>
      let agent := new_Agent (reg_agent_name row) (reg_model_path row)
                     (reg_version row) (reg_performance_score row) in
      match load_model agent with
      | Raise e => (agents, Raise e)
      | Return loaded => load_rows (set agents (name loaded) loaded) rest
      end
  end.

(** [AIOrchestrator.load_active_models]: the orchestrator afterwards, and
    whether the body went through or was cut by an exception (which is
    logged and dropped). *)
Definition load_active_models_outcome (self : AIOrchestrator)
  : AIOrchestrator * Result unit :=
  let (db1, opened) := db_cursor (db_conn self) in
  match opened with
  | Raise e => (with_db self db1, Raise e)
  | Return _ =>
      let (db2, selected) := db_op (fun db => db) db1 in
      match selected with
      | Raise e => (with_db self db2, Raise e)
      | Return _ =>
          let (agents, r) := load_rows (active_agents self) (sql_active_models db2) in
          (with_agents (with_db self db2) agents, r)
      end
  end.

Definition load_active_models (self : AIOrchestrator) : AIOrchestrator :=
  fst (load_active_models_outcome self).

(** The loop of [_check_model_performance] over the underperformers. *)
Fixpoint check_rows (self : AIOrchestrator) (underperformers : list RegistryRow)
  : AIOrchestrator * Result unit :=
  match underperformers with
  | [] => (self, Return tt)
  | row :: rest =>
      let agent_name := reg_agent_name row in
      let current_score := reg_performance_score row in
      let (db1, queried) := db_op (fun db => db) (db_conn self) in
      match queried with
      | Raise e => (with_db self db1, Raise e)
      | Return _ =>
          match sql_best_backup agent_name current_score db1 with
          | Some backup =>
              check_rows (_swap_model (with_db self db1) agent_name backup) rest
          | None => check_rows (with_db self db1) rest
          end
      end
  end.

(** [AIOrchestrator._check_model_performance] *)
Definition _check_model_performance (now : Z) (self : AIOrchestrator) : AIOrchestrator :=
  let (db1, opened) := db_cursor (db_conn self) in
  match opened with
  | Raise _ => with_db self db1
  | Return _ =>
      let (db2, selected) := db_op (fun db => db) db1 in
      match selected with
      | Raise _ => with_db self db2
      | Return _ =>
          fst (check_rows (with_db self db2) (sql_underperformers now db2))
      end
  end.

(** Every live agent has its model loaded. *)
Definition all_loaded (agents : Dict Agent) : Prop :=
  forall k a, In (k, a) agents -> model a <> None.

(** What a live agent is, apart from the loaded model. *)
Definition identity (a : Agent) : string * string * string * Q :=
  (name a, model_path a, version a, performance_score a).

End OrchestratorMore.

(** ** Bridges *)






(** [ZMQBridge.send_signal]; [sent] tells whether serializing and
    [publisher.send] went through. *)
Definition zmq_send_signal (self : ZMQBridge) (sent : bool) : bool :=
  if negb (is_some (publisher self)) || negb (zmq_running self) then false
  else sent.

(** [WebSocketBridge._send_to_client]: [delivered] tells whether
    [client.send] went through, [on_client_disconnected] is the callback,
    if one is registered.  The coroutine returns [None] unless the
    callback raises. *)
Definition _send_to_client (delivered : Handle -> bool)
    (on_client_disconnected : option (Handle -> Result unit))
    (clients : list Handle) (client : Handle) : list Handle * Result unit :=
  if delivered client then (clients, Return tt)
  else
    let clients' := List.filter (fun c => negb (Nat.eqb c client)) clients in
    match on_client_disconnected with
    | Some callback => (clients', callback client)
    | None => (clients', Return tt)
    end.

(** The tasks of [broadcast_signal], one per client of the set as it was
    when the broadcast began. *)
Fixpoint send_all (delivered : Handle -> bool)
    (on_client_disconnected : option (Handle -> Result unit))
    (clients : list Handle) (targets : list Handle)
  : list Handle * list (Result unit) :=
  match targets with
  | [] => (clients, [])
  | client :: rest =>
      let (clients1, r) := _send_to_client delivered on_client_disconnected clients client in
      let (clients2, rs) := send_all delivered on_client_disconnected clients1 rest in
      (clients2, r :: rs)
  end.

Definition with_clients (self : WebSocketBridge) (l : list Handle) : WebSocketBridge :=
  {| ws_running := ws_running self; server := server self; clients := l |}.

(** [WebSocketBridge.broadcast_signal], for a signal that has an [action]
    key (the log line reads it): the bridge afterwards and the number
    returned, which counts the results that are [None].  The serializer
    catches its own exceptions. *)
Definition broadcast_signal (self : WebSocketBridge) (delivered : Handle -> bool)
    (on_client_disconnected : option (Handle -> Result unit))
  : WebSocketBridge * nat :=
  match clients self with
  | [] => (self, 0%nat)
  | _ =>
      if negb (ws_running self) then (self, 0%nat)
      else
        let (clients', results) :=
          send_all delivered on_client_disconnected (clients self) (clients self) in
        (with_clients self clients',
         List.length (List.filter (fun r => negb (raises r)) results))
  end.

Definition with_ws (self : CommunicationManager) (wb : WebSocketBridge)
  : CommunicationManager :=
  {| zmq_bridge := zmq_bridge self; websocket_bridge := wb;
     active_bridge := active_bridge self; failover_enabled := failover_enabled self;
     health_check_interval := health_check_interval self;
     cm_running := cm_running self |}.

(** [CommunicationManager.send_signal] with the two bridges behind it: a
    bridge is asked to send only where the code calls it. *)
Definition manager_send_signal (self : CommunicationManager) (zmq_sent : bool)
    (delivered : Handle -> bool)
    (on_client_disconnected : option (Handle -> Result unit))
  : CommunicationManager * bool :=
  match active_bridge self with
  | zmq =>
      let success := zmq_send_signal (zmq_bridge self) zmq_sent in
      if negb success && failover_enabled self then
        let (wb, n) := broadcast_signal (websocket_bridge self) delivered
                         on_client_disconnected in
        (with_ws (with_active self websocket) wb, (0 <? n)%nat)
      else (self, success)
  | websocket =>
      let (wb, n) := broadcast_signal (websocket_bridge self) delivered
                       on_client_disconnected in
      let success := (0 <? n)%nat in
      if negb success && failover_enabled self then
        (with_ws (with_active self zmq) wb, zmq_send_signal (zmq_bridge self) zmq_sent)
      else (with_ws self wb, success)
  end.

(** [CommunicationManager.is_healthy] *)
Definition manager_is_healthy (self : CommunicationManager) : bool :=
  cm_running self
  && (zmq_is_healthy (zmq_bridge self) || ws_is_healthy (websocket_bridge self)).

(** ** Further concrete states *)

(** A signal that carries its symbol, as a caller of [validate_signal]
    other than the orchestrator may pass it. *)
Definition eurusd_signal : SignalDict :=
  {| sd_symbol := Some "EURUSD"%string; sd_action := Some "BUY"%string;
     sd_confidence := Some 0.9 |}.

Definition busy_validator : SignalValidator :=
  {| recent_signals := busy_history; max_signal_history := 100 |}.

(** One entry for EURUSD, recorded a day and 30 seconds before [t0]. *)
Definition yesterday_validator : SignalValidator :=
  {| recent_signals :=
       [ {| r_symbol := Some "EURUSD"%string; r_action := "SELL"; r_confidence := 0.8;
            r_timestamp := Some (t0 - 86430000000)%Z |} ];
     max_signal_history := 100 |}.

Definition count_of (d : Dict nat) (k : string) : nat :=
  match get d k with Some n => n | None => 0%nat end.

(** A decision whose action is none of the three, from agent A. *)
Definition strong_buy_decision : Decision :=
  {| d_agent := "A"; d_action := "STRONG_BUY"; d_confidence := 0.9;
     d_reason := "up"; d_metadata := [] |}.

(** A decision of an agent that is not in the live map. *)
Definition stranger_decision : Decision :=
  {| d_agent := "ghost"; d_action := "SELL"; d_confidence := 1;
     d_reason := "?"; d_metadata := [] |}.

(** Two error decisions, as [predict] builds them. *)
Definition error_decisions_A : list Decision :=
  [error_decision agent_A (Error "Model error");
   error_decision agent_B (Error "Model error")].

(** Scenario A with other weights and with the two actions exchanged. *)
Definition scenario_A_reweighted : AIOrchestrator :=
  demo_orchestrator [stub_agent "A" 0.1 (Return ("SELL"%string, 0.9));
                     stub_agent "B" 0.9 (Return ("BUY"%string, 0.6))] [] empty_db.

Definition decisions_A_swapped : list Decision :=
  [ {| d_agent := "A"; d_action := "SELL"; d_confidence := 0.9;
       d_reason := "down"; d_metadata := [] |};
    {| d_agent := "B"; d_action := "BUY"; d_confidence := 0.6;
       d_reason := "up"; d_metadata := [] |} ].

Definition split_votes : Votes :=
  {| votes_BUY := 0.3; votes_SELL := 0.5; votes_HOLD := 0.1 |}.

(** A loaded agent whose model answers with an action outside the three. *)
Definition eager_orchestrator : AIOrchestrator :=
  demo_orchestrator [stub_agent "technical" 0.8 (Return ("STRONG_BUY"%string, 0.9))]
    [] empty_db.

(** Two agents that are not loaded and whose model file does not load. *)
Definition unloadable_orchestrator : AIOrchestrator :=
  demo_orchestrator
    [new_Agent "technical" "/models/missing.pkl" "1.0.0" 0.8;
     new_Agent "sentiment" "/models/missing.pkl" "1.0.0" 0.5]
    [] empty_db.

(** The registry after the UPDATEs of the rows that qualify. *)
Definition apply_registry (now : Z) (rows : list PerfRow) (db : DB) : DB :=
  List.fold_left (fun d row =>
      if row_qualifies row
      then match row_performance_score row with
           | Return s => sql_update_score now s (perf_agent_name row) d
           | Raise _ => d
           end
      else d) rows db.

(** The registry rows of the scoring fixture. *)
Definition scoring_registry : list RegistryRow :=
  [ {| reg_agent_name := "technical"; reg_model_path := "/models/technical.pkl";
       reg_version := "1.0.0"; reg_performance_score := 0.5;
       reg_status := active; reg_updated_at := 0%Z |};
    {| reg_agent_name := "sentiment"; reg_model_path := "/models/sentiment.pkl";
       reg_version := "1.0.0"; reg_performance_score := 0.5;
       reg_status := active; reg_updated_at := 0%Z |} ].

Definition synced_orchestrator : AIOrchestrator :=
  demo_orchestrator [stub_agent "technical" 0.5 (Return ("BUY"%string, 0.9));
                     stub_agent "sentiment" 0.5 (Return ("SELL"%string, 0.6))]
    []
    {| model_registry := scoring_registry; ai_performance := [];
       trade_stats := trade_stats (scoring_db []); faults := [] |}.

(** The same two agents when the driver hands the win rates over as
    [Decimal] and the mean results as floats: the first row has no
    winning trade (its win rate, a zero, becomes the float 0.0), the
    second has a win rate of 0.65. *)
Definition decimal_orchestrator : AIOrchestrator :=
  demo_orchestrator [stub_agent "technical" 0.5 (Return ("BUY"%string, 0.9));
                     stub_agent "sentiment" 0.5 (Return ("SELL"%string, 0.6))]
    []
    {| model_registry := scoring_registry; ai_performance := [];
       trade_stats :=
         [ {| perf_agent_name := "sentiment"; perf_win_rate := Some (PyDecimal 0);
              perf_avg_pnl := Some (PyFloat (-3)); perf_trade_count := Some 12%Z |};
           {| perf_agent_name := "technical"; perf_win_rate := Some (PyDecimal 0.65);
              perf_avg_pnl := Some (PyFloat 15.5); perf_trade_count := Some 20%Z |} ];
       faults := [] |}.

(** The registry under [apply_registry]. *)
Definition scored_as (now : Z) (n : string) (s : Q) (db : DB) : Prop :=
  forall r, In r (model_registry db) -> reg_agent_name r = n ->
    reg_performance_score r = s /\ reg_updated_at r = now.

(** What a scoring pass leaves alone in an agent. *)
Definition static_part `{RT : Runtime} (a : Agent) : string * string * string * option Model :=
  (name a, model_path a, version a, model a).

(** Scenario C of the specification: the live technical agent scores 0.30,
    its registry row was updated ten minutes ago, and an inactive row of
    the same name scores 0.65. *)
Definition scenario_C : AIOrchestrator :=
  demo_orchestrator [stub_agent "technical" 0.3 (Return ("HOLD"%string, 0.5));
                     stub_agent "sentiment" 0.7 (Return ("SELL"%string, 0.6))] []
    {| model_registry :=
         [ {| reg_agent_name := "technical"; reg_model_path := "/models/technical.pkl";
              reg_version := "1.0.0"; reg_performance_score := 0.3;
              reg_status := active; reg_updated_at := (t0 - 600000000)%Z |};
           {| reg_agent_name := "technical"; reg_model_path := "/models/technical_v2.pkl";
              reg_version := "2.0.0"; reg_performance_score := 0.65;
              reg_status := inactive; reg_updated_at := (t0 - 600000000)%Z |};
           {| reg_agent_name := "sentiment"; reg_model_path := "/models/sentiment.pkl";
              reg_version := "1.0.0"; reg_performance_score := 0.7;
              reg_status := active; reg_updated_at := (t0 - 600000000)%Z |} ];
       ai_performance := []; trade_stats := []; faults := [] |}.

Definition backup_C : BackupRow :=
  {| b_model_path := "/models/technical_v2.pkl"; b_version := "2.0.0";
     b_performance_score := 0.65 |}.

(** The loader as [Agent.load_model] calls it:
    [ModelLoader.load_model(self.model_path)] calls a method of the
    abstract class on the class itself, one argument short, and Python
    raises TypeError whatever the path is.  The rest is [stub_runtime]. *)
Definition source_loader_runtime : Runtime := {|
  Data := string;
  Features := unit;
  RawPrediction := string * Q;
  PyObj := Q;
  Model := Result (string * Q);
  Market := unit;
  make_data := fun symbol _ => symbol;
  ModelLoader_load_model := fun _ =>
    Raise (TypeError
      "ModelLoader.load_model() missing 1 required positional argument: 'model_path'");
  model_predict := fun m _ => m;
  _preprocess_data := fun _ _ => Return tt;
  _postprocess_prediction := fun p =>
    Return {| pr_action := fst p; pr_confidence := snd p;
              pr_reason := "Model prediction: " +++ fst p; pr_metadata := [] |};
  py_float := fun q => Return q;
  repr_float := fun _ => "0.75"%string;
  json_encode := fun _ => "{}"%string
|}.

(** The registry of scenario C under that loader: start-up loaded nothing,
    the live map is empty. *)
Definition cold_orchestrator : @AIOrchestrator source_loader_runtime :=
  @Build_AIOrchestrator source_loader_runtime
    (db_conn scenario_C) [] new_SignalValidator true.

(** A callback that does not raise, or none at all. *)
Definition quiet (callback : option (Handle -> Result unit)) : Prop :=
  match callback with
  | None => True
  | Some f => forall c, f c = Return tt
  end.

Definition mem (c : Handle) (l : list Handle) : bool := List.existsb (Nat.eqb c) l.

(** The websocket bridge is active, with three clients connected. *)
Definition websocket_manager : CommunicationManager :=
  {| zmq_bridge := {| zmq_running := true; publisher := Some 1%nat; responder := Some 2%nat |};
     websocket_bridge := {| ws_running := true; server := Some 3%nat;
                            clients := [10; 11; 12]%nat |};
     active_bridge := websocket; failover_enabled := true;
     health_check_interval := 30; cm_running := true |}.

(** Both bridges are down. *)
Definition dark_manager : CommunicationManager :=
  {| zmq_bridge := {| zmq_running := false; publisher := None; responder := None |};
     websocket_bridge := {| ws_running := true; server := Some 3%nat; clients := [] |};
     active_bridge := zmq; failover_enabled := true;
     health_check_interval := 30; cm_running := true |}.

Definition flat_candle (p : Q) : Candle :=
  {| c_close := Some p; c_price := None; c_high := Some (p + 0.001);
     c_low := Some (p - 0.001); c_volume := Some 1000; c_spread := None |}.


(** * Properties *)

(** ** Auxiliary facts *)

Lemma get_set_other {V : Type} (d : Dict V) (k k' : string) (v : V) :
  k <> k' -> get (set d k v) k' = get d k'.
Proof.
  intros Hne. induction d as [|[k0 v0] d IH]; simpl.
  - destruct (String.eqb_spec k k'); [contradiction | reflexivity].
  - destruct (String.eqb_spec k0 k) as [->|Hk0]; simpl.
    + destruct (String.eqb_spec k k'); [contradiction | reflexivity].
    + destruct (String.eqb k0 k'); [reflexivity | exact IH].
Qed.

Lemma Qltb_lt (x y : Q) : Qltb x y = true <-> x < y.
Proof.
  unfold Qltb. rewrite negb_true_iff. split.
  - intros H. apply Qnot_le_lt. intros Hle.
    apply Qle_bool_iff in Hle. congruence.
  - intros H. destruct (Qle_bool y x) eqn:E; [|reflexivity].
    apply Qle_bool_iff in E. exfalso. exact (Qlt_not_le _ _ H E).
Qed.

Lemma Qgtb_gt (x y : Q) : Qgtb x y = true <-> y < x.
Proof. unfold Qgtb. apply (Qltb_lt y x). Qed.

Lemma hour_of_range (now : Z) : (0 <= hour_of now <= 23)%Z.
Proof.
  unfold hour_of.
  pose proof (Z.mod_pos_bound (now / 3600000000) 24 ltac:(lia)). lia.
Qed.

(** ** Signal validator *)

Lemma market_conditions_pass (now : Z) (symbol : string) (signal : SignalDict) :
  _validate_market_conditions now symbol signal = true.
Proof.
  unfold _validate_market_conditions.
  destruct (hour_of_range now) as [Hlo Hhi].
  apply Z.leb_le in Hlo. apply Z.leb_le in Hhi.
  rewrite Hlo, Hhi. reflexivity.
Qed.

(** C10: the market-condition check accepts every signal for every symbol
    at every time of day: the hour of a clock reading lies between 0 and
    23, so the time window never rejects. *)
Theorem C10_market_conditions_always_pass :
  forall (now : Z) (symbol : string) (signal : SignalDict),
    (0 <= hour_of now <= 23)%Z
    /\ _validate_market_conditions now symbol signal = true.
Proof.
  intros now symbol signal. split.
  - apply hour_of_range.
  - apply market_conditions_pass.
Qed.

(** ** Communication manager *)

(** One iteration of the monitor: the active bridge is switched to the
    other one when the active bridge is unhealthy and the other one is
    healthy, and is left as it is in every other case; nothing else of the
    manager changes. *)
Lemma health_tick_failover :
  forall self : CommunicationManager,
    (bridge_healthy self (active_bridge self) = false ->
     bridge_healthy self (other_bridge (active_bridge self)) = true ->
     active_bridge (health_tick self) = other_bridge (active_bridge self))
    /\ (bridge_healthy self (active_bridge self) = true \/
        bridge_healthy self (other_bridge (active_bridge self)) = false ->
        health_tick self = self)
    /\ health_tick self = with_active self (active_bridge (health_tick self)).
Proof.
  intros self. unfold health_tick, bridge_healthy, other_bridge.
  destruct self as [zb wb ab fe hi run]; simpl.
  destruct ab; simpl;
    destruct (zmq_is_healthy zb), (ws_is_healthy wb); simpl;
    (split; [| split]); try reflexivity; try discriminate;
    intros [H | H]; discriminate.
Qed.

(** The monitor applies [health_tick] to what it observes at each period
    for which [running] is set. *)
Lemma health_monitor_head :
  forall env self k n zb wb,
    env k = (zb, wb, true) ->
    List.hd_error (_health_monitor env self k (S n))
    = Some (health_tick
              {| zmq_bridge := zb; websocket_bridge := wb;
                 active_bridge := active_bridge self;
                 failover_enabled := failover_enabled self;
                 health_check_interval := health_check_interval self;
                 cm_running := true |}).
Proof.
  intros env self k n zb wb Henv. simpl. rewrite Henv. reflexivity.
Qed.

(** C9: the health monitor, at a tick that finds [running] set and the two
    bridges as [zb] and [wb].  The manager the monitor leaves at that
    tick, before it sleeps for [health_check_interval], has its active
    bridge switched to the other one when the active bridge is unhealthy
    and the other one is healthy, and has the flag it had in every other
    combination; the rest of the manager is as observed, and the monitor
    goes on from that manager at the next tick.  At a tick that finds
    [running] cleared the monitor stops without touching the manager. *)
Theorem C9_health_monitor_failover :
  forall (env : nat -> ZMQBridge * WebSocketBridge * bool) (self : CommunicationManager)
         (k n : nat) (zb : ZMQBridge) (wb : WebSocketBridge),
    let healthy := fun b : Bridge =>
      match b with zmq => zmq_is_healthy zb | websocket => ws_is_healthy wb end in
    (env k = (zb, wb, true) ->
     exists self',
       _health_monitor env self k (S n) = self' :: _health_monitor env self' (S k) n
       /\ (healthy (active_bridge self) = false ->
           healthy (other_bridge (active_bridge self)) = true ->
           active_bridge self' = other_bridge (active_bridge self))
       /\ (healthy (active_bridge self) = true \/
           healthy (other_bridge (active_bridge self)) = false ->
           active_bridge self' = active_bridge self)
       /\ zmq_bridge self' = zb
       /\ websocket_bridge self' = wb
       /\ failover_enabled self' = failover_enabled self
       /\ health_check_interval self' = health_check_interval self
       /\ cm_running self' = true)
    /\ (env k = (zb, wb, false) -> _health_monitor env self k n = []).
Proof.
  intros env self k n zb wb. cbv zeta. split.
  - intros Henv. simpl. rewrite Henv. simpl.
    eexists. split; [reflexivity|].
    unfold health_tick, other_bridge.
    destruct self as [zb0 wb0 ab fe hi run]; simpl.
    destruct ab; simpl;
      destruct (zmq_is_healthy zb), (ws_is_healthy wb); simpl;
      repeat split; try reflexivity; try discriminate;
      intros [H | H]; discriminate.
  - intros Henv. destruct n as [|n]; [reflexivity|]. simpl. rewrite Henv. reflexivity.
Qed.

Lemma C9_health_monitor_failover_witness :
  let env := fun _ : nat =>
    (zmq_bridge unhealthy_zmq_manager, websocket_bridge unhealthy_zmq_manager, true) in
  active_bridge unhealthy_zmq_manager = zmq
  /\ zmq_is_healthy (zmq_bridge unhealthy_zmq_manager) = false
  /\ ws_is_healthy (websocket_bridge unhealthy_zmq_manager) = true
  /\ (exists self',
        _health_monitor env unhealthy_zmq_manager 0 1 = [self']
        /\ active_bridge self' = websocket)
  /\ _health_monitor
       (fun _ : nat =>
          (zmq_bridge unhealthy_zmq_manager, websocket_bridge unhealthy_zmq_manager,
           false))
       unhealthy_zmq_manager 0 3 = [].
Proof.
  cbv zeta.
  split; [reflexivity | split; [reflexivity | split; [reflexivity |]]].
  split;
    [| exact (proj2 (C9_health_monitor_failover
                       (fun _ : nat =>
                          (zmq_bridge unhealthy_zmq_manager,
                           websocket_bridge unhealthy_zmq_manager, false))
                       unhealthy_zmq_manager 0 3
                       (zmq_bridge unhealthy_zmq_manager)
                       (websocket_bridge unhealthy_zmq_manager))
                eq_refl)].
  destruct (proj1 (C9_health_monitor_failover
                     (fun _ : nat =>
                        (zmq_bridge unhealthy_zmq_manager,
                         websocket_bridge unhealthy_zmq_manager, true))
                     unhealthy_zmq_manager 0 0
                     (zmq_bridge unhealthy_zmq_manager)
                     (websocket_bridge unhealthy_zmq_manager))
              eq_refl) as [self' [Hrun [Hswitch _]]].
  exists self'. split; [exact Hrun|].
  apply Hswitch; reflexivity.
Defined.

(** ** Agent *)

Section AgentFacts.
Context `{RT : Runtime}.

(** A failure of any stage inside the [try] block is a failure of the
    block. *)
Lemma predict_body_stage_failure (a : Agent) (data : Data) (e : Exception) :
  (_preprocess_data (name a) data = Raise e -> predict_body a data = Raise e)
  /\ (forall m f, model a = Some m -> _preprocess_data (name a) data = Return f ->
      model_predict m f = Raise e -> predict_body a data = Raise e)
  /\ (forall m f p, model a = Some m -> _preprocess_data (name a) data = Return f ->
      model_predict m f = Return p -> _postprocess_prediction p = Raise e ->
      predict_body a data = Raise e)
  /\ (forall m f p r, model a = Some m -> _preprocess_data (name a) data = Return f ->
      model_predict m f = Return p -> _postprocess_prediction p = Return r ->
      py_float (pr_confidence r) = Raise e -> predict_body a data = Raise e).
Proof.
  unfold predict_body. repeat split.
  - intros ->. reflexivity.
  - intros m f Hm Hf Hp. rewrite Hm, Hf. simpl. rewrite Hp. reflexivity.
  - intros m f p Hm Hf Hp Hr. rewrite Hm, Hf. simpl. rewrite Hp. simpl.
    rewrite Hr. reflexivity.
  - intros m f p r Hm Hf Hp Hr Hc. rewrite Hm, Hf. simpl. rewrite Hp. simpl.
    rewrite Hr. simpl. rewrite Hc. reflexivity.
Qed.

Lemma predict_guarded_error (a : Agent) (data : Data) (e : Exception) :
  predict_body a data = Raise e -> predict_guarded a data = error_decision a e.
Proof. unfold predict_guarded. intros ->. reflexivity. Qed.

End AgentFacts.

(** C5, as the code has it: with the model loaded, [predict] always returns
    a decision, and an exception of the [try] block (preprocessing,
    inference, post-processing, conversion of the confidence) becomes the
    decision HOLD with confidence 0 and a reason that starts with
    "Error: ".  With the model not loaded, [load_model] runs before the
    [try] block: when it succeeds the same holds for the agent it gives,
    and when it fails its exception is raised to the caller. *)
Theorem C5_predict_error_handling :
  forall (RT : Runtime) (a : Agent) (data : Data),
    (model a <> None ->
       exists d, predict a data = (a, Return d)
         /\ forall e, predict_body a data = Raise e ->
              d_agent d = name a /\ d_action d = "HOLD"%string /\ d_confidence d = 0
              /\ d_reason d = "Error: " +++ str e)
    /\ (forall a', model a = None -> load_model a = Return a' ->
       exists d, predict a data = (a', Return d)
         /\ forall e, predict_body a' data = Raise e ->
              d_agent d = name a' /\ d_action d = "HOLD"%string /\ d_confidence d = 0
              /\ d_reason d = "Error: " +++ str e)
    /\ (forall e, model a = None -> load_model a = Raise e ->
       predict a data = (a, Raise e)).
Proof.
  intros RT a data. unfold predict. repeat split.
  - destruct (model a) as [m|] eqn:Hm; [|congruence]. intros _.
    exists (predict_guarded a data). split; [reflexivity|].
    intros e He. rewrite (predict_guarded_error a data e He). simpl. auto.
  - intros a' Hnone Hload. rewrite Hnone, Hload.
    exists (predict_guarded a' data). split; [reflexivity|].
    intros e He. rewrite (predict_guarded_error a' data e He). simpl. auto.
  - intros e Hnone Hload. rewrite Hnone, Hload. reflexivity.
Qed.

Lemma C5_predict_error_handling_witness :
  model failing_agent <> None
  /\ predict_body failing_agent "EURUSD"%string = Raise (Error "Model error")
  /\ exists d, predict failing_agent "EURUSD"%string = (failing_agent, Return d)
       /\ d_action d = "HOLD"%string /\ d_confidence d = 0
       /\ d_reason d = "Error: Model error"%string.
Proof.
  assert (Hm : model failing_agent <> None) by discriminate.
  split; [exact Hm | split; [reflexivity |]].
  destruct (proj1 (C5_predict_error_handling stub_runtime failing_agent
                     "EURUSD"%string) Hm) as [d [Hd He]].
  exists d. split; [exact Hd |].
  destruct (He (Error "Model error") eq_refl) as [_ [Ha [Hc Hr]]].
  repeat split; assumption.
Defined.

(** C5 fails as stated: an agent whose model is not loaded and whose model
    file cannot be loaded makes [predict] raise. *)
Lemma C5_load_failure_propagates :
  model unloaded_agent = None
  /\ snd (predict unloaded_agent "EURUSD"%string)
     = Raise (Error "Unsupported model format for /models/missing.pkl").
Proof. split; reflexivity. Qed.

(** ** Ensemble engine: the early return *)

(** C4, as the code has it: with no active agent the call returns HOLD,
    confidence 0, all votes 0 and the reason "No active agents available",
    and leaves the orchestrator as it is. *)
Theorem C4_no_active_agents :
  forall (RT : Runtime) (settings : Settings) (now : Z) (self : AIOrchestrator)
         (symbol : string) (market : Market),
    active_agents self = [] ->
    get_ensemble_signal settings now self symbol market
    = (self, Return {| action := HOLD; confidence := 0;
                       reason := "No active agents available";
                       votes := zero_votes |}).
Proof.
  intros RT settings now self symbol market H.
  unfold get_ensemble_signal. rewrite H. reflexivity.
Qed.

Lemma C4_no_active_agents_witness :
  active_agents idle_orchestrator = []
  /\ get_ensemble_signal demo_settings t0 idle_orchestrator "EURUSD" tt
     = (idle_orchestrator,
        Return {| action := HOLD; confidence := 0;
                  reason := "No active agents available";
                  votes := zero_votes |}).
Proof.
  split; [reflexivity |].
  apply (C4_no_active_agents stub_runtime demo_settings t0
           idle_orchestrator "EURUSD"%string tt).
  reflexivity.
Defined.

(** C4 fails as stated: the reason returned is not the text "No active
    agents". *)
Lemma C4_reason_differs :
  snd (get_ensemble_signal demo_settings t0 idle_orchestrator "EURUSD" tt)
  <> Return {| action := HOLD; confidence := 0;
               reason := "No active agents";
               votes := zero_votes |}.
Proof. simpl. intros H. discriminate H. Qed.

(** ** Ensemble engine: the gates *)

Section EngineFacts.
Context `{RT : Runtime}.
Variable settings : Settings.
Variable now : Z.

Lemma db_op_tables (effect : DB -> DB) (db : DB) :
  (forall d, ai_performance (effect d) = ai_performance d) ->
  ai_performance (fst (db_op effect db)) = ai_performance db.
Proof.
  intros Heff. unfold db_op.
  destruct (faults db) as [|[|] rest]; simpl; try rewrite Heff; reflexivity.
Qed.

(** [_log_signal] touches the connection only. *)
Lemma log_signal_frame (self : AIOrchestrator) (symbol : string)
    (er : EnsembleSignal) (ds : list Decision) :
  signal_validator (_log_signal now self symbol er ds) = signal_validator self
  /\ active_agents (_log_signal now self symbol er ds) = active_agents self.
Proof.
  unfold _log_signal.
  destruct (db_cursor (db_conn self)) as [db1 [u|e]]; [|split; reflexivity].
  destruct (json_dumps _ _) as [text|e]; [|split; reflexivity].
  destruct (db_op _ db1) as [db2 [u2|e2]]; split; reflexivity.
Qed.

(** The dictionary handed to [json.dumps] holds a [datetime] under
    "timestamp", so the encoder raises and no row reaches [ai_performance]. *)
Lemma log_signal_audit_unchanged (self : AIOrchestrator) (symbol : string)
    (er : EnsembleSignal) (ds : list Decision) :
  ai_performance (db_conn (_log_signal now self symbol er ds))
  = ai_performance (db_conn self).
Proof.
  unfold _log_signal, db_cursor.
  pose proof (db_op_tables (fun db => db) (db_conn self) (fun d => eq_refl)) as Hc.
  destruct (db_op (fun db => db) (db_conn self)) as [db1 [u|e]]; simpl in *;
    exact Hc.
Qed.

(** The ensemble result always passes the structure check. *)
Lemma basic_structure_signal_dict (s : EnsembleSignal) :
  _validate_basic_structure (signal_dict s) = true.
Proof.
  unfold _validate_basic_structure, signal_dict. simpl.
  destruct (action s); reflexivity.
Qed.

(** The validator on an ensemble result: it accepts exactly when the
    confidence reaches the threshold and the frequency check passes. *)
Lemma validate_signal_dict (v : SignalValidator) (symbol : string) (s : EnsembleSignal) :
  validate_signal settings now v symbol (signal_dict s)
  = if negb (Qltb (confidence s) (confidence_threshold settings))
       && _validate_signal_frequency now v (signal_dict s)
    then (true, _record_signal now v (signal_dict s))
    else (false, v).
Proof.
  unfold validate_signal.
  rewrite basic_structure_signal_dict, market_conditions_pass.
  unfold _validate_confidence, _validate_risk_management,
    _validate_volatility, _validate_spread. simpl.
  destruct (Qltb (confidence s) (confidence_threshold settings)); simpl;
    [reflexivity|].
  destruct (_validate_signal_frequency now v (signal_dict s)); reflexivity.
Qed.

(** The two gates in sequence, below the threshold and at or above it. *)
Lemma gates_below_threshold (v : SignalValidator) (symbol : string) (voted : EnsembleSignal) :
  Qltb (confidence voted) (confidence_threshold settings) = true ->
  validation_gate settings now v symbol (confidence_gate settings voted)
  = (add_reason (with_action (add_reason (with_action voted HOLD)
                                (confidence_fragment settings)) HOLD)
       validation_fragment, v).
Proof.
  intros Hlow. unfold validation_gate, confidence_gate. rewrite Hlow.
  rewrite validate_signal_dict. simpl. rewrite Hlow. reflexivity.
Qed.

Lemma gates_at_threshold (v : SignalValidator) (symbol : string) (voted : EnsembleSignal) :
  Qltb (confidence voted) (confidence_threshold settings) = false ->
  validation_gate settings now v symbol (confidence_gate settings voted)
  = if _validate_signal_frequency now v (signal_dict voted)
    then (voted, _record_signal now v (signal_dict voted))
    else (add_reason (with_action voted HOLD) validation_fragment, v).
Proof.
  intros Hlow. unfold validation_gate, confidence_gate. rewrite Hlow.
  rewrite validate_signal_dict. rewrite Hlow. simpl.
  destruct (_validate_signal_frequency now v (signal_dict voted)); reflexivity.
Qed.

(** What the call does once the vote has produced [voted]. *)
Lemma get_ensemble_signal_after_vote (self : AIOrchestrator) (symbol : string)
    (market : Market) (voted : EnsembleSignal) :
  vote_stage self symbol market = Some (Return voted) ->
  exists self' : AIOrchestrator,
    get_ensemble_signal settings now self symbol market
    = (self',
       Return (fst (validation_gate settings now (signal_validator self) symbol
                      (confidence_gate settings voted))))
    /\ signal_validator self'
       = snd (validation_gate settings now (signal_validator self) symbol
                (confidence_gate settings voted)).
Proof.
  unfold vote_stage, get_ensemble_signal.
  destruct (active_agents self) as [|kv rest] eqn:Hag; [discriminate|].
  destruct (run_agents (kv :: rest) (make_data symbol market)) as [agents' results].
  destruct (valid_results_of results) as [|d ds] eqn:Hvalid; [discriminate|].
  intros Hvote. injection Hvote as Hvote. rewrite Hvote.
  change (signal_validator (with_agents self agents')) with (signal_validator self).
  destruct (validation_gate settings now (signal_validator self) symbol
              (confidence_gate settings voted)) as [er v'] eqn:Hgate.
  eexists. split; [reflexivity|].
  simpl. rewrite (proj1 (log_signal_frame _ _ _ _)). reflexivity.
Qed.

(** Without a vote the call returns one of the two fixed answers. *)
Lemma get_ensemble_signal_early (self : AIOrchestrator) (symbol : string)
    (market : Market) :
  vote_stage self symbol market = None ->
  exists self' why,
    get_ensemble_signal settings now self symbol market
    = (self', Return {| action := HOLD; confidence := 0; reason := why;
                        votes := zero_votes |})
    /\ signal_validator self' = signal_validator self.
Proof.
  unfold vote_stage, get_ensemble_signal.
  destruct (active_agents self) as [|kv rest] eqn:Hag.
  - intros _. do 2 eexists. split; reflexivity.
  - destruct (run_agents (kv :: rest) (make_data symbol market)) as [agents' results].
    destruct (valid_results_of results) as [|d ds] eqn:Hvalid; [|discriminate].
    intros _. do 2 eexists. split; reflexivity.
Qed.

Lemma get_ensemble_signal_vote_raises (self : AIOrchestrator) (symbol : string)
    (market : Market) (e : Exception) :
  vote_stage self symbol market = Some (Raise e) ->
  snd (get_ensemble_signal settings now self symbol market) = Raise e.
Proof.
  unfold vote_stage, get_ensemble_signal.
  destruct (active_agents self) as [|kv rest] eqn:Hag; [discriminate|].
  destruct (run_agents (kv :: rest) (make_data symbol market)) as [agents' results].
  destruct (valid_results_of results) as [|d ds] eqn:Hvalid; [discriminate|].
  intros Hvote. injection Hvote as Hvote. rewrite Hvote. reflexivity.
Qed.

End EngineFacts.

(** C3: a signal returned with a confidence below the threshold has
    action HOLD; it carries the votes (and the confidence) that the
    weighted vote produced, unchanged, and its reason is the vote's reason
    with the confidence fragment appended (and after it the validation
    fragment, the validator rejecting such a signal too). *)
Theorem C3_confidence_gate :
  forall (RT : Runtime) (settings : Settings) (now : Z) (self self' : AIOrchestrator)
         (symbol : string) (market : Market) (sig : EnsembleSignal),
    get_ensemble_signal settings now self symbol market = (self', Return sig) ->
    confidence sig < confidence_threshold settings ->
    action sig = HOLD
    /\ forall voted,
         vote_stage self symbol market = Some (Return voted) ->
         votes sig = votes voted
         /\ confidence sig = confidence voted
         /\ reason sig
            = (reason voted +++ confidence_fragment settings) +++ validation_fragment.
Proof.
  intros RT settings now self self' symbol market sig Hcall Hlow.
  destruct (vote_stage self symbol market) as [[voted|e]|] eqn:Hstage.
  - destruct (get_ensemble_signal_after_vote settings now self symbol market voted Hstage)
      as [s1 [Heq _]].
    rewrite Heq in Hcall. injection Hcall as _ Hsig.
    destruct (Qltb (confidence voted) (confidence_threshold settings)) eqn:Hgate.
    + rewrite (gates_below_threshold settings now _ symbol voted Hgate) in Hsig.
      simpl in Hsig. subst sig. split; [reflexivity|].
      intros voted' Hv. injection Hv as <-. simpl. repeat split; reflexivity.
    + exfalso.
      assert (Hconf : confidence sig = confidence voted).
      { rewrite <- Hsig, (gates_at_threshold settings now _ symbol voted Hgate).
        destruct (_validate_signal_frequency now (signal_validator self)
                    (signal_dict voted)); reflexivity. }
      rewrite Hconf in Hlow. apply Qltb_lt in Hlow. congruence.
  - pose proof (get_ensemble_signal_vote_raises settings now self symbol market e Hstage) as Hr.
    rewrite Hcall in Hr. discriminate Hr.
  - destruct (get_ensemble_signal_early settings now self symbol market Hstage)
      as [s1 [why [Heq _]]].
    rewrite Heq in Hcall. injection Hcall as _ Hsig.
    split; [rewrite <- Hsig; reflexivity | discriminate].
Qed.

(** C8, as the code has it: a call that gets as far as the weighted vote
    and returns has written the signal into the validator's memory exactly
    when the validator accepted it, that is when the confidence reaches the
    threshold and the frequency check passes; the entry is then appended
    (under the symbol "UNKNOWN", the result having no symbol key) and the
    oldest entry dropped once the memory exceeds its bound.  A signal that
    the confidence gate or the validator forced to HOLD is not written. *)
Theorem C8_recorded_iff_validated :
  forall (RT : Runtime) (settings : Settings) (now : Z) (self : AIOrchestrator)
         (symbol : string) (market : Market) (voted : EnsembleSignal),
    vote_stage self symbol market = Some (Return voted) ->
    exists self' sig,
      get_ensemble_signal settings now self symbol market = (self', Return sig)
      /\ let v := signal_validator self in
         let accepted :=
           negb (Qltb (confidence voted) (confidence_threshold settings))
           && _validate_signal_frequency now v (signal_dict voted) in
         let entry :=
           {| r_symbol := Some "UNKNOWN"%string; r_action := action_name (action voted);
              r_confidence := confidence voted; r_timestamp := Some now |} in
         (accepted = true ->
            sig = voted
            /\ recent_signals (signal_validator self')
               = if (max_signal_history v <? List.length (recent_signals v ++ [entry]))%nat
                 then List.tl (recent_signals v ++ [entry])
                 else (recent_signals v ++ [entry])%list)
         /\ (accepted = false ->
            action sig = HOLD
            /\ recent_signals (signal_validator self') = recent_signals v).
Proof.
  intros RT settings now self symbol market voted Hstage.
  destruct (get_ensemble_signal_after_vote settings now self symbol market voted Hstage)
    as [self' [Heq Hval]].
  exists self'. eexists. split; [exact Heq|].
  rewrite Hval. clear Heq Hval. cbv zeta.
  destruct (Qltb (confidence voted) (confidence_threshold settings)) eqn:Hlow.
  - rewrite (gates_below_threshold settings now _ symbol voted Hlow). simpl.
    split; [discriminate|]. intros _. split; reflexivity.
  - rewrite (gates_at_threshold settings now _ symbol voted Hlow). simpl.
    destruct (_validate_signal_frequency now (signal_validator self) (signal_dict voted));
      simpl; split; try discriminate; intros _; split; reflexivity.
Qed.

Lemma C3_confidence_gate_witness :
  let r := get_ensemble_signal demo_settings t0 hesitant_orchestrator "EURUSD" tt in
  let voted := the_vote (vote_stage hesitant_orchestrator "EURUSD" tt) in
  r = (fst r, Return (returned r))
  /\ confidence (returned r) < confidence_threshold demo_settings
  /\ vote_stage hesitant_orchestrator "EURUSD" tt = Some (Return voted)
  /\ action (returned r) = HOLD
  /\ votes (returned r) = votes voted
  /\ confidence (returned r) = confidence voted
  /\ reason (returned r)
     = (reason voted +++ confidence_fragment demo_settings) +++ validation_fragment.
Proof.
  cbv zeta.
  assert (Hcall : get_ensemble_signal demo_settings t0 hesitant_orchestrator "EURUSD" tt
                  = (fst (get_ensemble_signal demo_settings t0 hesitant_orchestrator
                            "EURUSD" tt),
                     Return (returned (get_ensemble_signal demo_settings t0
                                         hesitant_orchestrator "EURUSD" tt))))
    by (vm_compute; reflexivity).
  assert (Hlow : confidence (returned (get_ensemble_signal demo_settings t0
                                         hesitant_orchestrator "EURUSD" tt))
                 < confidence_threshold demo_settings)
    by (vm_compute; reflexivity).
  assert (Hstage : vote_stage hesitant_orchestrator "EURUSD" tt
                   = Some (Return (the_vote (vote_stage hesitant_orchestrator
                                               "EURUSD" tt))))
    by (vm_compute; reflexivity).
  destruct (C3_confidence_gate stub_runtime demo_settings t0 hesitant_orchestrator _
              "EURUSD"%string tt _ Hcall Hlow) as [Hhold Hvote].
  destruct (Hvote _ Hstage) as [Hvotes [Hconf Hreason]].
  split; [exact Hcall | split; [exact Hlow | split; [exact Hstage |]]].
  split; [exact Hhold | split; [exact Hvotes | split; [exact Hconf | exact Hreason]]].
Defined.

Lemma length_append (s1 s2 : string) :
  String.length (s1 +++ s2) = (String.length s1 + String.length s2)%nat.
Proof. induction s1 as [|c s1 IH]; simpl; [reflexivity | rewrite IH; reflexivity]. Qed.

(** With no active agent the call returns before the vote and the gates:
    the signal is HOLD with confidence 0 and the fixed reason of the early
    return, to which nothing is appended. *)
Lemma early_return_has_fixed_reason :
  exists self' sig,
    get_ensemble_signal demo_settings t0 idle_orchestrator "EURUSD" tt = (self', Return sig)
    /\ confidence sig < confidence_threshold demo_settings
    /\ reason sig = "No active agents available"%string
    /\ forall s, reason sig <> s +++ confidence_fragment demo_settings.
Proof.
  do 2 eexists. split; [reflexivity|]. simpl.
  split; [reflexivity | split; [reflexivity|]].
  intros s H. apply (f_equal String.length) in H.
  rewrite length_append in H. simpl in H. lia.
Qed.

Lemma C8_recorded_iff_validated_witness :
  let self := confident_orchestrator [] in
  let voted := the_vote (vote_stage self "EURUSD" tt) in
  vote_stage self "EURUSD" tt = Some (Return voted)
  /\ exists self' sig,
       get_ensemble_signal demo_settings t0 self "EURUSD" tt = (self', Return sig)
       /\ sig = voted
       /\ recent_signals (signal_validator self')
          = [ {| r_symbol := Some "UNKNOWN"%string; r_action := "BUY";
                 r_confidence := confidence voted; r_timestamp := Some t0 |} ].
Proof.
  cbv zeta.
  assert (Hstage : vote_stage (confident_orchestrator []) "EURUSD" tt
                   = Some (Return (the_vote (vote_stage (confident_orchestrator [])
                                               "EURUSD" tt))))
    by (vm_compute; reflexivity).
  split; [exact Hstage|].
  destruct (C8_recorded_iff_validated stub_runtime demo_settings t0
              (confident_orchestrator []) "EURUSD"%string tt _ Hstage)
    as [self' [sig [Hcall [Hyes _]]]].
  exists self', sig. split; [exact Hcall|].
  destruct (Hyes ltac:(vm_compute; reflexivity)) as [Hsig Hmem].
  split; [exact Hsig|]. rewrite Hmem. vm_compute. reflexivity.
Defined.

(** C8 fails as stated: a call that reaches the vote with a confidence
    below the threshold returns HOLD and leaves the validator's memory
    empty. *)
Lemma C8_forced_hold_not_recorded :
  let r := get_ensemble_signal demo_settings t0 hesitant_orchestrator "EURUSD" tt in
  (exists voted, vote_stage hesitant_orchestrator "EURUSD" tt = Some (Return voted))
  /\ (exists sig, snd r = Return sig /\ action sig = HOLD)
  /\ recent_signals (signal_validator (fst r)) = [].
Proof.
  cbv zeta. split; [|split].
  - eexists. vm_compute. reflexivity.
  - eexists. split; vm_compute; reflexivity.
  - vm_compute. reflexivity.
Qed.

(** ** Frequency check *)

Lemma In_skipn {A : Type} (n : nat) (l : list A) (x : A) :
  In x (List.skipn n l) -> In x l.
Proof.
  intros H. rewrite <- (List.firstn_skipn n l). apply in_or_app. right. exact H.
Qed.

Lemma filter_none {A : Type} (f : A -> bool) (l : list A) :
  (forall x, In x l -> f x = false) -> List.filter f l = [].
Proof.
  induction l as [|a l IH]; intros H; simpl; [reflexivity|].
  rewrite (H a (or_introl eq_refl)). apply IH. intros x Hx. apply H. right. exact Hx.
Qed.

Lemma find_absent {A : Type} (f : A -> bool) (l : list A) :
  (forall x, In x l -> f x = false) -> List.find f l = None.
Proof.
  induction l as [|a l IH]; intros H; simpl; [reflexivity|].
  rewrite (H a (or_introl eq_refl)). apply IH. intros x Hx. apply H. right. exact Hx.
Qed.

(** An ensemble result has no [symbol] key, so it matches no entry of the
    memory that has one: whatever was recorded, under whatever symbols,
    the frequency check lets the result through. *)
Lemma frequency_check_blind (now : Z) (v : SignalValidator) (s : EnsembleSignal) :
  (forall r, In r (recent_signals v) -> r_symbol r <> None) ->
  _validate_signal_frequency now v (signal_dict s) = true.
Proof.
  intros Hsym. unfold _validate_signal_frequency. simpl.
  assert (Hno : forall r, In r (recent_signals v) -> opt_string_eqb (r_symbol r) None = false).
  { intros r Hr. specialize (Hsym r Hr). destruct (r_symbol r); [reflexivity | congruence]. }
  rewrite filter_none.
  - simpl. rewrite find_absent; [reflexivity|].
    intros r Hr. apply Hno. apply List.in_rev. exact Hr.
  - intros r Hr. apply Hno. unfold last_n in Hr. apply In_skipn in Hr. exact Hr.
Qed.

(** C2 against the code.  First: four calls for EURUSD one second apart,
    starting from an empty memory; each of them returns BUY, the fourth as
    well, and the four entries are filed under "UNKNOWN".  Second: the
    memory holds three entries for EURUSD among its last 20, the newest ten
    seconds old, and a signal for EURUSD comes in; the frequency check
    passes, the validator accepts, and the call returns BUY, not HOLD. *)
Theorem C2_fourth_signal_not_rejected :
  (let r := run_calls demo_settings (confident_orchestrator []) "EURUSD" tt
              [t0; t0 + 1000000; t0 + 2000000; t0 + 3000000]%Z in
   List.map (fun x => action (returned (fst r, x))) (snd r) = [BUY; BUY; BUY; BUY]
   /\ List.map raises (snd r) = [false; false; false; false]
   /\ List.map r_symbol (recent_signals (signal_validator (fst r)))
      = [Some "UNKNOWN"; Some "UNKNOWN"; Some "UNKNOWN"; Some "UNKNOWN"]%string)
  /\
  (let self := confident_orchestrator busy_history in
   let r := get_ensemble_signal demo_settings t0 self "EURUSD" tt in
   List.length (List.filter (fun s => opt_string_eqb (r_symbol s) (Some "EURUSD"%string))
                  (last_n 20 (recent_signals (signal_validator self)))) = 3%nat
   /\ List.map (fun s => timedelta_seconds t0 (match r_timestamp s with
                                               | Some t => t | None => t0 end))
        (recent_signals (signal_validator self)) = [10; 10; 10]%Z
   /\ _validate_signal_frequency t0 (signal_validator self) (signal_dict (returned r)) = true
   /\ (exists sig, snd r = Return sig
         /\ action sig = BUY
         /\ reason sig = "technical: Model prediction: BUY"%string)
   /\ List.map r_symbol (recent_signals (signal_validator (fst r)))
      = [Some "EURUSD"; Some "EURUSD"; Some "EURUSD"; Some "UNKNOWN"]%string).
Proof.
  cbv zeta. split.
  - split; [|split]; vm_compute; reflexivity.
  - split; [|split; [|split; [|split]]].
    + vm_compute. reflexivity.
    + vm_compute. reflexivity.
    + vm_compute. reflexivity.
    + eexists. split; [vm_compute; reflexivity|]. split; reflexivity.
    + vm_compute. reflexivity.
Qed.

(** ** Weighted vote *)

Section VoteFacts.
Context `{RT : Runtime}.
Variable agents : Dict Agent.

Lemma votes_get_set (v : Votes) (b a : Action) (x : Q) :
  votes_get (votes_set v b x) a = if action_eqb b a then x else votes_get v a.
Proof. destruct b, a; reflexivity. Qed.

(** One iteration on a valid decision adds [w * c] to the vote of its
    action and [w] to the total. *)
Lemma vote_step_valid (acc : VoteAcc) (d : Decision) :
  valid_decision agents d ->
  exists acc',
    vote_step agents acc d = Return acc'
    /\ (forall a, votes_get (acc_votes acc') a
                  == votes_get (acc_votes acc) a + weighted_confidence_for agents a [d])
    /\ acc_total_weight acc' == acc_total_weight acc + weight_of agents d
    /\ acc_confidences acc' = (acc_confidences acc ++ [d_confidence d])%list.
Proof.
  intros [Hag Hact]. unfold vote_step, weighted_confidence_for, weight_of.
  destruct (get agents (d_agent d)) as [ag|] eqn:Hg; [|congruence].
  simpl. destruct (action_of_string (d_action d)) as [b|] eqn:Hb; [|congruence].
  eexists. split; [reflexivity|]. simpl. rewrite Hg.
  split; [|split; reflexivity].
  intros a. rewrite votes_get_set.
  destruct (action_eqb b a) eqn:E.
  - destruct b, a; try discriminate E; simpl; ring.
  - ring.
Qed.

Lemma weighted_confidence_for_cons (a : Action) (d : Decision) (ds : list Decision) :
  weighted_confidence_for agents a (d :: ds)
  == weighted_confidence_for agents a [d] + weighted_confidence_for agents a ds.
Proof. unfold weighted_confidence_for. simpl. ring. Qed.

(** The loop over valid decisions. *)
Lemma vote_loop_valid (ds : list Decision) :
  forall acc,
    List.Forall (valid_decision agents) ds ->
    exists acc',
      vote_loop agents acc ds = Return acc'
      /\ (forall a, votes_get (acc_votes acc') a
                    == votes_get (acc_votes acc) a + weighted_confidence_for agents a ds)
      /\ acc_total_weight acc' == acc_total_weight acc + total_weight agents ds
      /\ acc_confidences acc' = (acc_confidences acc ++ List.map d_confidence ds)%list.
Proof.
  induction ds as [|d ds IH]; intros acc Hvalid.
  - exists acc. split; [reflexivity|]. unfold weighted_confidence_for, total_weight.
    simpl. split; [intros a; ring | split; [ring | symmetry; apply List.app_nil_r]].
  - inversion Hvalid as [|d' ds' Hd Hds]; subst.
    destruct (vote_step_valid acc d Hd) as [acc1 [Hstep [Hv1 [Ht1 Hc1]]]].
    destruct (IH acc1 Hds) as [acc' [Hloop [Hv [Ht Hc]]]].
    exists acc'. simpl. rewrite Hstep. simpl. split; [exact Hloop|].
    split; [|split].
    + intros a. rewrite (Hv a), (Hv1 a), (weighted_confidence_for_cons a d ds). ring.
    + rewrite Ht, Ht1. unfold total_weight. simpl. ring.
    + rewrite Hc, Hc1, <- List.app_assoc. reflexivity.
Qed.

(** A valid decision counts for exactly one action. *)
Lemma weighted_confidence_single (d : Decision) :
  action_of_string (d_action d) <> None ->
  weighted_confidence_for agents BUY [d] + weighted_confidence_for agents SELL [d]
  + weighted_confidence_for agents HOLD [d]
  == weight_of agents d * d_confidence d.
Proof.
  intros Hact. unfold weighted_confidence_for. simpl.
  destruct (action_of_string (d_action d)) as [[| |]|]; [| | |congruence];
    simpl; ring.
Qed.

Lemma weighted_confidence_split (ds : list Decision) :
  List.Forall (valid_decision agents) ds ->
  weighted_confidence_for agents BUY ds + weighted_confidence_for agents SELL ds
  + weighted_confidence_for agents HOLD ds
  == weighted_confidence agents ds.
Proof.
  induction 1 as [|d ds [_ Hact] _ IH].
  - unfold weighted_confidence_for, weighted_confidence. simpl. ring.
  - rewrite !(weighted_confidence_for_cons _ d ds).
    pose proof (weighted_confidence_single d Hact) as Hd.
    unfold weighted_confidence in *. simpl. lra.
Qed.

End VoteFacts.

Lemma votes_get_normalize (v : Votes) (t : Q) (a : Action) :
  votes_get (normalize v t) a = votes_get v a / t.
Proof. destruct a; reflexivity. Qed.

(** C1, as the code has it: for a non-empty list of valid decisions whose
    weights sum to more than 0, the vote for each action is
    Σ(w_i·c_i | action = a) / Σw_i; the three votes together amount to
    Σ w_i·c_i / Σw_i, the weighted mean of the confidences, and not to 1.
    The equalities are those of the exact values; the floats of the
    program follow them up to rounding. *)
Theorem C1_weighted_vote_formula :
  forall (RT : Runtime) (self : AIOrchestrator) (ds : list Decision),
    ds <> [] ->
    List.Forall (valid_decision (active_agents self)) ds ->
    0 < total_weight (active_agents self) ds ->
    exists sig,
      _weighted_vote self ds = Return sig
      /\ (forall a, votes_get (votes sig) a
                    == weighted_confidence_for (active_agents self) a ds
                       / total_weight (active_agents self) ds)
      /\ votes_total (votes sig)
         == weighted_confidence (active_agents self) ds
            / total_weight (active_agents self) ds.
Proof.
  intros RT self ds _ Hvalid Hpos.
  set (agents := active_agents self) in *.
  set (T := total_weight agents ds) in *.
  destruct (vote_loop_valid agents ds vote_init Hvalid) as [acc [Hloop [Hv [Ht _]]]].
  fold T in Ht. simpl in Ht.
  assert (HT : acc_total_weight acc == T) by (rewrite Ht; ring).
  assert (Hgt : Qgtb (acc_total_weight acc) 0 = true)
    by (apply Qgtb_gt; rewrite HT; exact Hpos).
  assert (Hne : ~ T == 0) by (intros H0; rewrite H0 in Hpos; discriminate Hpos).
  unfold _weighted_vote. fold agents. rewrite Hloop. simpl. rewrite Hgt.
  eexists. split; [reflexivity|]. simpl.
  assert (Hformula : forall a,
             votes_get (normalize (acc_votes acc) (acc_total_weight acc)) a
             == weighted_confidence_for agents a ds / T).
  { intros a. rewrite votes_get_normalize, (Hv a), HT.
    replace (votes_get (acc_votes vote_init) a) with 0 by (destruct a; reflexivity).
    field. exact Hne. }
  assert (Hsum : votes_total (normalize (acc_votes acc) (acc_total_weight acc))
                 == weighted_confidence agents ds / T).
  { unfold votes_total.
    change (votes_BUY (normalize (acc_votes acc) (acc_total_weight acc)))
      with (votes_get (normalize (acc_votes acc) (acc_total_weight acc)) BUY).
    change (votes_SELL (normalize (acc_votes acc) (acc_total_weight acc)))
      with (votes_get (normalize (acc_votes acc) (acc_total_weight acc)) SELL).
    change (votes_HOLD (normalize (acc_votes acc) (acc_total_weight acc)))
      with (votes_get (normalize (acc_votes acc) (acc_total_weight acc)) HOLD).
    rewrite !Hformula, <- (weighted_confidence_split agents ds Hvalid).
    field. exact Hne. }
  split; [exact Hformula | exact Hsum].
Qed.

Lemma scenario_A_valid :
  List.Forall (valid_decision (active_agents scenario_A)) decisions_A.
Proof. repeat constructor; simpl; discriminate. Qed.

Lemma C1_weighted_vote_formula_witness :
  decisions_A <> []
  /\ List.Forall (valid_decision (active_agents scenario_A)) decisions_A
  /\ 0 < total_weight (active_agents scenario_A) decisions_A
  /\ exists sig,
       _weighted_vote scenario_A decisions_A = Return sig
       /\ votes_get (votes sig) BUY
          == weighted_confidence_for (active_agents scenario_A) BUY decisions_A
             / total_weight (active_agents scenario_A) decisions_A
       /\ votes_total (votes sig)
          == weighted_confidence (active_agents scenario_A) decisions_A
             / total_weight (active_agents scenario_A) decisions_A.
Proof.
  assert (Hne : decisions_A <> []) by discriminate.
  assert (Hpos : 0 < total_weight (active_agents scenario_A) decisions_A)
    by (vm_compute; reflexivity).
  split; [exact Hne | split; [exact scenario_A_valid | split; [exact Hpos |]]].
  destruct (C1_weighted_vote_formula stub_runtime scenario_A decisions_A
              Hne scenario_A_valid Hpos) as [sig [Hcall [Hformula Hsum]]].
  exists sig. split; [exact Hcall | split; [apply Hformula | exact Hsum]].
Defined.

(** C1 fails as stated: in scenario A of the specification (weights 0.8
    and 0.5, confidences 0.9 and 0.6) the total weight is 1.3, the votes
    are 36/65, 3/13 and 0, and their sum is 51/65, which is short of 1 by
    more than 0.2. *)
Lemma C1_votes_do_not_sum_to_one :
  decisions_A <> []
  /\ List.Forall (valid_decision (active_agents scenario_A)) decisions_A
  /\ total_weight (active_agents scenario_A) decisions_A == 1.3
  /\ exists sig,
       _weighted_vote scenario_A decisions_A = Return sig
       /\ votes_BUY (votes sig) == 36 # 65
       /\ votes_SELL (votes sig) == 3 # 13
       /\ votes_HOLD (votes sig) == 0
       /\ votes_total (votes sig) == 51 # 65
       /\ votes_total (votes sig) < 1 - 0.2
       /\ ~ votes_total (votes sig) == 1.
Proof.
  split; [discriminate | split; [exact scenario_A_valid | split; [reflexivity |]]].
  eexists. split; [reflexivity|].
  repeat split; try (vm_compute; reflexivity).
  vm_compute. discriminate.
Qed.

(** ** Hot swap *)

Section SwapFacts.
Context `{RT : Runtime}.

Lemma get_set_same {V : Type} (d : Dict V) (k : string) (v : V) :
  get (set d k v) k = Some v.
Proof.
  induction d as [|[k' v'] d IH]; simpl.
  - rewrite String.eqb_refl. reflexivity.
  - destruct (String.eqb k' k) eqn:E; simpl.
    + rewrite String.eqb_refl. reflexivity.
    + rewrite E. exact IH.
Qed.

(** Every state of a swap has the live map of the entry state, or that map
    with the loaded candidate stored under the agent's name. *)
Lemma swap_trace_agents (self : AIOrchestrator) (agent_name : string) (backup : BackupRow) :
  forall s, In s (_swap_model_trace self agent_name backup) ->
    active_agents s = active_agents self
    \/ exists loaded,
         load_model (new_Agent agent_name (b_model_path backup) (b_version backup)
                       (b_performance_score backup)) = Return loaded
         /\ active_agents s = set (active_agents self) agent_name loaded.
Proof.
  unfold _swap_model_trace.
  destruct (db_cursor (db_conn self)) as [db1 [u1|e1]];
    [destruct (db_op (sql_deactivate agent_name) db1) as [db2 [u2|e2]];
     [destruct (db_op (sql_activate agent_name (b_version backup)) db2) as [db3 [u3|e3]];
      [destruct (db_commit db3) as [db4 [u4|e4]];
       [destruct (load_model _) as [loaded|e] eqn:Hload | ] | ] | ] | ];
    simpl; intros s Hin;
    repeat (destruct Hin as [<- | Hin];
            [first [left; reflexivity | right; eexists; split; reflexivity] | ]);
    contradiction.
Qed.

(** When the candidate does not load, no state of the swap differs from
    the entry state in its live map. *)
Lemma swap_trace_load_failure (self : AIOrchestrator) (agent_name : string)
    (backup : BackupRow) (e : Exception) :
  load_model (new_Agent agent_name (b_model_path backup) (b_version backup)
                (b_performance_score backup)) = Raise e ->
  forall s, In s (_swap_model_trace self agent_name backup) ->
    active_agents s = active_agents self.
Proof.
  intros Hload s Hin.
  destruct (swap_trace_agents self agent_name backup s Hin) as [H | [loaded [Hl _]]];
    [exact H | congruence].
Qed.

Lemma swap_model_in_trace (self : AIOrchestrator) (agent_name : string) (backup : BackupRow) :
  In (_swap_model self agent_name backup) (_swap_model_trace self agent_name backup).
Proof.
  unfold _swap_model.
  assert (Hne : _swap_model_trace self agent_name backup <> [])
    by (unfold _swap_model_trace; discriminate).
  destruct (List.exists_last Hne) as [l [x Hl]]. rewrite Hl, List.last_last.
  apply in_or_app. right. left. reflexivity.
Qed.

End SwapFacts.

(** C6: when the candidate's model does not load, the swap ends with the
    live map it started with, so the previous agent keeps serving; and in
    no state the swap goes through does a name that resolved on entry
    resolve to nothing: the entry under the name is the old agent or the
    loaded candidate. *)
Theorem C6_swap_keeps_serving :
  forall (RT : Runtime) (self : AIOrchestrator) (agent_name : string) (backup : BackupRow),
    (forall e,
       load_model (new_Agent agent_name (b_model_path backup) (b_version backup)
                     (b_performance_score backup)) = Raise e ->
       active_agents (_swap_model self agent_name backup) = active_agents self)
    /\ (forall s,
          In s (_swap_model_trace self agent_name backup) ->
          get (active_agents self) agent_name <> None ->
          get (active_agents s) agent_name <> None
          /\ (get (active_agents s) agent_name = get (active_agents self) agent_name
              \/ exists loaded,
                   load_model (new_Agent agent_name (b_model_path backup)
                                 (b_version backup) (b_performance_score backup))
                   = Return loaded
                   /\ get (active_agents s) agent_name = Some loaded)).
Proof.
  intros RT self agent_name backup. split.
  - intros e Hload.
    apply (swap_trace_load_failure self agent_name backup e Hload).
    apply swap_model_in_trace.
  - intros s Hin Hlive.
    destruct (swap_trace_agents self agent_name backup s Hin) as [H | [loaded [Hl H]]];
      rewrite H.
    + split; [exact Hlive | left; reflexivity].
    + rewrite get_set_same. split; [discriminate | right; exists loaded; split; auto].
Qed.

Lemma C6_swap_keeps_serving_witness :
  load_model (new_Agent "technical" (b_model_path broken_backup) (b_version broken_backup)
                (b_performance_score broken_backup))
  = Raise (Error "Unsupported model format for /models/missing.pkl")
  /\ In (_swap_model weak_technical "technical" broken_backup)
        (_swap_model_trace weak_technical "technical" broken_backup)
  /\ get (active_agents weak_technical) "technical" <> None
  /\ active_agents (_swap_model weak_technical "technical" broken_backup)
     = active_agents weak_technical
  /\ get (active_agents (_swap_model weak_technical "technical" broken_backup)) "technical"
     <> None.
Proof.
  assert (Hload : load_model (new_Agent "technical" (b_model_path broken_backup)
                                (b_version broken_backup)
                                (b_performance_score broken_backup))
                  = Raise (Error "Unsupported model format for /models/missing.pkl"))
    by reflexivity.
  assert (Hin : In (_swap_model weak_technical "technical" broken_backup)
                   (_swap_model_trace weak_technical "technical" broken_backup))
    by (vm_compute; tauto).
  assert (Hlive : get (active_agents weak_technical) "technical" <> None)
    by (vm_compute; discriminate).
  destruct (C6_swap_keeps_serving stub_runtime weak_technical "technical"%string
              broken_backup) as [Hkeep Htrace].
  split; [exact Hload | split; [exact Hin | split; [exact Hlive | split]]].
  - exact (Hkeep _ Hload).
  - exact (proj1 (Htrace _ Hin Hlive)).
Defined.

(** ** Performance scoring *)

Section ScoringFacts.
Context `{RT : Runtime}.
Variable now : Z.

Lemma apply_scores_app (agents : Dict Agent) (l1 l2 : list PerfRow) :
  apply_scores agents (l1 ++ l2) = apply_scores (apply_scores agents l1) l2.
Proof. unfold apply_scores. apply List.fold_left_app. Qed.

Lemma apply_scores_cons (agents : Dict Agent) (row : PerfRow) (rows : list PerfRow) :
  apply_scores agents (row :: rows)
  = apply_scores (if row_qualifies row
                  then match row_performance_score row with
                       | Return s => set_live_score agents (perf_agent_name row) s
                       | Raise _ => agents
                       end
                  else agents) rows.
Proof. reflexivity. Qed.

Lemma row_computes_score (row : PerfRow) :
  row_computes row = true -> row_qualifies row = true ->
  exists s, row_performance_score row = Return s.
Proof.
  unfold row_computes. intros H Hq. rewrite Hq in H. simpl in H.
  destruct (row_performance_score row) as [s|e]; [exists s; reflexivity | discriminate].
Qed.

Lemma db_op_id_stats (db : DB) :
  trade_stats (fst (db_op (fun d => d) db)) = trade_stats db.
Proof. unfold db_op. destruct (faults db) as [|[|] rest]; reflexivity. Qed.

(** One row: the live map is that of [apply_scores] on the row when the
    iteration goes through, and is untouched when the score does not
    compute or the UPDATE fails. *)
Lemma score_row_agents (self : AIOrchestrator) (row : PerfRow) :
  active_agents (fst (score_row now self row))
  = match snd (score_row now self row) with
    | Return _ => apply_scores (active_agents self) [row]
    | Raise _ => active_agents self
    end.
Proof.
  unfold score_row. rewrite apply_scores_cons.
  destruct (row_qualifies row); [|reflexivity].
  destruct (row_performance_score row) as [s|e]; [|reflexivity].
  destruct (db_op _ (db_conn self)) as [db' [u|e]]; reflexivity.
Qed.

(** The loop: the rows before the failing iteration have been applied to
    the live map, the others have not; without a failure all have. *)
Lemma score_rows_agents (rows : list PerfRow) :
  forall self,
    exists n,
      (n <= List.length rows)%nat
      /\ active_agents (fst (score_rows now self rows))
         = apply_scores (active_agents self) (List.firstn n rows)
      /\ (raises (snd (score_rows now self rows)) = false -> n = List.length rows).
Proof.
  induction rows as [|row rows IH]; intros self.
  - exists 0%nat. simpl. repeat split; auto.
  - simpl. pose proof (score_row_agents self row) as Hrow.
    destruct (score_row now self row) as [self1 [u|e]]; simpl in Hrow.
    + destruct (IH self1) as [n [Hn [Hag Hdone]]].
      exists (S n). simpl List.length. split; [lia|]. split.
      * rewrite Hag, Hrow. symmetry. apply (apply_scores_app _ [row]).
      * intros H. rewrite (Hdone H). reflexivity.
    + exists 0%nat. simpl. split; [lia|]. split; [exact Hrow | discriminate].
Qed.

Lemma update_outcome_agents (self : AIOrchestrator) :
  exists n,
    (n <= List.length (trade_stats (db_conn self)))%nat
    /\ active_agents (_update_performance_scores now self)
       = apply_scores (active_agents self) (List.firstn n (trade_stats (db_conn self)))
    /\ (raises (snd (update_performance_scores_outcome now self)) = false ->
        n = List.length (trade_stats (db_conn self))).
Proof.
  unfold _update_performance_scores, update_performance_scores_outcome, db_cursor.
  pose proof (db_op_id_stats (db_conn self)) as Hs1.
  destruct (db_op (fun db => db) (db_conn self)) as [db1 [u1|e1]]; simpl in Hs1.
  - pose proof (db_op_id_stats db1) as Hs2.
    destruct (db_op (fun db => db) db1) as [db2 [u2|e2]]; simpl in Hs2.
    + rewrite Hs2, Hs1.
      destruct (score_rows_agents (trade_stats (db_conn self)) (with_db self db2))
        as [n [Hn [Hag Hdone]]].
      exists n. split; [exact Hn|].
      destruct (score_rows now (with_db self db2) (trade_stats (db_conn self)))
        as [self' [u|e]]; simpl in *.
      * destruct (db_commit (db_conn self')) as [db3 r3]. simpl.
        split; [exact Hag | intros _; apply Hdone; reflexivity].
      * split; [exact Hag | discriminate].
    + exists 0%nat. simpl. split; [lia|]. split; [reflexivity | discriminate].
  - exists 0%nat. simpl. split; [lia|]. split; [reflexivity | discriminate].
Qed.

(** A failure of [cursor()] or of the aggregate query comes before any
    row is looked at. *)
Lemma update_outcome_early_failure (self : AIOrchestrator) (rest : list bool) :
  faults (db_conn self) = true :: rest \/ faults (db_conn self) = false :: true :: rest ->
  snd (update_performance_scores_outcome now self) = Raise (Error "database error")
  /\ active_agents (_update_performance_scores now self) = active_agents self.
Proof.
  unfold _update_performance_scores, update_performance_scores_outcome, db_cursor, db_op.
  intros [H | H]; rewrite H; simpl; split; reflexivity.
Qed.

(** *** The operations of a pass, counted *)

Lemma with_faults_same (db : DB) : with_faults db (faults db) = db.
Proof. destruct db; reflexivity. Qed.

Lemma db_op_passes (effect : DB -> DB) (db : DB) :
  List.existsb (fun b : bool => b) (List.firstn 1 (faults db)) = false ->
  db_op effect db = (effect (with_faults db (List.skipn 1 (faults db))), Return tt).
Proof.
  unfold db_op. intros H. destruct (faults db) as [|[|] rest] eqn:Hf; simpl in *.
  - replace (with_faults db []) with db; [reflexivity|].
    rewrite <- Hf. symmetry. apply with_faults_same.
  - discriminate.
  - reflexivity.
Qed.

Lemma db_op_fails (effect : DB -> DB) (db : DB) (rest : list bool) :
  faults db = true :: rest ->
  db_op effect db = (with_faults db rest, Raise (Error "database error")).
Proof. unfold db_op. intros ->. reflexivity. Qed.

Lemma no_fault_split (n : nat) (f : list bool) :
  List.existsb (fun b : bool => b) (List.firstn (S n) f) = false ->
  List.existsb (fun b : bool => b) (List.firstn 1 f) = false
  /\ List.existsb (fun b : bool => b) (List.firstn n (List.skipn 1 f)) = false.
Proof.
  destruct f as [|[|] r]; simpl; intros H.
  - split; [reflexivity | destruct n; reflexivity].
  - discriminate.
  - split; [reflexivity | exact H].
Qed.

Lemma skipn_skipn_1 (n : nat) (f : list bool) :
  List.skipn n (List.skipn 1 f) = List.skipn (S n) f.
Proof. destruct f as [|b r]; simpl; [destruct n; reflexivity | reflexivity]. Qed.

Lemma repeat_false_schedule (n : nat) (rest : list bool) :
  List.existsb (fun b : bool => b) (List.firstn n (List.repeat false n ++ rest)) = false
  /\ List.skipn n (List.repeat false n ++ rest) = rest.
Proof. induction n as [|n IH]; simpl; [split; reflexivity | exact IH]. Qed.

Lemma apply_registry_with_faults (rows : list PerfRow) :
  forall db f,
    apply_registry now rows (with_faults db f) = with_faults (apply_registry now rows db) f.
Proof.
  unfold apply_registry.
  induction rows as [|row rows IH]; intros db f; simpl; [reflexivity|].
  destruct (row_qualifies row); [|apply IH].
  destruct (row_performance_score row) as [s|e]; [|apply IH].
  rewrite <- IH. reflexivity.
Qed.

Lemma apply_registry_step (rows : list PerfRow) (db : DB) (s : Q) (n : string)
    (f g : list bool) :
  with_faults (apply_registry now rows (sql_update_score now s n (with_faults db f))) g
  = with_faults (apply_registry now rows (sql_update_score now s n db)) g.
Proof.
  change (sql_update_score now s n (with_faults db f))
    with (with_faults (sql_update_score now s n db) f).
  rewrite apply_registry_with_faults. reflexivity.
Qed.

(** The loop over rows whose scores compute and whose UPDATEs do not
    fail: all of them are applied, to the live map and to the registry,
    and the loop goes on with the rows that follow. *)
Lemma score_rows_prefix (done : list PerfRow) :
  forall self todo,
    List.forallb row_computes done = true ->
    List.existsb (fun b : bool => b)
      (List.firstn (updates_of done) (faults (db_conn self))) = false ->
    exists self1,
      score_rows now self (done ++ todo) = score_rows now self1 todo
      /\ active_agents self1 = apply_scores (active_agents self) done
      /\ db_conn self1
         = with_faults (apply_registry now done (db_conn self))
             (List.skipn (updates_of done) (faults (db_conn self))).
Proof.
  induction done as [|row done IH]; intros self todo Hc Hf.
  - exists self. simpl. split; [reflexivity | split; [reflexivity|]].
    symmetry. apply with_faults_same.
  - simpl in Hc. apply andb_true_iff in Hc. destruct Hc as [Hrow Hc].
    change ((row :: done) ++ todo) with (row :: (done ++ todo)).
    simpl score_rows. unfold score_row. rewrite apply_scores_cons.
    unfold updates_of in *. unfold apply_registry. simpl List.fold_left.
    simpl List.filter in *.
    destruct (row_qualifies row) eqn:Hq.
    + destruct (row_computes_score row Hrow Hq) as [s Hs]. rewrite Hs.
      simpl List.length in *.
      destruct (no_fault_split _ _ Hf) as [H1 Hn].
      rewrite (db_op_passes _ _ H1).
      destruct (IH (with_agents
                      (with_db self
                         (sql_update_score now s (perf_agent_name row)
                            (with_faults (db_conn self)
                               (List.skipn 1 (faults (db_conn self))))))
                      (set_live_score (active_agents self) (perf_agent_name row) s))
                   todo Hc Hn) as [self1 [Hrun [Hag Hdb]]].
      exists self1. split; [exact Hrun | split; [exact Hag|]].
      rewrite Hdb,
        <- (skipn_skipn_1 (List.length (List.filter row_qualifies done))).
      exact (apply_registry_step done (db_conn self) s (perf_agent_name row)
               (List.skipn 1 (faults (db_conn self))) _).
    + destruct (IH self todo Hc Hf) as [self1 [Hrun [Hag Hdb]]].
      exists self1. split; [exact Hrun | split; [exact Hag | exact Hdb]].
Qed.

(** What is left of a pass once the loop has come to [todo]. *)
Lemma update_outcome_prefix (self : AIOrchestrator) (done todo : list PerfRow) :
  trade_stats (db_conn self) = done ++ todo ->
  List.forallb row_computes done = true ->
  List.existsb (fun b : bool => b)
    (List.firstn (2 + updates_of done) (faults (db_conn self))) = false ->
  exists self1,
    update_performance_scores_outcome now self
    = (let (self', r) := score_rows now self1 todo in
       match r with
       | Raise e => (self', Raise e)
       | Return _ =>
           let (db3, committed) := db_commit (db_conn self') in
           (with_db self' db3, committed)
       end)
    /\ active_agents self1 = apply_scores (active_agents self) done
    /\ db_conn self1
       = with_faults (apply_registry now done (db_conn self))
           (List.skipn (2 + updates_of done) (faults (db_conn self))).
Proof.
  intros Hrows Hc Hf.
  unfold update_performance_scores_outcome, db_cursor.
  change (2 + updates_of done)%nat with (S (S (updates_of done))) in *.
  destruct (no_fault_split _ _ Hf) as [H1 Hf1].
  rewrite (db_op_passes _ _ H1).
  assert (Hf1' : List.existsb (fun b : bool => b)
                   (List.firstn (S (updates_of done))
                      (faults (with_faults (db_conn self)
                                 (List.skipn 1 (faults (db_conn self)))))) = false)
    by exact Hf1.
  destruct (no_fault_split _ _ Hf1') as [H2 Hf2].
  rewrite (db_op_passes _ _ H2).
  set (db2 := with_faults
                (with_faults (db_conn self) (List.skipn 1 (faults (db_conn self))))
                (List.skipn 1
                   (faults (with_faults (db_conn self)
                              (List.skipn 1 (faults (db_conn self))))))) in *.
  assert (Hstats : trade_stats db2 = done ++ todo) by exact Hrows.
  rewrite Hstats.
  destruct (score_rows_prefix done (with_db self db2) todo Hc Hf2)
    as [self1 [Hrun [Hag Hdb]]].
  exists self1. rewrite Hrun. split; [reflexivity | split; [exact Hag|]].
  rewrite Hdb. simpl db_conn. unfold db2. rewrite !apply_registry_with_faults.
  rewrite <- (skipn_skipn_1 (S (updates_of done))),
    <- (skipn_skipn_1 (updates_of done)).
  reflexivity.
Qed.

(** *** The live map under [apply_scores] *)

Lemma set_live_score_other (agents : Dict Agent) (k k' : string) (s : Q) :
  k <> k' -> get (set_live_score agents k s) k' = get agents k'.
Proof.
  intros Hne. unfold set_live_score.
  destruct (get agents k); [apply get_set_other; exact Hne | reflexivity].
Qed.

Lemma set_live_score_same (agents : Dict Agent) (k : string) (s : Q) (a : Agent) :
  get agents k = Some a -> get (set_live_score agents k s) k = Some (with_score a s).
Proof. intros H. unfold set_live_score. rewrite H. apply get_set_same. Qed.

Lemma apply_scores_not_named (rows : list PerfRow) :
  forall agents k,
    ~ In k (List.map perf_agent_name (List.filter row_qualifies rows)) ->
    get (apply_scores agents rows) k = get agents k.
Proof.
  induction rows as [|row rows IH]; intros agents k Hk; [reflexivity|].
  rewrite apply_scores_cons. simpl in Hk.
  destruct (row_qualifies row).
  - simpl in Hk. rewrite IH by tauto.
    destruct (row_performance_score row) as [s|e]; [|reflexivity].
    apply set_live_score_other. tauto.
  - apply IH. exact Hk.
Qed.

Lemma apply_scores_other (rows : list PerfRow) :
  forall agents k,
    ~ In k (List.map perf_agent_name rows) ->
    get (apply_scores agents rows) k = get agents k.
Proof.
  intros agents k Hk. apply apply_scores_not_named.
  intros Hin. apply Hk.
  apply List.in_map_iff in Hin. destruct Hin as [r [Hr Hin]].
  apply List.filter_In in Hin. apply List.in_map_iff. exists r. tauto.
Qed.

Lemma apply_scores_row (rows : list PerfRow) :
  forall agents row a s,
    List.NoDup (List.map perf_agent_name rows) ->
    In row rows ->
    row_qualifies row = true ->
    row_performance_score row = Return s ->
    get agents (perf_agent_name row) = Some a ->
    get (apply_scores agents rows) (perf_agent_name row) = Some (with_score a s).
Proof.
  induction rows as [|r rows IH]; intros agents row a s Hnd Hin Hq Hs Hget;
    [contradiction|].
  rewrite apply_scores_cons. simpl in Hnd. inversion Hnd as [|x l Hnotin Hnd']; subst.
  destruct Hin as [-> | Hin].
  - rewrite Hq, Hs. rewrite apply_scores_other by exact Hnotin.
    apply set_live_score_same. exact Hget.
  - assert (Hne : perf_agent_name r <> perf_agent_name row).
    { intros Heq. apply Hnotin. rewrite Heq. apply List.in_map. exact Hin. }
    apply IH; try assumption.
    destruct (row_qualifies r); [|exact Hget].
    destruct (row_performance_score r) as [s'|e]; [|exact Hget].
    rewrite set_live_score_other by exact Hne. exact Hget.
Qed.

End ScoringFacts.

(** C7, as the code has it: a scoring pass that a persistence failure cuts
    short is not undone.  The scores of the rows up to the failing
    operation being computable (floats):
    - when [cursor()] or the aggregate query fails, the pass ends with
      that exception and no in-memory score has changed;
    - when the UPDATE of a row fails, the pass ends with that exception
      and the live map is the one obtained by applying the rows before
      it: an agent that no earlier row with at least 10 trades names
      holds its old score, the agent of the failing row among them, and
      (the rows before having distinct names) the live agent named by an
      earlier row with at least 10 trades holds that row's new score;
    - when the final commit fails, the pass ends with that exception and
      the live map is the one obtained by applying every row. *)
Theorem C7_scoring_pass_is_partial :
  forall (RT : Runtime) (now : Z) (self : AIOrchestrator),
    let rows := trade_stats (db_conn self) in
    let outcome := snd (update_performance_scores_outcome now self) in
    let after := _update_performance_scores now self in
    (forall rest,
        faults (db_conn self) = true :: rest
        \/ faults (db_conn self) = false :: true :: rest ->
        outcome = Raise (Error "database error")
        /\ active_agents after = active_agents self)
    /\ (forall done row todo rest,
          rows = done ++ row :: todo ->
          List.forallb row_computes (done ++ [row]) = true ->
          row_qualifies row = true ->
          faults (db_conn self)
          = List.repeat false (2 + updates_of done) ++ true :: rest ->
          outcome = Raise (Error "database error")
          /\ active_agents after = apply_scores (active_agents self) done
          /\ (forall k,
                ~ In k (List.map perf_agent_name (List.filter row_qualifies done)) ->
                get (active_agents after) k = get (active_agents self) k)
          /\ (List.NoDup (List.map perf_agent_name done) ->
              forall r a s,
                In r done -> row_qualifies r = true ->
                row_performance_score r = Return s ->
                get (active_agents self) (perf_agent_name r) = Some a ->
                get (active_agents after) (perf_agent_name r)
                = Some (with_score a s)))
    /\ (forall rest,
          List.forallb row_computes rows = true ->
          faults (db_conn self)
          = List.repeat false (2 + updates_of rows) ++ true :: rest ->
          outcome = Raise (Error "database error")
          /\ active_agents after = apply_scores (active_agents self) rows).
Proof.
  intros RT now self. cbv zeta. split; [|split].
  - intros rest H. exact (update_outcome_early_failure now self rest H).
  - intros done row todo rest Hrows Hc Hq Hf.
    rewrite List.forallb_app in Hc. apply andb_true_iff in Hc.
    destruct Hc as [Hdone Hrow]. simpl in Hrow. rewrite andb_true_r in Hrow.
    destruct (repeat_false_schedule (2 + updates_of done) (true :: rest))
      as [Hclean Hnext].
    rewrite <- Hf in Hclean, Hnext.
    destruct (update_outcome_prefix now self done (row :: todo) Hrows Hdone Hclean)
      as [self1 [Hout [Hag Hdb]]].
    rewrite Hnext in Hdb.
    destruct (row_computes_score row Hrow Hq) as [s Hs].
    assert (Hcut : update_performance_scores_outcome now self
                   = (with_db self1 (with_faults (db_conn self1) rest),
                      Raise (Error "database error"))).
    { rewrite Hout. simpl score_rows. unfold score_row. rewrite Hq, Hs.
      rewrite (db_op_fails _ _ rest) by (rewrite Hdb; reflexivity).
      reflexivity. }
    assert (Hafter : active_agents (_update_performance_scores now self)
                     = apply_scores (active_agents self) done).
    { unfold _update_performance_scores. rewrite Hcut. exact Hag. }
    split; [rewrite Hcut; reflexivity | split; [exact Hafter | split]].
    + intros k Hk. rewrite Hafter. apply apply_scores_not_named. exact Hk.
    + intros Hnd r a s0 Hin Hqr Hsr Hget. rewrite Hafter.
      apply apply_scores_row; assumption.
  - intros rest Hc Hf.
    destruct (repeat_false_schedule (2 + updates_of (trade_stats (db_conn self)))
                (true :: rest)) as [Hclean Hnext].
    rewrite <- Hf in Hclean, Hnext.
    destruct (update_outcome_prefix now self (trade_stats (db_conn self)) []
                (eq_sym (List.app_nil_r _)) Hc Hclean) as [self1 [Hout [Hag Hdb]]].
    rewrite Hnext in Hdb.
    assert (Hcut : update_performance_scores_outcome now self
                   = (with_db self1 (with_faults (db_conn self1) rest),
                      Raise (Error "database error"))).
    { rewrite Hout. simpl score_rows. unfold db_commit.
      rewrite (db_op_fails _ _ rest) by (rewrite Hdb; reflexivity).
      reflexivity. }
    unfold _update_performance_scores. rewrite Hcut. split; [reflexivity | exact Hag].
Qed.

Lemma C7_scoring_pass_is_partial_witness :
  let self := scoring_orchestrator [false; false; false; true] in
  let after := _update_performance_scores t0 self in
  snd (update_performance_scores_outcome t0 self) = Raise (Error "database error")
  /\ live_score self "technical" == 0.5
  /\ live_score after "technical" == 0.5015
  /\ get (active_agents after) "sentiment" = get (active_agents self) "sentiment".
Proof.
  cbv zeta.
  destruct (C7_scoring_pass_is_partial stub_runtime t0
              (scoring_orchestrator [false; false; false; true]))
    as [_ [Hupdate _]].
  destruct (Hupdate
              [ {| perf_agent_name := "technical"; perf_win_rate := Some (PyFloat 0.65);
                   perf_avg_pnl := Some (PyFloat 15.5);
                   perf_trade_count := Some 20%Z |} ]
              {| perf_agent_name := "sentiment"; perf_win_rate := Some (PyFloat 0.4);
                 perf_avg_pnl := Some (PyFloat 5); perf_trade_count := Some 12%Z |}
              [] [] eq_refl eq_refl eq_refl eq_refl)
    as [Hout [Hag [Hother Hnew]]].
  split; [exact Hout | split; [vm_compute; reflexivity | split]].
  - pose proof
      (Hnew (List.NoDup_cons _ (fun H : In _ [] => H) (List.NoDup_nil _))
         {| perf_agent_name := "technical"; perf_win_rate := Some (PyFloat 0.65);
            perf_avg_pnl := Some (PyFloat 15.5);
            perf_trade_count := Some 20%Z |}
         (stub_agent "technical" 0.5 (Return ("BUY"%string, 0.9)))
         (composite_score 0.65 15.5)
         (or_introl eq_refl) eq_refl eq_refl eq_refl) as H.
    cbn [perf_agent_name] in H. unfold live_score. rewrite H.
    vm_compute. reflexivity.
  - apply Hother. simpl. intros [H | []]. discriminate H.
Defined.

(** C7 fails as stated: the UPDATE of the second row fails, the pass is
    cut short, and the first agent's in-memory score has gone from 0.5 to
    0.5015 all the same, while the second agent's is still 0.5. *)
Lemma C7_partial_update_counterexample :
  let self := scoring_orchestrator [false; false; false; true] in
  let self' := _update_performance_scores t0 self in
  raises (snd (update_performance_scores_outcome t0 self)) = true
  /\ live_score self "technical" == 0.5
  /\ live_score self' "technical" == 0.5015
  /\ ~ live_score self' "technical" == live_score self "technical"
  /\ live_score self' "sentiment" == 0.5.
Proof.
  cbv zeta. repeat split; try (vm_compute; reflexivity).
  vm_compute. discriminate.
Qed.

(** * Further properties *)

(** ** Validator memory *)

Section ValidatorFacts.
Variable settings : Settings.
Variable now : Z.


Lemma validate_signal_cases (v : SignalValidator) (symbol : string) (signal : SignalDict) :
  validate_signal settings now v symbol signal = (false, v)
  \/ (validate_signal settings now v symbol signal = (true, _record_signal now v signal)
      /\ _validate_basic_structure signal = true
      /\ _validate_confidence settings signal = true
      /\ _validate_signal_frequency now v signal = true).
Proof.
  unfold validate_signal.
  destruct (_validate_basic_structure signal); simpl; [|left; reflexivity].
  destruct (_validate_confidence settings signal); simpl; [|left; reflexivity].
  rewrite market_conditions_pass. simpl.
  destruct (_validate_signal_frequency now v signal); simpl; [|left; reflexivity].
  right. repeat split; reflexivity.
Qed.

End ValidatorFacts.


(** X2: what an accepted signal is.  When [validate_signal] says yes, the
    signal has one of the three actions and a numeric confidence that is
    not below the threshold (the one comparison the code makes), and (the
    bound being at least 1) the newest
    entry of the memory is this signal, stamped [now], under its symbol or
    under "UNKNOWN" when it has none. *)
Theorem validate_signal_accepted :
  forall (settings : Settings) (now : Z) (v : SignalValidator) (symbol : string)
         (signal : SignalDict) (v' : SignalValidator),
    (1 <= max_signal_history v)%nat ->
    validate_signal settings now v symbol signal = (true, v') ->
    exists a act c,
      sd_action signal = Some a
      /\ action_of_string a = Some act
      /\ sd_confidence signal = Some c
      /\ ~ c < confidence_threshold settings
      /\ List.last (recent_signals v')
           {| r_symbol := None; r_action := ""; r_confidence := 0; r_timestamp := None |}
         = {| r_symbol := Some (match sd_symbol signal with
                                | Some s => s | None => "UNKNOWN"%string end);
              r_action := a; r_confidence := c; r_timestamp := Some now |}.
Proof.
  intros settings now v symbol signal v' Hmax Hv.
  destruct (validate_signal_cases settings now v symbol signal)
    as [H | [H [Hb [Hc _]]]]; rewrite H in Hv; [discriminate|].
  injection Hv as <-.
  unfold _validate_basic_structure in Hb. unfold _validate_confidence in Hc.
  destruct (sd_action signal) as [a|] eqn:Ha; [|discriminate].
  destruct (sd_confidence signal) as [c|] eqn:Hcf; [|discriminate].
  destruct (action_of_string a) as [act|] eqn:Hact; [|discriminate].
  exists a, act, c.
  split; [reflexivity | split; [exact Hact | split; [reflexivity | split]]].
  - apply negb_true_iff in Hc. intros Hlt.
    apply Qltb_lt in Hlt. congruence.
  - unfold _record_signal. simpl. rewrite Ha, Hcf.
    destruct (max_signal_history v <? _)%nat eqn:E.
    + destruct (recent_signals v) as [|x l] eqn:Hl.
      * simpl in E. apply Nat.ltb_lt in E. lia.
      * simpl. apply List.last_last.
    + apply List.last_last.
Qed.

(** ** Frequency check on a signal that has a symbol *)

Lemma validate_signal_frequency_rejects (settings : Settings) (now : Z)
    (v : SignalValidator) (symbol : string) (signal : SignalDict) :
  _validate_signal_frequency now v signal = false ->
  validate_signal settings now v symbol signal = (false, v).
Proof.
  intros Hf.
  destruct (validate_signal_cases settings now v symbol signal) as [H | [_ [_ [_ H]]]];
    [exact H | congruence].
Qed.

(** X3: the count limit works on a signal that has a [symbol] key: with
    three or more entries of that symbol among the last 20 of the memory,
    [validate_signal] says no and records nothing. *)
Theorem validate_signal_count_limit :
  forall (settings : Settings) (now : Z) (v : SignalValidator) (symbol x : string)
         (signal : SignalDict),
    sd_symbol signal = Some x ->
    (3 <= List.length
            (List.filter (fun s => opt_string_eqb (r_symbol s) (Some x))
               (last_n 20 (recent_signals v))))%nat ->
    validate_signal settings now v symbol signal = (false, v).
Proof.
  intros settings now v symbol x signal Hx Hcount.
  apply validate_signal_frequency_rejects.
  unfold _validate_signal_frequency. rewrite Hx.
  apply Nat.leb_le in Hcount. rewrite Hcount. reflexivity.
Qed.

Lemma validate_signal_count_limit_witness :
  sd_symbol eurusd_signal = Some "EURUSD"%string
  /\ (3 <= List.length
             (List.filter (fun s => opt_string_eqb (r_symbol s) (Some "EURUSD"%string))
                (last_n 20 (recent_signals busy_validator))))%nat
  /\ validate_signal demo_settings t0 busy_validator "EURUSD" eurusd_signal
     = (false, busy_validator).
Proof.
  assert (Hc : (3 <= List.length
                      (List.filter (fun s => opt_string_eqb (r_symbol s)
                                               (Some "EURUSD"%string))
                         (last_n 20 (recent_signals busy_validator))))%nat)
    by (vm_compute; lia).
  split; [reflexivity | split; [exact Hc |]].
  exact (validate_signal_count_limit demo_settings t0 busy_validator "EURUSD" "EURUSD"
           eurusd_signal eq_refl Hc).
Defined.

(** X4: the one-minute rule looks at the seconds field of the time
    difference only, so it wraps at midnight distance: when the newest
    entry of the memory is for the signal's symbol and was recorded a whole
    number of days plus less than 60 seconds before [now] (the number of
    days may be 0, or negative for an entry stamped in the future),
    [validate_signal] says no. *)
Theorem validate_signal_minute_rule_wraps :
  forall (settings : Settings) (now t k d : Z) (older : list SignalRecord)
         (entry : SignalRecord) (bound : nat) (symbol x : string) (signal : SignalDict),
    sd_symbol signal = Some x ->
    r_symbol entry = Some x ->
    r_timestamp entry = Some t ->
    (now = t + k * 86400000000 + d)%Z ->
    (0 <= d < 60000000)%Z ->
    let v := {| recent_signals := older ++ [entry]; max_signal_history := bound |} in
    validate_signal settings now v symbol signal = (false, v).
Proof.
  intros settings now t k d older entry bound symbol x signal Hx He Ht Hnow Hd v.
  apply validate_signal_frequency_rejects.
  unfold _validate_signal_frequency. rewrite Hx.
  destruct (3 <=? _)%nat; [reflexivity|].
  unfold v. simpl recent_signals. rewrite List.rev_app_distr. simpl.
  rewrite He. simpl. rewrite String.eqb_refl, Ht.
  assert (Hsec : (timedelta_seconds now t < 60)%Z).
  { unfold timedelta_seconds.
    replace (now - t)%Z with (d + (k * 86400) * 1000000)%Z by lia.
    rewrite Z.div_add by lia. rewrite Z_mod_plus_full.
    assert (0 <= d / 1000000 < 60)%Z.
    { split; [apply Z.div_pos; lia | apply Z.div_lt_upper_bound; lia]. }
    rewrite Z.mod_small; lia. }
  apply Z.ltb_lt in Hsec. rewrite Hsec. reflexivity.
Qed.

Lemma validate_signal_minute_rule_wraps_witness :
  validate_signal demo_settings t0 yesterday_validator "EURUSD" eurusd_signal
  = (false, yesterday_validator).
Proof.
  apply (validate_signal_minute_rule_wraps demo_settings t0 (t0 - 86430000000)%Z 1
           30000000 [] _ 100%nat "EURUSD"%string "EURUSD"%string eurusd_signal);
    try reflexivity; try (unfold t0; lia).
Defined.

(** ** Dictionaries *)

Lemma set_keys_present {V : Type} (d : Dict V) (k : string) (v v0 : V) :
  get d k = Some v0 -> List.map fst (set d k v) = List.map fst d.
Proof.
  induction d as [|[k1 v1] d IH]; simpl; [discriminate|].
  destruct (String.eqb_spec k1 k) as [->|Hne]; simpl; intros H.
  - reflexivity.
  - rewrite (IH H). reflexivity.
Qed.

Lemma in_set {V : Type} (d : Dict V) (k : string) (v : V) (k' : string) (v' : V) :
  In (k', v') (set d k v) -> (k', v') = (k, v) \/ In (k', v') d.
Proof.
  induction d as [|[k1 v1] d IH]; simpl.
  - intros [H | []]. left. symmetry. exact H.
  - destruct (String.eqb k1 k); simpl.
    + intros [H | H]; [left; symmetry; exact H | right; right; exact H].
    + intros [H | H]; [right; left; exact H |].
      destruct (IH H) as [H1 | H1]; [left; exact H1 | right; right; exact H1].
Qed.

(** ** Signal statistics *)

Lemma sum_counts_set (d : Dict nat) (k : string) (n : nat) :
  (sum_counts (set d k n) + count_of d k = sum_counts d + n)%nat.
Proof.
  unfold count_of. induction d as [|[k1 n1] d IH]; simpl.
  - lia.
  - destruct (String.eqb k1 k); simpl; lia.
Qed.

Lemma count_of_set (d : Dict nat) (k k' : string) (n : nat) :
  count_of (set d k n) k' = if String.eqb k k' then n else count_of d k'.
Proof.
  unfold count_of. destruct (String.eqb_spec k k') as [->|Hne].
  - rewrite get_set_same. reflexivity.
  - rewrite get_set_other by exact Hne. reflexivity.
Qed.

Lemma count_actions_fold (l : list SignalRecord) :
  forall acc,
    sum_counts (List.fold_left count_action l acc)
    = (sum_counts acc + List.length l)%nat
    /\ forall a,
         count_of (List.fold_left count_action l acc) a
         = (count_of acc a
            + List.length (List.filter (fun s => String.eqb (r_action s) a) l))%nat.
Proof.
  induction l as [|s l IH]; intros acc; simpl.
  - split; [lia | intros a; lia].
  - destruct (IH (count_action acc s)) as [Hsum Hcount]. split.
    + rewrite Hsum. unfold count_action.
      pose proof (sum_counts_set acc (r_action s) (count_of acc (r_action s) + 1)).
      unfold count_of in *. lia.
    + intros a. rewrite Hcount. unfold count_action.
      fold (count_of acc (r_action s)). rewrite count_of_set.
      destruct (String.eqb (r_action s) a) eqn:E; simpl; [|lia].
      apply String.eqb_eq in E. subst a. lia.
Qed.

(** X5: [get_signal_stats] on a memory whose entries all have a timestamp
    returns, never raises; [total_signals] is the number of entries; for a
    non-empty memory the per-action counts add up to that number and the
    count under each action is the number of entries with that action.
    For an empty memory the answer has no [actions] key. *)
Theorem get_signal_stats_counts :
  forall v : SignalValidator,
    (forall s, In s (recent_signals v) -> r_timestamp s <> None) ->
    exists st,
      get_signal_stats v = Return st
      /\ total_signals st = List.length (recent_signals v)
      /\ (recent_signals v = [] -> actions st = None /\ avg_confidence st = 0)
      /\ (recent_signals v <> [] ->
          exists acts,
            actions st = Some acts
            /\ sum_counts acts = total_signals st
            /\ forall a, count_of acts a
                         = List.length (List.filter (fun s => String.eqb (r_action s) a)
                                          (recent_signals v))).
Proof.
  intros v Hts. unfold get_signal_stats.
  destruct (recent_signals v) as [|first rest] eqn:Hmem.
  - eexists. split; [reflexivity|]. simpl. repeat split; congruence.
  - assert (H1 : r_timestamp first <> None) by (apply Hts; left; reflexivity).
    assert (H2 : r_timestamp (List.last (first :: rest) first) <> None).
    { destruct (@List.exists_last _ (first :: rest)) as [l [x Hl]]; [discriminate|].
      rewrite Hl, List.last_last. apply Hts. rewrite Hl.
      apply in_or_app. right. left. reflexivity. }
    unfold timestamp_of.
    destruct (r_timestamp first) as [t1|]; [|congruence].
    destruct (r_timestamp (List.last (first :: rest) first)) as [t2|]; [|congruence].
    eexists. split; [reflexivity|]. simpl total_signals. simpl actions.
    split; [reflexivity | split; [discriminate|]].
    intros _. eexists. split; [reflexivity|].
    destruct (count_actions_fold (first :: rest) []) as [Hsum Hcount].
    unfold count_actions. split; [exact Hsum | intros a; apply Hcount].
Qed.

Lemma get_signal_stats_counts_witness :
  (forall s, In s (recent_signals busy_validator) -> r_timestamp s <> None)
  /\ exists st,
       get_signal_stats busy_validator = Return st
       /\ total_signals st = 3%nat
       /\ exists acts, actions st = Some acts /\ count_of acts "BUY" = 3%nat.
Proof.
  assert (Hts : forall s, In s (recent_signals busy_validator) -> r_timestamp s <> None).
  { intros s [<- | [<- | [<- | []]]]; discriminate. }
  split; [exact Hts|].
  destruct (get_signal_stats_counts busy_validator Hts) as [st [Hst [Htot [_ Hacts]]]].
  exists st. split; [exact Hst | split; [exact Htot |]].
  destruct (Hacts ltac:(discriminate)) as [acts [Ha [_ Hc]]].
  exists acts. split; [exact Ha | rewrite Hc; reflexivity].
Defined.

(** ** The winner of a vote *)

Lemma Qgtb_false (x y : Q) : Qgtb x y = false -> x <= y.
Proof.
  unfold Qgtb. intros H. apply negb_false_iff in H.
  apply Qle_bool_iff. exact H.
Qed.

(** X6: [max(votes, key=votes.get)] returns an action whose vote no other
    vote exceeds, and breaks ties by the order BUY, SELL, HOLD: SELL wins
    only with strictly more than BUY, HOLD only with strictly more than
    both. *)
Theorem max_votes_argmax :
  forall v : Votes,
    (forall a, votes_get v a <= votes_get v (max_votes v))
    /\ (max_votes v = SELL -> votes_BUY v < votes_SELL v)
    /\ (max_votes v = HOLD -> votes_BUY v < votes_HOLD v /\ votes_SELL v < votes_HOLD v).
Proof.
  intros v. unfold max_votes. simpl.
  destruct (Qgtb (votes_SELL v) (votes_BUY v)) eqn:E1; simpl.
  - destruct (Qgtb (votes_HOLD v) (votes_SELL v)) eqn:E2; simpl;
      apply Qgtb_gt in E1;
      [apply Qgtb_gt in E2 | apply Qgtb_false in E2];
      (split; [intros [| |]; simpl; lra |]); split; intros H;
      try discriminate H; try split; lra.
  - destruct (Qgtb (votes_HOLD v) (votes_BUY v)) eqn:E2; simpl;
      apply Qgtb_false in E1;
      [apply Qgtb_gt in E2 | apply Qgtb_false in E2];
      (split; [intros [| |]; simpl; lra |]); split; intros H;
      try discriminate H; try split; lra.
Qed.

(** ** Decisions the vote skips, and decisions it cannot take *)

Section VoteEdgeFacts.
Context `{RT : Runtime}.
Variable agents : Dict Agent.

Lemma vote_loop_skips_strangers (ds : list Decision) :
  forall acc,
    vote_loop agents acc ds
    = vote_loop agents acc (List.filter (fun d => contains agents (d_agent d)) ds).
Proof.
  induction ds as [|d ds IH]; intros acc; simpl; [reflexivity|].
  unfold contains. destruct (get agents (d_agent d)) as [a|] eqn:Hg; simpl.
  - unfold vote_step. rewrite Hg.
    destruct (action_of_string (d_action d)); simpl; [apply IH | reflexivity].
  - unfold vote_step at 1. rewrite Hg. simpl. apply IH.
Qed.

Lemma vote_loop_app (ds1 ds2 : list Decision) :
  forall acc,
    vote_loop agents acc (ds1 ++ ds2)
    = (acc' <- vote_loop agents acc ds1 ;; vote_loop agents acc' ds2).
Proof.
  induction ds1 as [|d ds1 IH]; intros acc; simpl; [reflexivity|].
  destruct (vote_step agents acc d) as [acc1|e]; simpl; [apply IH | reflexivity].
Qed.

Lemma vote_loop_no_raise (ds : list Decision) :
  forall acc,
    (forall x, In x ds ->
       get agents (d_agent x) = None \/ action_of_string (d_action x) <> None) ->
    exists acc', vote_loop agents acc ds = Return acc'.
Proof.
  induction ds as [|d ds IH]; intros acc H; simpl; [eexists; reflexivity|].
  assert (Hstep : exists acc1, vote_step agents acc d = Return acc1).
  { unfold vote_step. destruct (H d (or_introl eq_refl)) as [Hn | Ha].
    - rewrite Hn. eexists; reflexivity.
    - destruct (get agents (d_agent d)); [|eexists; reflexivity].
      destruct (action_of_string (d_action d)); [eexists; reflexivity | congruence]. }
  destruct Hstep as [acc1 ->]. simpl. apply IH.
  intros x Hx. apply H. right. exact Hx.
Qed.

End VoteEdgeFacts.

(** X7: [_weighted_vote] skips every decision whose agent name is not in
    the live map: the result is that of the vote over the other
    decisions. *)
Theorem weighted_vote_skips_strangers :
  forall (RT : Runtime) (self : AIOrchestrator) (ds : list Decision),
    _weighted_vote self ds
    = _weighted_vote self
        (List.filter (fun d => contains (active_agents self) (d_agent d)) ds).
Proof.
  intros RT self ds. unfold _weighted_vote.
  rewrite (vote_loop_skips_strangers (active_agents self) ds). reflexivity.
Qed.

(** X8: a decision of a live agent whose action is not BUY, SELL or HOLD
    makes [_weighted_vote] raise [KeyError] with that action as key,
    provided no earlier decision did so already. *)
Theorem weighted_vote_key_error :
  forall (RT : Runtime) (self : AIOrchestrator) (ds1 ds2 : list Decision) (d : Decision),
    (forall x, In x ds1 ->
       get (active_agents self) (d_agent x) = None
       \/ action_of_string (d_action x) <> None) ->
    get (active_agents self) (d_agent d) <> None ->
    action_of_string (d_action d) = None ->
    _weighted_vote self (ds1 ++ d :: ds2) = Raise (KeyError (d_action d)).
Proof.
  intros RT self ds1 ds2 d Hok Hlive Hact. unfold _weighted_vote.
  rewrite vote_loop_app.
  destruct (vote_loop_no_raise (active_agents self) ds1 vote_init Hok) as [acc ->].
  simpl. unfold vote_step.
  destruct (get (active_agents self) (d_agent d)); [|congruence].
  rewrite Hact. reflexivity.
Qed.

Lemma weighted_vote_key_error_witness :
  _weighted_vote scenario_A (decisions_A ++ strong_buy_decision :: decisions_A)
  = Raise (KeyError "STRONG_BUY").
Proof.
  apply (weighted_vote_key_error stub_runtime scenario_A decisions_A decisions_A
           strong_buy_decision).
  - intros x [<- | [<- | []]]; right; discriminate.
  - discriminate.
  - reflexivity.
Defined.

(** ** The confidence of a vote *)

(** X9: the confidence [_weighted_vote] reports is computed from the
    confidences of the decisions alone, in their order; the agents'
    weights and the actions have no part in it.  So two votes over valid
    decisions with the same confidences in the same order report the same
    confidence, whatever orchestrators, weights and actions they have
    (the lists being non-empty). *)
Theorem weighted_vote_confidence_ignores_weights :
  forall (RT : Runtime) (self1 self2 : AIOrchestrator) (ds1 ds2 : list Decision),
    ds1 <> [] ->
    List.Forall (valid_decision (active_agents self1)) ds1 ->
    List.Forall (valid_decision (active_agents self2)) ds2 ->
    List.map d_confidence ds1 = List.map d_confidence ds2 ->
    exists sig1 sig2,
      _weighted_vote self1 ds1 = Return sig1
      /\ _weighted_vote self2 ds2 = Return sig2
      /\ confidence sig1 = confidence sig2.
Proof.
  intros RT self1 self2 ds1 ds2 _ Hv1 Hv2 Hsame.
  destruct (vote_loop_valid (active_agents self1) ds1 vote_init Hv1)
    as [acc1 [Hloop1 [_ [_ Hconf1]]]].
  destruct (vote_loop_valid (active_agents self2) ds2 vote_init Hv2)
    as [acc2 [Hloop2 [_ [_ Hconf2]]]].
  simpl in Hconf1, Hconf2. unfold _weighted_vote. rewrite Hloop1, Hloop2. simpl.
  do 2 eexists. split; [reflexivity | split; [reflexivity|]]. simpl.
  rewrite Hconf1, Hconf2, Hsame. reflexivity.
Qed.

Lemma weighted_vote_confidence_ignores_weights_witness :
  exists sig1 sig2,
    _weighted_vote scenario_A decisions_A = Return sig1
    /\ _weighted_vote scenario_A_reweighted decisions_A_swapped = Return sig2
    /\ confidence sig1 = confidence sig2
    /\ ~ votes_BUY (votes sig1) == votes_BUY (votes sig2).
Proof.
  destruct (weighted_vote_confidence_ignores_weights stub_runtime
              scenario_A scenario_A_reweighted decisions_A decisions_A_swapped
              ltac:(discriminate) scenario_A_valid) as [sig1 [sig2 [H1 [H2 Hc]]]].
  - repeat constructor; simpl; discriminate.
  - reflexivity.
  - exists sig1, sig2. split; [exact H1 | split; [exact H2 | split; [exact Hc|]]].
    vm_compute in H1, H2. injection H1 as <-. injection H2 as <-.
    vm_compute. discriminate.
Defined.


Lemma validate_signal_accepted_witness :
  exists v',
    validate_signal demo_settings t0 new_SignalValidator "EURUSD" eurusd_signal
    = (true, v')
    /\ List.last (recent_signals v')
         {| r_symbol := None; r_action := ""; r_confidence := 0; r_timestamp := None |}
       = {| r_symbol := Some "EURUSD"%string; r_action := "BUY"; r_confidence := 0.9;
            r_timestamp := Some t0 |}.
Proof.
  eexists. split; [reflexivity|].
  destruct (validate_signal_accepted demo_settings t0 new_SignalValidator "EURUSD"
              eurusd_signal _ ltac:(simpl; lia) eq_refl)
    as [a [act [c [Ha [_ [Hc [_ Hlast]]]]]]].
  simpl in Ha, Hc. injection Ha as <-. injection Hc as <-. exact Hlast.
Defined.

Lemma max_votes_argmax_witness :
  max_votes split_votes = SELL /\ votes_BUY split_votes < votes_SELL split_votes.
Proof.
  split; [reflexivity|].
  exact (proj1 (proj2 (max_votes_argmax split_votes)) eq_refl).
Defined.

(** ** A vote in which nothing counts *)

Lemma weighted_confidence_for_zero `{RT : Runtime} (agents : Dict Agent) (a : Action)
    (ds : list Decision) :
  (forall d, In d ds -> weight_of agents d * d_confidence d == 0) ->
  weighted_confidence_for agents a ds == 0.
Proof.
  unfold weighted_confidence_for. induction ds as [|d ds IH]; intros H; simpl.
  - reflexivity.
  - rewrite (IH (fun x Hx => H x (or_intror Hx))).
    pose proof (H d (or_introl eq_refl)) as Hd.
    destruct (action_of_string (d_action d)) as [b|]; [|ring].
    destruct (action_eqb b a); [rewrite Hd|]; ring.
Qed.

Lemma max_votes_all_zero (v : Votes) :
  (forall a, votes_get v a == 0) -> max_votes v = BUY.
Proof.
  intros H. unfold max_votes. simpl.
  pose proof (H BUY) as Hb. pose proof (H SELL) as Hs. pose proof (H HOLD) as Hh.
  simpl in Hb, Hs, Hh.
  destruct (Qgtb (votes_SELL v) (votes_BUY v)) eqn:E1.
  - apply Qgtb_gt in E1. lra.
  - simpl. destruct (Qgtb (votes_HOLD v) (votes_BUY v)) eqn:E2; [|reflexivity].
    apply Qgtb_gt in E2. lra.
Qed.

(** X10: when no decision carries weight times confidence other than 0
    (all weights 0, or all confidences 0 as with the error decisions of
    [predict]), the three votes are 0 and [_weighted_vote] names BUY the
    winner: the tie goes to the first key, not to HOLD. *)
Theorem weighted_vote_all_zero_is_buy :
  forall (RT : Runtime) (self : AIOrchestrator) (ds : list Decision),
    List.Forall (valid_decision (active_agents self)) ds ->
    (forall d, In d ds -> weight_of (active_agents self) d * d_confidence d == 0) ->
    exists sig,
      _weighted_vote self ds = Return sig
      /\ (forall a, votes_get (votes sig) a == 0)
      /\ action sig = BUY.
Proof.
  intros RT self ds Hvalid Hzero.
  destruct (vote_loop_valid (active_agents self) ds vote_init Hvalid)
    as [acc [Hloop [Hv _]]].
  unfold _weighted_vote. rewrite Hloop. simpl.
  eexists. split; [reflexivity|]. simpl.
  assert (Hacc : forall a, votes_get (acc_votes acc) a == 0).
  { intros a. rewrite (Hv a), (weighted_confidence_for_zero _ a ds Hzero).
    destruct a; simpl; ring. }
  assert (Hall : forall a,
             votes_get (if Qgtb (acc_total_weight acc) 0
                        then normalize (acc_votes acc) (acc_total_weight acc)
                        else acc_votes acc) a == 0).
  { intros a. destruct (Qgtb (acc_total_weight acc) 0); [|apply Hacc].
    rewrite votes_get_normalize, (Hacc a). unfold Qdiv. ring. }
  split; [exact Hall | apply max_votes_all_zero; exact Hall].
Qed.

Lemma error_decisions_A_valid :
  List.Forall (valid_decision (active_agents scenario_A)) error_decisions_A.
Proof. repeat constructor; simpl; discriminate. Qed.

Lemma weighted_vote_all_zero_is_buy_witness :
  exists sig,
    _weighted_vote scenario_A error_decisions_A = Return sig
    /\ votes_get (votes sig) HOLD == 0
    /\ action sig = BUY.
Proof.
  destruct (weighted_vote_all_zero_is_buy stub_runtime scenario_A error_decisions_A
              error_decisions_A_valid) as [sig [Hcall [Hz Ha]]].
  - intros d [<- | [<- | []]]; vm_compute; reflexivity.
  - exists sig. split; [exact Hcall | split; [apply Hz | exact Ha]].
Defined.

(** ** What a returned signal tells *)

Section ReturnedFacts.
Context `{RT : Runtime}.
Variable settings : Settings.
Variable now : Z.

Lemma gates_result_cases (v : SignalValidator) (symbol : string) (voted : EnsembleSignal) :
  (action (fst (validation_gate settings now v symbol (confidence_gate settings voted)))
   = HOLD
   /\ (action voted <> HOLD ->
       snd (validation_gate settings now v symbol (confidence_gate settings voted)) = v))
  \/ (validation_gate settings now v symbol (confidence_gate settings voted)
      = (voted, _record_signal now v (signal_dict voted))
      /\ Qltb (confidence voted) (confidence_threshold settings) = false
      /\ _validate_signal_frequency now v (signal_dict voted) = true).
Proof.
  destruct (Qltb (confidence voted) (confidence_threshold settings)) eqn:Hlow.
  - left. rewrite (gates_below_threshold settings now v symbol voted Hlow).
    split; reflexivity.
  - rewrite (gates_at_threshold settings now v symbol voted Hlow).
    destruct (_validate_signal_frequency now v (signal_dict voted)).
    + right. repeat split; reflexivity.
    + left. split; reflexivity.
Qed.

End ReturnedFacts.

(** X11: a signal that [get_ensemble_signal] returns with an action other
    than HOLD is the vote's result as it stands: its confidence is not
    below the threshold, the frequency check let it through, and it has
    just been
    written into the validator's memory.  BUY and SELL never come out of
    the early returns or past a gate that fired. *)
Theorem non_hold_signal_was_validated :
  forall (RT : Runtime) (settings : Settings) (now : Z) (self self' : AIOrchestrator)
         (symbol : string) (market : Market) (sig : EnsembleSignal),
    get_ensemble_signal settings now self symbol market = (self', Return sig) ->
    action sig <> HOLD ->
    vote_stage self symbol market = Some (Return sig)
    /\ ~ confidence sig < confidence_threshold settings
    /\ _validate_signal_frequency now (signal_validator self) (signal_dict sig) = true
    /\ signal_validator self'
       = _record_signal now (signal_validator self) (signal_dict sig).
Proof.
  intros RT settings now self self' symbol market sig Hcall Hact.
  destruct (vote_stage self symbol market) as [[voted|e]|] eqn:Hstage.
  - destruct (get_ensemble_signal_after_vote settings now self symbol market voted Hstage)
      as [s1 [Heq Hval]].
    rewrite Heq in Hcall. injection Hcall as Hs Hsig. subst s1.
    destruct (gates_result_cases settings now (signal_validator self) symbol voted)
      as [[Hhold _] | [Hg [Hlow Hfreq]]].
    + rewrite Hsig in Hhold. contradiction.
    + rewrite Hg in Hsig, Hval. simpl in Hsig, Hval. subst voted.
      split; [reflexivity | split; [| split; [exact Hfreq | exact Hval]]].
      intros Hlt. apply Qltb_lt in Hlt. congruence.
  - pose proof (get_ensemble_signal_vote_raises settings now self symbol market e Hstage)
      as Hr.
    rewrite Hcall in Hr. discriminate Hr.
  - destruct (get_ensemble_signal_early settings now self symbol market Hstage)
      as [s1 [why [Heq _]]].
    rewrite Heq in Hcall. injection Hcall as _ Hsig. subst sig. simpl in Hact.
    contradiction.
Qed.

Lemma non_hold_signal_was_validated_witness :
  let r := get_ensemble_signal demo_settings t0 (confident_orchestrator []) "EURUSD" tt in
  action (returned r) = BUY
  /\ ~ confidence (returned r) < confidence_threshold demo_settings
  /\ List.length (recent_signals (signal_validator (fst r))) = 1%nat.
Proof.
  cbv zeta.
  assert (Hcall : get_ensemble_signal demo_settings t0 (confident_orchestrator [])
                    "EURUSD" tt
                  = (fst (get_ensemble_signal demo_settings t0 (confident_orchestrator [])
                            "EURUSD" tt),
                     Return (returned (get_ensemble_signal demo_settings t0
                                         (confident_orchestrator []) "EURUSD" tt))))
    by (vm_compute; reflexivity).
  assert (Hact : action (returned (get_ensemble_signal demo_settings t0
                                     (confident_orchestrator []) "EURUSD" tt)) = BUY)
    by (vm_compute; reflexivity).
  destruct (non_hold_signal_was_validated stub_runtime demo_settings t0 _ _
              "EURUSD"%string tt _ Hcall
              ltac:(rewrite Hact; discriminate)) as [_ [Hconf [_ Hmem]]].
  split; [exact Hact | split; [exact Hconf |]].
  rewrite Hmem. reflexivity.
Defined.

(** ** The live map through an ensemble call *)

Section LiveMapFacts.
Context `{RT : Runtime}.

Lemma predict_identity (a : Agent) (data : Data) :
  identity (fst (predict a data)) = identity a.
Proof.
  unfold predict, load_model.
  destruct (model a); [reflexivity|].
  destruct (ModelLoader_load_model (model_path a)); reflexivity.
Qed.

Lemma predict_loaded (a : Agent) (data : Data) :
  model a <> None -> predict a data = (a, Return (predict_guarded a data)).
Proof. unfold predict. destruct (model a); [reflexivity | congruence]. Qed.

Lemma predict_unloadable (a : Agent) (data : Data) :
  model a = None -> raises (ModelLoader_load_model (model_path a)) = true ->
  fst (predict a data) = a /\ raises (snd (predict a data)) = true.
Proof.
  unfold predict, load_model. intros -> H.
  destruct (ModelLoader_load_model (model_path a)); [discriminate | split; reflexivity].
Qed.

Lemma run_agents_identity (agents : Dict Agent) (data : Data) :
  List.map (fun kv => (fst kv, identity (snd kv))) (fst (run_agents agents data))
  = List.map (fun kv => (fst kv, identity (snd kv))) agents.
Proof.
  unfold run_agents. simpl. rewrite !List.map_map. simpl.
  apply List.map_ext. intros [k a]. simpl. rewrite predict_identity. reflexivity.
Qed.

Lemma run_agents_loaded (agents : Dict Agent) (data : Data) :
  all_loaded agents ->
  run_agents agents data
  = (agents, List.map (fun kv => Return (predict_guarded (snd kv) data)) agents).
Proof.
  intros Hall. unfold run_agents. rewrite !List.map_map. simpl. f_equal.
  - rewrite <- (List.map_id agents) at 2. apply List.map_ext_in.
    intros [k a] Hin. simpl. rewrite (predict_loaded a data (Hall k a Hin)). reflexivity.
  - apply List.map_ext_in. intros [k a] Hin. simpl.
    rewrite (predict_loaded a data (Hall k a Hin)). reflexivity.
Qed.

Lemma run_agents_unloadable (agents : Dict Agent) (data : Data) :
  (forall k a, In (k, a) agents ->
     model a = None /\ raises (ModelLoader_load_model (model_path a)) = true) ->
  fst (run_agents agents data) = agents
  /\ valid_results_of (snd (run_agents agents data)) = [].
Proof.
  intros H. unfold run_agents. simpl. rewrite !List.map_map. simpl. split.
  - rewrite <- (List.map_id agents) at 2. apply List.map_ext_in.
    intros [k a] Hin. simpl. destruct (H k a Hin) as [Hm Hl].
    rewrite (proj1 (predict_unloadable a data Hm Hl)). reflexivity.
  - induction agents as [|[k a] agents IH]; simpl; [reflexivity|].
    destruct (H k a (or_introl eq_refl)) as [Hm Hl].
    pose proof (proj2 (predict_unloadable a data Hm Hl)) as Hr.
    destruct (snd (predict a data)); [discriminate|].
    apply IH. intros k' a' Hin. apply (H k' a'). right. exact Hin.
Qed.

Lemma valid_results_of_returns (ds : list Decision) :
  valid_results_of (List.map Return ds) = ds.
Proof. induction ds as [|d ds IH]; simpl; [reflexivity | rewrite IH; reflexivity]. Qed.

Lemma with_agents_same (self : AIOrchestrator) :
  with_agents self (active_agents self) = self.
Proof. destruct self; reflexivity. Qed.

Lemma log_signal_tables (now : Z) (self : AIOrchestrator) (symbol : string)
    (er : EnsembleSignal) (ds : list Decision) :
  model_registry (db_conn (_log_signal now self symbol er ds))
  = model_registry (db_conn self)
  /\ trade_stats (db_conn (_log_signal now self symbol er ds))
     = trade_stats (db_conn self).
Proof.
  unfold _log_signal, db_cursor, db_op.
  destruct (faults (db_conn self)) as [|[|] rest]; simpl; split; reflexivity.
Qed.

End LiveMapFacts.

(** X12: an ensemble call changes nothing of a live agent but, possibly,
    its loaded model: afterwards the live map has the same names in the
    same order, each with the model path, version and performance score it
    had, whether the call returned or raised. *)
Theorem get_ensemble_signal_keeps_agents :
  forall (RT : Runtime) (settings : Settings) (now : Z) (self : AIOrchestrator)
         (symbol : string) (market : Market),
    List.map (fun kv => (fst kv, identity (snd kv)))
      (active_agents (fst (get_ensemble_signal settings now self symbol market)))
    = List.map (fun kv => (fst kv, identity (snd kv))) (active_agents self).
Proof.
  intros RT settings now self symbol market. unfold get_ensemble_signal.
  destruct (active_agents self) as [|kv rest] eqn:Hag; [simpl; rewrite Hag; reflexivity|].
  pose proof (run_agents_identity (kv :: rest) (make_data symbol market)) as Hid.
  destruct (run_agents (kv :: rest) (make_data symbol market)) as [agents' results].
  simpl in Hid.
  destruct (valid_results_of results) as [|d ds]; [exact Hid|].
  destruct (_weighted_vote (with_agents self agents') (d :: ds)) as [voted|e];
    [|exact Hid].
  destruct (validation_gate _ _ _ _ _) as [er v'].
  simpl. rewrite (proj2 (log_signal_frame now _ symbol er (d :: ds))). exact Hid.
Qed.

(** X13: no ensemble call writes a row: the audit table, the registry and
    the trade aggregates of the connection are the same after the call.
    The INSERT of [_log_signal] is never reached, because the dictionary
    given to [json.dumps] holds a [datetime]. *)
Theorem get_ensemble_signal_writes_nothing :
  forall (RT : Runtime) (settings : Settings) (now : Z) (self : AIOrchestrator)
         (symbol : string) (market : Market),
    let db' := db_conn (fst (get_ensemble_signal settings now self symbol market)) in
    ai_performance db' = ai_performance (db_conn self)
    /\ model_registry db' = model_registry (db_conn self)
    /\ trade_stats db' = trade_stats (db_conn self).
Proof.
  intros RT settings now self symbol market. cbv zeta. unfold get_ensemble_signal.
  destruct (active_agents self) as [|kv rest]; [repeat split; reflexivity|].
  destruct (run_agents (kv :: rest) (make_data symbol market)) as [agents' results].
  destruct (valid_results_of results) as [|d ds]; [repeat split; reflexivity|].
  destruct (_weighted_vote (with_agents self agents') (d :: ds)) as [voted|e];
    [|repeat split; reflexivity].
  destruct (validation_gate _ _ _ _ _) as [er v']. simpl.
  rewrite log_signal_audit_unchanged.
  destruct (log_signal_tables now (with_validator (with_agents self agents') v') symbol er
              (d :: ds)) as [Hr Ht].
  rewrite Hr, Ht. repeat split; reflexivity.
Qed.

(** X14: when every live agent has its model loaded, each of them
    contributes one decision to the call, its own or the error decision
    HOLD, and no agent is altered; what the call gives is then decided by
    the vote over these decisions: its exception is raised with the
    orchestrator left as it was, its result goes through the two gates. *)
Theorem get_ensemble_signal_all_loaded :
  forall (RT : Runtime) (settings : Settings) (now : Z) (self : AIOrchestrator)
         (symbol : string) (market : Market),
    active_agents self <> [] ->
    all_loaded (active_agents self) ->
    let ds := List.map (fun kv => predict_guarded (snd kv) (make_data symbol market))
                (active_agents self) in
    let r := get_ensemble_signal settings now self symbol market in
    active_agents (fst r) = active_agents self
    /\ match _weighted_vote self ds with
       | Raise e => r = (self, Raise e)
       | Return voted =>
           snd r = Return (fst (validation_gate settings now (signal_validator self)
                                  symbol (confidence_gate settings voted)))
       end.
Proof.
  intros RT settings now self symbol market Hne Hall. cbv zeta.
  unfold get_ensemble_signal.
  rewrite (run_agents_loaded (active_agents self) (make_data symbol market) Hall).
  destruct (active_agents self) as [|kv rest] eqn:Hag; [congruence|].
  rewrite <- Hag.
  rewrite <- (List.map_map (fun kv => predict_guarded (snd kv) (make_data symbol market))
                Return).
  rewrite valid_results_of_returns, with_agents_same.
  destruct (List.map (fun kv => predict_guarded (snd kv) (make_data symbol market))
              (active_agents self)) as [|d ds] eqn:Hds.
  { rewrite Hag in Hds. discriminate Hds. }
  destruct (_weighted_vote self (d :: ds)) as [voted|e].
  - destruct (validation_gate settings now (signal_validator self) symbol
                (confidence_gate settings voted)) as [er v'] eqn:Hg.
    simpl. split; [|reflexivity].
    rewrite (proj2 (log_signal_frame now _ symbol er (d :: ds))). reflexivity.
  - split; reflexivity.
Qed.

Lemma get_ensemble_signal_all_loaded_witness :
  active_agents eager_orchestrator <> []
  /\ all_loaded (active_agents eager_orchestrator)
  /\ get_ensemble_signal demo_settings t0 eager_orchestrator "EURUSD" tt
     = (eager_orchestrator, Raise (KeyError "STRONG_BUY")).
Proof.
  assert (Hne : active_agents eager_orchestrator <> []) by discriminate.
  assert (Hall : all_loaded (active_agents eager_orchestrator)).
  { intros k a [H | []]. injection H as _ <-. discriminate. }
  split; [exact Hne | split; [exact Hall |]].
  exact (proj2 (get_ensemble_signal_all_loaded stub_runtime demo_settings t0
                  eager_orchestrator "EURUSD"%string tt Hne Hall)).
Defined.

(** X15: when no live agent has its model loaded and none of the model
    files loads, every prediction raises, the call gives HOLD with
    confidence 0 and the reason "No valid agent predictions", and the
    orchestrator is as before. *)
Theorem get_ensemble_signal_no_model_loads :
  forall (RT : Runtime) (settings : Settings) (now : Z) (self : AIOrchestrator)
         (symbol : string) (market : Market),
    active_agents self <> [] ->
    (forall k a, In (k, a) (active_agents self) ->
       model a = None /\ raises (ModelLoader_load_model (model_path a)) = true) ->
    get_ensemble_signal settings now self symbol market
    = (self, Return {| action := HOLD; confidence := 0;
                       reason := "No valid agent predictions";
                       votes := zero_votes |}).
Proof.
  intros RT settings now self symbol market Hne Hbad. unfold get_ensemble_signal.
  destruct (run_agents_unloadable (active_agents self) (make_data symbol market) Hbad)
    as [Hag Hvalid].
  destruct (active_agents self) as [|kv rest] eqn:Hlive; [congruence|].
  destruct (run_agents (kv :: rest) (make_data symbol market)) as [agents' results].
  simpl in Hag, Hvalid. rewrite Hvalid. subst agents'.
  rewrite <- Hlive, with_agents_same. reflexivity.
Qed.

Lemma get_ensemble_signal_no_model_loads_witness :
  get_ensemble_signal demo_settings t0 unloadable_orchestrator "EURUSD" tt
  = (unloadable_orchestrator,
     Return {| action := HOLD; confidence := 0;
               reason := "No valid agent predictions"; votes := zero_votes |}).
Proof.
  apply (get_ensemble_signal_no_model_loads stub_runtime demo_settings t0
           unloadable_orchestrator "EURUSD"%string tt).
  - discriminate.
  - intros k a [H | [H | []]]; injection H as _ <-; split; reflexivity.
Defined.

(** ** The composite score *)

(** X16: the composite score always lies between 0 and 1.  For a win rate
    between 0 and 1 and an average pnl that is not negative nothing is
    clipped away: the score is 0.7 times the win rate plus 0.3 times the
    smaller of pnl/100 and 1.  The pnl term has no lower limit of its own:
    an average pnl of -234 or less brings the score to 0 whatever the win
    rate up to 1. *)
Theorem composite_score_range :
  forall win_rate avg_pnl : Q,
    (0 <= composite_score win_rate avg_pnl /\ composite_score win_rate avg_pnl <= 1)
    /\ (0 <= win_rate -> win_rate <= 1 -> 0 <= avg_pnl ->
        composite_score win_rate avg_pnl
        == win_rate * 0.7 + Qmin (avg_pnl / 100) 1 * 0.3)
    /\ (win_rate <= 1 -> avg_pnl <= -234 -> composite_score win_rate avg_pnl == 0).
Proof.
  intros w p. unfold composite_score.
  set (x := w * 0.7 + Qmin (p / 100) 1 * 0.3).
  assert (Hp : p / 100 == p * (1 # 100)) by (unfold Qdiv; reflexivity).
  destruct (Q.min_spec (p / 100) 1) as [[Hm1 Hm2] | [Hm1 Hm2]];
  destruct (Q.min_spec 1 x) as [[Hx1 Hx2] | [Hx1 Hx2]];
  destruct (Q.max_spec 0 (Qmin 1 x)) as [[Hy1 Hy2] | [Hy1 Hy2]];
    (split; [split; lra |]); split; intros; subst x; try lra.
Qed.

Lemma composite_score_range_witness :
  composite_score 0.65 15.5 == 0.5015 /\ composite_score 1 (-300) == 0.
Proof.
  split.
  - rewrite (proj1 (proj2 (composite_score_range 0.65 15.5)))
      by (vm_compute; discriminate).
    vm_compute. reflexivity.
  - apply (proj2 (proj2 (composite_score_range 1 (-300)))); vm_compute; discriminate.
Defined.

(** ** A scoring pass on a connection without failures *)

Section ScoringMoreFacts.
Context `{RT : Runtime}.
Variable now : Z.

Lemma db_op_no_faults (effect : DB -> DB) (db : DB) :
  faults db = [] -> db_op effect db = (effect db, Return tt).
Proof. unfold db_op. intros ->. reflexivity. Qed.

Lemma sql_update_score_faults (s : Q) (n : string) (db : DB) :
  faults (sql_update_score now s n db) = faults db.
Proof. reflexivity. Qed.

Lemma apply_registry_faults (rows : list PerfRow) :
  forall db, faults (apply_registry now rows db) = faults db.
Proof.
  unfold apply_registry. induction rows as [|row rows IH]; intros db; simpl;
    [reflexivity|].
  rewrite IH. destruct (row_qualifies row); [|reflexivity].
  destruct (row_performance_score row); reflexivity.
Qed.

Lemma with_faults_nil (db : DB) : faults db = [] -> with_faults db [] = db.
Proof. intros H. rewrite <- H. apply with_faults_same. Qed.

(** Without faults the loop applies every row whose score computes, to
    the live map and to the registry. *)
Lemma update_no_faults_prefix (self : AIOrchestrator) (done todo : list PerfRow) :
  faults (db_conn self) = [] ->
  trade_stats (db_conn self) = done ++ todo ->
  List.forallb row_computes done = true ->
  exists self1,
    update_performance_scores_outcome now self
    = (let (self', r) := score_rows now self1 todo in
       match r with
       | Raise e => (self', Raise e)
       | Return _ =>
           let (db3, committed) := db_commit (db_conn self') in
           (with_db self' db3, committed)
       end)
    /\ active_agents self1 = apply_scores (active_agents self) done
    /\ db_conn self1 = apply_registry now done (db_conn self).
Proof.
  intros Hf Hrows Hc.
  destruct (update_outcome_prefix now self done todo Hrows Hc)
    as [self1 [Hout [Hag Hdb]]].
  { rewrite Hf. reflexivity. }
  exists self1. split; [exact Hout | split; [exact Hag|]].
  rewrite Hdb, Hf. simpl List.skipn.
  apply with_faults_nil. rewrite apply_registry_faults. exact Hf.
Qed.

Lemma sql_update_score_sets (s : Q) (n : string) (db : DB) :
  scored_as now n s (sql_update_score now s n db).
Proof.
  intros r Hin Hn. unfold sql_update_score in Hin. simpl in Hin.
  apply List.in_map_iff in Hin. destruct Hin as [r0 [Hr Hin0]].
  destruct (String.eqb_spec (reg_agent_name r0) n) as [He|Hne].
  - subst r. simpl. split; reflexivity.
  - subst r. contradiction.
Qed.

Lemma sql_update_score_keeps (s s' : Q) (n n' : string) (db : DB) :
  n' <> n -> scored_as now n s db -> scored_as now n s (sql_update_score now s' n' db).
Proof.
  intros Hne Hdb r Hin Hn. unfold sql_update_score in Hin. simpl in Hin.
  apply List.in_map_iff in Hin. destruct Hin as [r0 [Hr Hin0]].
  destruct (String.eqb_spec (reg_agent_name r0) n') as [He|Hne0].
  - subst r. simpl in Hn. congruence.
  - subst r. apply Hdb; assumption.
Qed.

Lemma apply_registry_keeps (rows : list PerfRow) :
  forall db n s,
    ~ In n (List.map perf_agent_name rows) ->
    scored_as now n s db -> scored_as now n s (apply_registry now rows db).
Proof.
  unfold apply_registry.
  induction rows as [|r rows IH]; intros db n s Hn Hdb; [exact Hdb|].
  simpl in *. apply IH; [tauto|].
  destruct (row_qualifies r); [|exact Hdb].
  destruct (row_performance_score r) as [s'|e]; [|exact Hdb].
  apply sql_update_score_keeps; [tauto | exact Hdb].
Qed.

Lemma apply_registry_row (rows : list PerfRow) :
  forall db row s,
    List.NoDup (List.map perf_agent_name rows) ->
    In row rows ->
    row_qualifies row = true ->
    row_performance_score row = Return s ->
    scored_as now (perf_agent_name row) s (apply_registry now rows db).
Proof.
  induction rows as [|r rows IH]; intros db row s Hnd Hin Hq Hs; [contradiction|].
  simpl in Hnd. inversion Hnd as [|x l Hnotin Hnd']; subst.
  destruct Hin as [-> | Hin].
  - unfold apply_registry. simpl. rewrite Hq, Hs.
    apply (apply_registry_keeps rows _ _ _ Hnotin). apply sql_update_score_sets.
  - unfold apply_registry. simpl. apply IH; assumption.
Qed.

(** A win rate that is a [Decimal] other than zero cannot be multiplied
    by 0.7. *)
Lemma decimal_win_rate_raises (row : PerfRow) (w : Q) :
  perf_win_rate row = Some (PyDecimal w) -> ~ w == 0 ->
  row_performance_score row
  = Raise (TypeError
             "unsupported operand type(s) for *: 'decimal.Decimal' and 'float'").
Proof.
  intros Hw Hnz. unfold row_performance_score, or_float_zero. rewrite Hw. simpl.
  destruct (Qeq_bool w 0) eqn:E; [|reflexivity].
  apply Qeq_bool_iff in E. contradiction.
Qed.

End ScoringMoreFacts.

(** X17: a scoring pass on a connection without failures.  When the score
    of every row with at least 10 trades computes (the aggregates are
    floats), memory and registry end up in step: for every such row (the
    rows having distinct agent names, as GROUP BY gives them) the live
    agent of that name, if there is one, carries the row's score, and
    every registry row of that name carries the same score and the time
    of the pass.  When a row with at least 10 trades has a win rate that
    is a [Decimal] other than zero, which is what the AVG over the
    literals 1.0 and 0.0 gives for an agent with a winning trade, the
    pass ends there with TypeError: the rows before it have been applied
    to memory and registry, this row and the rows after it have not. *)
Theorem scoring_pass_without_faults :
  forall (RT : Runtime) (now : Z) (self : AIOrchestrator),
    faults (db_conn self) = [] ->
    let rows := trade_stats (db_conn self) in
    let outcome := snd (update_performance_scores_outcome now self) in
    let after := _update_performance_scores now self in
    (List.forallb row_computes rows = true ->
     List.NoDup (List.map perf_agent_name rows) ->
     outcome = Return tt
     /\ forall row s,
          In row rows -> row_qualifies row = true ->
          row_performance_score row = Return s ->
          (forall a, get (active_agents self) (perf_agent_name row) = Some a ->
             get (active_agents after) (perf_agent_name row) = Some (with_score a s))
          /\ (forall r, In r (model_registry (db_conn after)) ->
                reg_agent_name r = perf_agent_name row ->
                reg_performance_score r = s /\ reg_updated_at r = now))
    /\ (forall done row todo w,
          rows = done ++ row :: todo ->
          List.forallb row_computes done = true ->
          row_qualifies row = true ->
          perf_win_rate row = Some (PyDecimal w) -> ~ w == 0 ->
          outcome
          = Raise (TypeError
                     "unsupported operand type(s) for *: 'decimal.Decimal' and 'float'")
          /\ active_agents after = apply_scores (active_agents self) done
          /\ model_registry (db_conn after)
             = model_registry (apply_registry now done (db_conn self))).
Proof.
  intros RT now self Hf. cbv zeta. split.
  - intros Hc Hnd.
    destruct (update_no_faults_prefix now self (trade_stats (db_conn self)) [] Hf
                (eq_sym (List.app_nil_r _)) Hc) as [self1 [Hout [Hag Hdb]]].
    assert (Hf1 : faults (db_conn self1) = [])
      by (rewrite Hdb, apply_registry_faults; exact Hf).
    assert (Hall : update_performance_scores_outcome now self
                   = (with_db self1 (db_conn self1), Return tt)).
    { rewrite Hout. simpl score_rows. unfold db_commit.
      rewrite (db_op_no_faults _ _ Hf1). reflexivity. }
    unfold _update_performance_scores. rewrite Hall. simpl.
    split; [reflexivity|].
    intros row s Hin Hq Hs. split.
    + intros a Ha. rewrite Hag. apply apply_scores_row; assumption.
    + rewrite Hdb. apply (apply_registry_row now _ (db_conn self) row s Hnd Hin Hq Hs).
  - intros done row todo w Hrows Hc Hq Hw Hnz.
    destruct (update_no_faults_prefix now self done (row :: todo) Hf Hrows Hc)
      as [self1 [Hout [Hag Hdb]]].
    assert (Hcut : update_performance_scores_outcome now self
                   = (self1,
                      Raise (TypeError
                        "unsupported operand type(s) for *: 'decimal.Decimal' and 'float'"))).
    { rewrite Hout. simpl score_rows. unfold score_row.
      rewrite Hq, (decimal_win_rate_raises row w Hw Hnz). reflexivity. }
    unfold _update_performance_scores. rewrite Hcut. simpl.
    split; [reflexivity | split; [exact Hag | rewrite Hdb; reflexivity]].
Qed.

Lemma scoring_pass_without_faults_witness :
  (let after := _update_performance_scores t0 synced_orchestrator in
   snd (update_performance_scores_outcome t0 synced_orchestrator) = Return tt
   /\ live_score after "technical" == 0.5015
   /\ List.map reg_updated_at (model_registry (db_conn after)) = [t0; t0])
  /\ (let after := _update_performance_scores t0 decimal_orchestrator in
      snd (update_performance_scores_outcome t0 decimal_orchestrator)
      = Raise (TypeError
                 "unsupported operand type(s) for *: 'decimal.Decimal' and 'float'")
      /\ live_score after "sentiment" == 0
      /\ live_score after "technical" == 0.5).
Proof.
  cbv zeta. split.
  - destruct (scoring_pass_without_faults stub_runtime t0 synced_orchestrator eq_refl)
      as [Hsync _].
    destruct Hsync as [Hout Hrow].
    + reflexivity.
    + repeat constructor; simpl; intuition discriminate.
    + split; [exact Hout | split].
      * destruct (Hrow
                    {| perf_agent_name := "technical";
                       perf_win_rate := Some (PyFloat 0.65);
                       perf_avg_pnl := Some (PyFloat 15.5);
                       perf_trade_count := Some 20%Z |}
                    (composite_score 0.65 15.5)
                    (or_introl eq_refl) eq_refl eq_refl) as [Hlive _].
        pose proof (Hlive _ eq_refl) as H. cbn [perf_agent_name] in H.
        unfold live_score. rewrite H. vm_compute. reflexivity.
      * vm_compute. reflexivity.
  - destruct (scoring_pass_without_faults stub_runtime t0 decimal_orchestrator eq_refl)
      as [_ Hcut].
    destruct (Hcut
                [ {| perf_agent_name := "sentiment";
                     perf_win_rate := Some (PyDecimal 0);
                     perf_avg_pnl := Some (PyFloat (-3));
                     perf_trade_count := Some 12%Z |} ]
                {| perf_agent_name := "technical";
                   perf_win_rate := Some (PyDecimal 0.65);
                   perf_avg_pnl := Some (PyFloat 15.5);
                   perf_trade_count := Some 20%Z |}
                [] 0.65 eq_refl eq_refl eq_refl eq_refl)
      as [Hout [Hag _]].
    + vm_compute. discriminate.
    + split; [exact Hout | split].
      * unfold live_score. rewrite Hag. vm_compute. reflexivity.
      * unfold live_score. rewrite Hag. vm_compute. reflexivity.
Defined.

Section TrackerMoreFacts.
Context `{RT : Runtime}.

Lemma set_keeps_view {V W : Type} (f : V -> W) (d : Dict V) (k : string) (v v0 : V) :
  get d k = Some v0 -> f v = f v0 ->
  List.map (fun kv => (fst kv, f (snd kv))) (set d k v)
  = List.map (fun kv => (fst kv, f (snd kv))) d.
Proof.
  induction d as [|[k1 v1] d IH]; simpl; [discriminate|].
  destruct (String.eqb_spec k1 k) as [->|Hne]; simpl; intros H Hf.
  - injection H as ->. rewrite Hf. reflexivity.
  - rewrite (IH H Hf). reflexivity.
Qed.

Lemma apply_scores_static (rows : list PerfRow) :
  forall agents,
    List.map (fun kv => (fst kv, static_part (snd kv))) (apply_scores agents rows)
    = List.map (fun kv => (fst kv, static_part (snd kv))) agents.
Proof.
  induction rows as [|row rows IH]; intros agents; [reflexivity|].
  rewrite apply_scores_cons, IH.
  destruct (row_qualifies row); [|reflexivity].
  destruct (row_performance_score row) as [s|e]; [|reflexivity].
  unfold set_live_score.
  destruct (get agents (perf_agent_name row)) as [a|] eqn:Hg; [|reflexivity].
  apply (set_keeps_view static_part agents _ _ a Hg). reflexivity.
Qed.

Lemma with_db_same (self : AIOrchestrator) : with_db self (db_conn self) = self.
Proof. destruct self; reflexivity. Qed.

(** A swap on a connection without failures, with a candidate that does
    not load. *)
Lemma swap_no_faults_load_failure (self : AIOrchestrator) (agent_name : string)
    (backup : BackupRow) (e : Exception) :
  faults (db_conn self) = [] ->
  load_model (new_Agent agent_name (b_model_path backup) (b_version backup)
                (b_performance_score backup)) = Raise e ->
  _swap_model self agent_name backup
  = with_db self (sql_activate agent_name (b_version backup)
                    (sql_deactivate agent_name (db_conn self))).
Proof.
  intros Hf Hload. unfold _swap_model, _swap_model_trace, db_cursor, db_commit.
  rewrite (db_op_no_faults _ _ Hf).
  rewrite (db_op_no_faults _ _ Hf).
  rewrite (db_op_no_faults (sql_activate agent_name (b_version backup))
             (sql_deactivate agent_name (db_conn self)) Hf).
  rewrite (db_op_no_faults (fun db => db)
             (sql_activate agent_name (b_version backup)
                (sql_deactivate agent_name (db_conn self))) Hf).
  rewrite Hload. reflexivity.
Qed.

(** With a loader that raises on every path no swap changes the live
    map, and neither does the loop of the performance check. *)
Lemma swap_loader_raises (self : AIOrchestrator) (agent_name : string)
    (backup : BackupRow) :
  (forall path, raises (ModelLoader_load_model path) = true) ->
  active_agents (_swap_model self agent_name backup) = active_agents self.
Proof.
  intros Hraise.
  destruct (swap_trace_agents self agent_name backup _
              (swap_model_in_trace self agent_name backup))
    as [H | [loaded [Hload _]]]; [exact H|].
  exfalso. unfold load_model in Hload. simpl in Hload.
  pose proof (Hraise (b_model_path backup)) as Hr.
  destruct (ModelLoader_load_model (b_model_path backup)); discriminate.
Qed.

Lemma check_rows_loader_raises (rows : list RegistryRow) :
  (forall path, raises (ModelLoader_load_model path) = true) ->
  forall self, active_agents (fst (check_rows self rows)) = active_agents self.
Proof.
  intros Hraise. induction rows as [|row rows IH]; intros self; [reflexivity|].
  simpl. destruct (db_op (fun db => db) (db_conn self)) as [db1 [u|e]]; [|reflexivity].
  destruct (sql_best_backup (reg_agent_name row) (reg_performance_score row) db1)
    as [backup|]; rewrite IH; [|reflexivity].
  rewrite swap_loader_raises by exact Hraise. reflexivity.
Qed.

Lemma load_rows_loader_raises (rows : list RegistryRow) (agents : Dict Agent) :
  (forall path, raises (ModelLoader_load_model path) = true) ->
  fst (load_rows agents rows) = agents.
Proof.
  intros Hraise. destruct rows as [|row rows]; [reflexivity|].
  simpl. unfold load_model. simpl.
  pose proof (Hraise (reg_model_path row)) as Hr.
  destruct (ModelLoader_load_model (reg_model_path row)); [discriminate | reflexivity].
Qed.

Lemma swap_other (self : AIOrchestrator) (m n : string) (backup : BackupRow) :
  m <> n ->
  get (active_agents (_swap_model self m backup)) n = get (active_agents self) n.
Proof.
  intros Hne.
  destruct (swap_trace_agents self m backup _ (swap_model_in_trace self m backup))
    as [H | [loaded [_ H]]]; rewrite H; [reflexivity|].
  apply get_set_other. exact Hne.
Qed.

Lemma check_rows_other (n : string) (rows : list RegistryRow) :
  forall self,
    (forall row, In row rows -> reg_agent_name row <> n) ->
    get (active_agents (fst (check_rows self rows))) n = get (active_agents self) n.
Proof.
  induction rows as [|row rows IH]; intros self Hrows; [reflexivity|].
  simpl. destruct (db_op (fun db => db) (db_conn self)) as [db1 [u|e]]; [|reflexivity].
  assert (Hrest : forall r, In r rows -> reg_agent_name r <> n)
    by (intros r Hr; apply Hrows; right; exact Hr).
  destruct (sql_best_backup (reg_agent_name row) (reg_performance_score row) db1)
    as [backup|].
  - rewrite (IH _ Hrest). rewrite swap_other; [reflexivity|].
    apply Hrows. left. reflexivity.
  - rewrite (IH _ Hrest). reflexivity.
Qed.

Lemma db_op_id_registry (db : DB) :
  model_registry (fst (db_op (fun d => d) db)) = model_registry db.
Proof. unfold db_op. destruct (faults db) as [|[|] rest]; reflexivity. Qed.

End TrackerMoreFacts.

(** X18: a scoring pass, cut short or not, changes nothing in the live map
    but performance scores: the same names in the same order, and under
    each name an agent with the name, model path, version and loaded
    model it had. *)
Theorem scoring_pass_changes_scores_only :
  forall (RT : Runtime) (now : Z) (self : AIOrchestrator),
    List.map (fun kv => (fst kv, static_part (snd kv)))
      (active_agents (_update_performance_scores now self))
    = List.map (fun kv => (fst kv, static_part (snd kv))) (active_agents self).
Proof.
  intros RT now self.
  destruct (update_outcome_agents now self) as [n [_ [Hag _]]].
  rewrite Hag. apply apply_scores_static.
Qed.

(** X19: the swap switches the registry before it loads the candidate.
    On a connection without failures, when the candidate's model does not
    load, the live map is the one the swap started with, while the
    registry has, among the rows of that name, exactly the rows of the
    candidate's version active: registry and memory now disagree on the
    version in service. *)
Theorem swap_model_load_failure_switches_registry :
  forall (RT : Runtime) (self : AIOrchestrator) (agent_name : string) (backup : BackupRow)
         (e : Exception),
    faults (db_conn self) = [] ->
    load_model (new_Agent agent_name (b_model_path backup) (b_version backup)
                  (b_performance_score backup)) = Raise e ->
    let self' := _swap_model self agent_name backup in
    active_agents self' = active_agents self
    /\ db_conn self'
       = sql_activate agent_name (b_version backup)
           (sql_deactivate agent_name (db_conn self))
    /\ (forall r, In r (model_registry (db_conn self')) ->
          reg_agent_name r = agent_name ->
          (is_active r = true <-> reg_version r = b_version backup)).
Proof.
  intros RT self agent_name backup e Hf Hload. cbv zeta.
  rewrite (swap_no_faults_load_failure self agent_name backup e Hf Hload). simpl.
  split; [reflexivity | split; [reflexivity|]].
  intros r Hin Hname.
  apply List.in_map_iff in Hin. destruct Hin as [r1 [Hr1 Hin1]].
  apply List.in_map_iff in Hin1. destruct Hin1 as [r0 [Hr0 Hin0]].
  assert (H1 : reg_agent_name r1 = reg_agent_name r0
               /\ reg_version r1 = reg_version r0
               /\ (reg_agent_name r0 = agent_name -> is_active r1 = false)).
  { subst r1. destruct (String.eqb_spec (reg_agent_name r0) agent_name) as [He|Hne];
      simpl.
    - destruct (is_active r0) eqn:Ha; simpl; repeat split; auto.
    - repeat split; auto. intros; contradiction. }
  destruct H1 as [Hn1 [Hv1 Hinactive]].
  subst r.
  destruct (String.eqb_spec (reg_agent_name r1) agent_name) as [He|Hne]; simpl.
  - destruct (String.eqb_spec (reg_version r1) (b_version backup)) as [Hv|Hv]; simpl.
    + split; [intros _; exact Hv | reflexivity].
    + rewrite Hinactive by congruence. split; [discriminate | contradiction].
  - simpl in Hname. contradiction.
Qed.

Lemma swap_model_load_failure_switches_registry_witness :
  let self' := @_swap_model source_loader_runtime cold_orchestrator "technical" backup_C in
  @active_agents source_loader_runtime self' = []
  /\ List.map (fun r => (reg_version r, is_active r))
       (model_registry (@db_conn source_loader_runtime self'))
     = [("1.0.0", false); ("2.0.0", true); ("1.0.0", true)]%string.
Proof.
  cbv zeta.
  destruct (swap_model_load_failure_switches_registry source_loader_runtime
              cold_orchestrator "technical" backup_C _ eq_refl eq_refl)
    as [Hag [Hdb _]].
  split; [exact Hag|]. rewrite Hdb. vm_compute. reflexivity.
Defined.

(** ** The performance check *)

(** X20: the performance check leaves alone every agent that has no row
    in the registry that is active, scored below 0.45 and updated within
    the last hour: whatever else is swapped and whatever fails, the live
    map resolves that name as before.  In particular a stale low score
    never triggers a swap. *)
Theorem check_model_performance_spares :
  forall (RT : Runtime) (now : Z) (self : AIOrchestrator) (n : string),
    (forall r, In r (model_registry (db_conn self)) ->
       reg_agent_name r = n ->
       is_active r = false
       \/ 0.45 <= reg_performance_score r
       \/ (reg_updated_at r <= now - 3600000000)%Z) ->
    get (active_agents (_check_model_performance now self)) n
    = get (active_agents self) n.
Proof.
  intros RT now self n Hspare. unfold _check_model_performance, db_cursor.
  pose proof (db_op_id_registry (db_conn self)) as Hr1.
  destruct (db_op (fun db => db) (db_conn self)) as [db1 [u1|e1]]; [|reflexivity].
  simpl in Hr1.
  pose proof (db_op_id_registry db1) as Hr2.
  destruct (db_op (fun db => db) db1) as [db2 [u2|e2]]; [|reflexivity].
  simpl in Hr2.
  rewrite check_rows_other; [reflexivity|].
  intros row Hrow Hname. unfold sql_underperformers in Hrow.
  apply List.filter_In in Hrow. destruct Hrow as [Hin Hcond].
  rewrite Hr2, Hr1 in Hin.
  apply andb_true_iff in Hcond. destruct Hcond as [Hcond Hfresh].
  apply andb_true_iff in Hcond. destruct Hcond as [Hact Hlow].
  destruct (Hspare row Hin Hname) as [H | [H | H]].
  - congruence.
  - apply Qltb_lt in Hlow. lra.
  - apply Z.ltb_lt in Hfresh. lia.
Qed.

Lemma check_model_performance_spares_witness :
  get (active_agents (_check_model_performance t0 scenario_C)) "sentiment"
  = get (active_agents scenario_C) "sentiment".
Proof.
  apply (check_model_performance_spares stub_runtime t0 scenario_C "sentiment"%string).
  intros r [<- | [<- | [<- | []]]] Hn; try discriminate Hn.
  right. left. vm_compute. discriminate.
Defined.

(** X21: with a loader that raises on every path, which is what the call
    [ModelLoader.load_model(self.model_path)] of the source does, no
    operation of the orchestrator ever puts an agent into the live map:
    the start-up load, every swap and the performance check leave the map
    as it is.  An orchestrator that starts with an empty map is therefore
    still unhealthy after start-up and after a performance check. *)
Theorem nothing_loads_while_loader_raises :
  forall (RT : Runtime) (now : Z) (self : AIOrchestrator),
    (forall path, raises (ModelLoader_load_model path) = true) ->
    active_agents (load_active_models self) = active_agents self
    /\ active_agents (_check_model_performance now self) = active_agents self
    /\ (forall agent_name backup,
          active_agents (_swap_model self agent_name backup) = active_agents self)
    /\ (active_agents self = [] ->
        is_healthy (load_active_models self) = false
        /\ is_healthy (_check_model_performance now self) = false).
Proof.
  intros RT now self Hraise.
  assert (Hload : active_agents (load_active_models self) = active_agents self).
  { unfold load_active_models, load_active_models_outcome, db_cursor.
    destruct (db_op (fun db => db) (db_conn self)) as [db1 [u1|e1]]; [|reflexivity].
    destruct (db_op (fun db => db) db1) as [db2 [u2|e2]]; [|reflexivity].
    pose proof (load_rows_loader_raises (sql_active_models db2) (active_agents self)
                  Hraise) as Hl.
    destruct (load_rows (active_agents self) (sql_active_models db2)) as [agents r].
    exact Hl. }
  assert (Hcheck : active_agents (_check_model_performance now self)
                   = active_agents self).
  { unfold _check_model_performance, db_cursor.
    destruct (db_op (fun db => db) (db_conn self)) as [db1 [u1|e1]]; [|reflexivity].
    destruct (db_op (fun db => db) db1) as [db2 [u2|e2]]; [|reflexivity].
    rewrite check_rows_loader_raises by exact Hraise. reflexivity. }
  split; [exact Hload | split; [exact Hcheck | split]].
  - intros agent_name backup. apply swap_loader_raises. exact Hraise.
  - intros Hempty. unfold is_healthy. rewrite Hload, Hcheck, Hempty. simpl.
    split; apply andb_false_r.
Qed.

Lemma nothing_loads_while_loader_raises_witness :
  @active_agents source_loader_runtime
    (@load_active_models source_loader_runtime cold_orchestrator) = []
  /\ @active_agents source_loader_runtime
       (@_check_model_performance source_loader_runtime t0 cold_orchestrator) = []
  /\ @is_healthy source_loader_runtime
       (@load_active_models source_loader_runtime cold_orchestrator) = false
  /\ List.map (fun r => (reg_version r, is_active r))
       (model_registry
          (@db_conn source_loader_runtime
             (@_check_model_performance source_loader_runtime t0 cold_orchestrator)))
     = [("1.0.0", false); ("2.0.0", true); ("1.0.0", true)]%string.
Proof.
  destruct (nothing_loads_while_loader_raises source_loader_runtime t0 cold_orchestrator
              (fun _ => eq_refl)) as [Hload [Hcheck [_ Hhealth]]].
  split; [exact Hload | split; [exact Hcheck | split]].
  - exact (proj1 (Hhealth eq_refl)).
  - vm_compute. reflexivity.
Defined.

(** ** Start-up *)

Section StartupFacts.
Context `{RT : Runtime}.

Lemma in_insert_desc (r x : RegistryRow) (l : list RegistryRow) :
  In x (insert_desc r l) -> x = r \/ In x l.
Proof.
  induction l as [|y l IH]; simpl.
  - intros [H | []]. left. symmetry. exact H.
  - destruct (Qgtb (reg_performance_score r) (reg_performance_score y)); simpl.
    + intros [H | H]; [left; symmetry; exact H | right; exact H].
    + intros [H | H]; [right; left; exact H |].
      destruct (IH H) as [H1 | H1]; [left; exact H1 | right; right; exact H1].
Qed.

Lemma in_order_by_score_desc (l : list RegistryRow) (x : RegistryRow) :
  In x (order_by_score_desc l) -> In x l.
Proof.
  unfold order_by_score_desc.
  assert (H : forall acc, In x (List.fold_left (fun a r => insert_desc r a) l acc) ->
                          In x acc \/ In x l).
  { induction l as [|r l IH]; intros acc Hin; simpl in *; [left; exact Hin|].
    destruct (IH _ Hin) as [H | H]; [|right; right; exact H].
    destruct (in_insert_desc r x acc H) as [-> | H1];
      [right; left; reflexivity | left; exact H1]. }
  intros Hin. destruct (H [] Hin) as [[] | H1]. exact H1.
Qed.

(** What the loading loop puts into the live map. *)
Lemma load_rows_entries (rows : list RegistryRow) :
  forall agents k a,
    In (k, a) (fst (load_rows agents rows)) ->
    In (k, a) agents
    \/ exists row,
         In row rows
         /\ k = reg_agent_name row
         /\ identity a = (reg_agent_name row, reg_model_path row, reg_version row,
                          reg_performance_score row)
         /\ model a <> None.
Proof.
  induction rows as [|row rows IH]; intros agents k a Hin; simpl in Hin.
  - left. exact Hin.
  - unfold load_model in Hin. simpl in Hin.
    destruct (ModelLoader_load_model (reg_model_path row)) as [m|e]; simpl in Hin.
    + destruct (IH _ k a Hin) as [H | [r [Hr H]]].
      * apply in_set in H. destruct H as [H | H]; [|left; exact H].
        injection H as -> ->. right. exists row.
        split; [left; reflexivity|]. repeat split; discriminate.
      * right. exists r. split; [right; exact Hr | exact H].
    + left. exact Hin.
Qed.

End StartupFacts.

Lemma load_active_models_adds :
  forall (RT : Runtime) (self : AIOrchestrator) (k : string) (a : Agent),
    In (k, a) (active_agents (load_active_models self)) ->
    In (k, a) (active_agents self)
    \/ exists row,
         In row (model_registry (db_conn self))
         /\ is_active row = true
         /\ k = reg_agent_name row
         /\ identity a = (reg_agent_name row, reg_model_path row, reg_version row,
                          reg_performance_score row)
         /\ model a <> None.
Proof.
  intros RT self k a. unfold load_active_models, load_active_models_outcome, db_cursor.
  pose proof (db_op_id_registry (db_conn self)) as Hr1.
  destruct (db_op (fun db => db) (db_conn self)) as [db1 [u1|e1]];
    [|intros H; left; exact H].
  simpl in Hr1. pose proof (db_op_id_registry db1) as Hr2.
  destruct (db_op (fun db => db) db1) as [db2 [u2|e2]]; [|intros H; left; exact H].
  simpl in Hr2.
  pose proof (load_rows_entries (sql_active_models db2) (active_agents self) k a) as Hl.
  destruct (load_rows (active_agents self) (sql_active_models db2)) as [agents r].
  simpl in *. intros Hin.
  destruct (Hl Hin) as [H | [row [Hrow H]]]; [left; exact H|].
  right. exists row. unfold sql_active_models in Hrow.
  apply in_order_by_score_desc in Hrow. apply List.filter_In in Hrow.
  destruct Hrow as [Hin0 Hact]. rewrite Hr2, Hr1 in Hin0.
  split; [exact Hin0 | split; [exact Hact | exact H]].
Qed.

(** X22: [load_active_models] only ever adds loaded agents built from
    registry rows that are active: an entry of the live map afterwards was
    there before, or has its model loaded and carries the name, model
    path, version and score of an active row, under that row's name. *)
Theorem load_active_models_entries :
  forall (RT : Runtime) (self : AIOrchestrator) (k : string) (a : Agent),
    In (k, a) (active_agents (load_active_models self)) ->
    In (k, a) (active_agents self)
    \/ exists row,
         In row (model_registry (db_conn self))
         /\ is_active row = true
         /\ k = reg_agent_name row
         /\ identity a = (reg_agent_name row, reg_model_path row, reg_version row,
                          reg_performance_score row)
         /\ model a <> None.
Proof.
  intros RT self k a Hin.
  destruct (load_active_models_adds RT self k a Hin) as [H | H]; [left | right]; exact H.
Qed.

Lemma load_active_models_entries_witness :
  let fresh := with_agents scenario_C [] in
  List.map (fun kv => (fst kv, identity (snd kv)))
    (active_agents (load_active_models fresh))
  = [("sentiment", ("sentiment", "/models/sentiment.pkl", "1.0.0", 0.7));
     ("technical", ("technical", "/models/technical.pkl", "1.0.0", 0.3))]%string
  /\ forall k a, In (k, a) (active_agents (load_active_models fresh)) -> model a <> None.
Proof.
  cbv zeta. split; [vm_compute; reflexivity|].
  intros k a Hin.
  destruct (load_active_models_entries stub_runtime (with_agents scenario_C []) k a Hin)
    as [[] | [row [_ [_ [_ [_ Hm]]]]]].
  exact Hm.
Defined.

(** ** Loaded models as an invariant *)

Section LoadedFacts.
Context `{RT : Runtime}.

Lemma all_loaded_set (agents : Dict Agent) (k : string) (a : Agent) :
  all_loaded agents -> model a <> None -> all_loaded (set agents k a).
Proof.
  intros Hall Ha k' a' Hin. apply in_set in Hin.
  destruct Hin as [H | H]; [injection H as _ ->; exact Ha | exact (Hall k' a' H)].
Qed.

Lemma all_loaded_apply_scores (rows : list PerfRow) :
  forall agents, all_loaded agents -> all_loaded (apply_scores agents rows).
Proof.
  induction rows as [|row rows IH]; intros agents Hall; [exact Hall|].
  rewrite apply_scores_cons. apply IH.
  destruct (row_qualifies row); [|exact Hall].
  destruct (row_performance_score row) as [s|e]; [|exact Hall].
  unfold set_live_score.
  destruct (get agents (perf_agent_name row)) as [a|] eqn:Hg; [|exact Hall].
  apply all_loaded_set; [exact Hall|]. simpl.
  clear IH. induction agents as [|[k1 a1] agents IHa]; simpl in Hg; [discriminate|].
  destruct (String.eqb k1 (perf_agent_name row)).
  - injection Hg as <-. apply (Hall k1 a1). left. reflexivity.
  - apply IHa; [|exact Hg]. intros k' a' Hin. apply (Hall k' a'). right. exact Hin.
Qed.

Lemma all_loaded_swap (self : AIOrchestrator) (n : string) (backup : BackupRow) :
  all_loaded (active_agents self) ->
  all_loaded (active_agents (_swap_model self n backup)).
Proof.
  intros Hall.
  destruct (swap_trace_agents self n backup _ (swap_model_in_trace self n backup))
    as [H | [loaded [Hload H]]]; rewrite H; [exact Hall|].
  apply all_loaded_set; [exact Hall|].
  unfold load_model in Hload.
  destruct (ModelLoader_load_model _); [|discriminate].
  injection Hload as <-. discriminate.
Qed.

Lemma all_loaded_check_rows (rows : list RegistryRow) :
  forall self,
    all_loaded (active_agents self) ->
    all_loaded (active_agents (fst (check_rows self rows))).
Proof.
  induction rows as [|row rows IH]; intros self Hall; [exact Hall|].
  simpl. destruct (db_op (fun db => db) (db_conn self)) as [db1 [u|e]]; [|exact Hall].
  destruct (sql_best_backup _ _ db1) as [backup|]; apply IH.
  - apply all_loaded_swap. exact Hall.
  - exact Hall.
Qed.

Lemma ensemble_call_agents (settings : Settings) (now : Z) (self : AIOrchestrator)
    (symbol : string) (market : Market) :
  active_agents (fst (get_ensemble_signal settings now self symbol market))
  = active_agents self
  \/ active_agents (fst (get_ensemble_signal settings now self symbol market))
     = fst (run_agents (active_agents self) (make_data symbol market)).
Proof.
  unfold get_ensemble_signal.
  destruct (active_agents self) as [|kv rest] eqn:Hag; [left; simpl; congruence|].
  right.
  destruct (run_agents (kv :: rest) (make_data symbol market)) as [agents' results].
  destruct (valid_results_of results) as [|d ds]; [reflexivity|].
  destruct (_weighted_vote (with_agents self agents') (d :: ds)) as [voted|e];
    [|reflexivity].
  destruct (validation_gate _ _ _ _ _) as [er v']. simpl.
  rewrite (proj2 (log_signal_frame now _ symbol er (d :: ds))). reflexivity.
Qed.

End LoadedFacts.

(** X23: "every live agent has its model loaded" is kept by every
    operation of the orchestrator on the live map: an ensemble call, a
    scoring pass, a swap, the start-up load and the performance check.
    Under it [predict] never has to load, so never raises. *)
Theorem all_loaded_invariant :
  forall (RT : Runtime) (settings : Settings) (now : Z) (self : AIOrchestrator)
         (symbol : string) (market : Market) (n : string) (backup : BackupRow),
    all_loaded (active_agents self) ->
    all_loaded (active_agents (fst (get_ensemble_signal settings now self symbol market)))
    /\ all_loaded (active_agents (_update_performance_scores now self))
    /\ all_loaded (active_agents (_swap_model self n backup))
    /\ all_loaded (active_agents (load_active_models self))
    /\ all_loaded (active_agents (_check_model_performance now self))
    /\ forall k a, In (k, a) (active_agents self) ->
         raises (snd (predict a (make_data symbol market))) = false.
Proof.
  intros RT settings now self symbol market n backup Hall.
  split; [|split; [|split; [|split; [|split]]]].
  - destruct (ensemble_call_agents settings now self symbol market) as [H | H];
      rewrite H; [exact Hall|].
    rewrite (run_agents_loaded _ _ Hall). exact Hall.
  - destruct (update_outcome_agents now self) as [m [_ [Hag _]]].
    rewrite Hag. apply all_loaded_apply_scores. exact Hall.
  - apply all_loaded_swap. exact Hall.
  - intros k a Hin.
    destruct (load_active_models_adds RT self k a Hin) as [H | [row [_ [_ [_ [_ H]]]]]];
      [exact (Hall k a H) | exact H].
  - unfold _check_model_performance, db_cursor.
    destruct (db_op (fun db => db) (db_conn self)) as [db1 [u1|e1]]; [|exact Hall].
    destruct (db_op (fun db => db) db1) as [db2 [u2|e2]]; [|exact Hall].
    apply all_loaded_check_rows. exact Hall.
  - intros k a Hin. rewrite (predict_loaded a _ (Hall k a Hin)). reflexivity.
Qed.

Lemma all_loaded_invariant_witness :
  all_loaded (active_agents scenario_C)
  /\ all_loaded (active_agents (_check_model_performance t0 scenario_C)).
Proof.
  assert (Hall : all_loaded (active_agents scenario_C)).
  { intros k a [H | [H | []]]; injection H as _ <-; discriminate. }
  split; [exact Hall|].
  exact (proj1 (proj2 (proj2 (proj2 (proj2
           (all_loaded_invariant stub_runtime demo_settings t0 scenario_C
              "EURUSD"%string tt "technical"%string backup_C Hall)))))).
Defined.

(** ** Health monitor *)

(** X24: a tick of the health monitor settles the flag.  If at least one
    bridge is healthy, the active bridge after the tick is a healthy one;
    and a second tick over the same bridges changes nothing, so the flag
    does not flap while the health of the bridges stays as it is. *)
Theorem health_tick_settles :
  forall self : CommunicationManager,
    (bridge_healthy self zmq = true \/ bridge_healthy self websocket = true ->
     bridge_healthy (health_tick self) (active_bridge (health_tick self)) = true)
    /\ health_tick (health_tick self) = health_tick self.
Proof.
  intros self. unfold health_tick, bridge_healthy.
  destruct self as [zb wb ab fe hi run]; simpl.
  destruct ab; destruct (zmq_is_healthy zb) eqn:Ez; destruct (ws_is_healthy wb) eqn:Ew;
    simpl; rewrite ?Ez, ?Ew; simpl; split; try reflexivity;
    intros [H | H]; try reflexivity; try discriminate H.
Qed.

Lemma health_tick_settles_witness :
  bridge_healthy unhealthy_zmq_manager websocket = true
  /\ bridge_healthy (health_tick unhealthy_zmq_manager)
       (active_bridge (health_tick unhealthy_zmq_manager)) = true.
Proof.
  split; [reflexivity|].
  apply (proj1 (health_tick_settles unhealthy_zmq_manager)). right. reflexivity.
Defined.

(** ** Sending through the manager *)

(** [send_signal] of the manager, given what each bridge answers.
    The call succeeds exactly when the active bridge sends, or failover is
    enabled and the other bridge sends.  The flag moves to the other bridge
    exactly when the active bridge failed and failover is enabled, also
    when the other bridge then fails too; after a successful call the flag
    names a bridge that sent; with failover disabled nothing changes. *)
Theorem send_signal_outcome :
  forall (self : CommunicationManager) (zmq_sent : bool) (ws_count : nat),
    let sends := fun b => match b with
                          | zmq => zmq_sent
                          | websocket => (0 <? ws_count)%nat
                          end in
    let r := send_signal self zmq_sent ws_count in
    snd r = sends (active_bridge self)
            || (failover_enabled self && sends (other_bridge (active_bridge self)))
    /\ fst r = (if negb (sends (active_bridge self)) && failover_enabled self
                then with_active self (other_bridge (active_bridge self))
                else self)
    /\ (snd r = true -> sends (active_bridge (fst r)) = true)
    /\ (failover_enabled self = false -> fst r = self).
Proof.
  intros self zmq_sent ws_count. cbv zeta. unfold send_signal.
  destruct self as [zb wb ab fe hi run]; simpl.
  destruct ab; simpl; destruct zmq_sent; destruct (0 <? ws_count)%nat; destruct fe;
    simpl; repeat split; try reflexivity; intros H; try discriminate H; reflexivity.
Qed.

Lemma send_signal_outcome_witness :
  send_signal dark_manager false 0 = (with_active dark_manager websocket, false).
Proof.
  destruct (send_signal_outcome dark_manager false 0) as [Hres [Hst _]].
  rewrite (surjective_pairing (send_signal dark_manager false 0)), Hres, Hst.
  reflexivity.
Defined.

(** ** Broadcast over web sockets *)

Lemma filter_filter {A : Type} (f g : A -> bool) (l : list A) :
  List.filter f (List.filter g l) = List.filter (fun x => g x && f x) l.
Proof.
  induction l as [|x l IH]; simpl; [reflexivity|].
  destruct (g x); simpl; [destruct (f x); rewrite IH; reflexivity | exact IH].
Qed.

Lemma send_all_quiet (delivered : Handle -> bool)
    (callback : option (Handle -> Result unit)) (targets : list Handle) :
  quiet callback ->
  forall clients,
    send_all delivered callback clients targets
    = (List.filter (fun c => delivered c || negb (mem c targets)) clients,
       List.map (fun _ => Return tt) targets).
Proof.
  intros Hq. induction targets as [|t targets IH]; intros clients; simpl.
  - f_equal. induction clients as [|c clients IHc]; simpl; [reflexivity|].
    rewrite orb_true_r. rewrite <- IHc. reflexivity.
  - unfold _send_to_client. destruct (delivered t) eqn:Ht.
    + rewrite IH. f_equal. apply List.filter_ext. intros c. unfold mem. simpl.
      destruct (Nat.eqb_spec c t) as [->|Hne]; simpl; [|reflexivity].
      rewrite Ht. reflexivity.
    + assert (Hstep : forall r,
                 (let (clients1, r0) :=
                    (List.filter (fun c => negb (Nat.eqb c t)) clients, r) in
                  let (clients2, rs) := send_all delivered callback clients1 targets in
                  (clients2, r0 :: rs))
                 = (List.filter (fun c => delivered c || negb (mem c (t :: targets)))
                      clients,
                    r :: List.map (fun _ => Return tt) targets)).
      { intros r. rewrite IH, filter_filter. f_equal. apply List.filter_ext.
        intros c. unfold mem. simpl.
        destruct (Nat.eqb_spec c t) as [->|Hne]; simpl; [|reflexivity].
        rewrite Ht. reflexivity. }
      destruct callback as [f|]; cbv zeta; [rewrite (Hq t)|]; apply Hstep.
Qed.

Lemma broadcast_quiet (self : WebSocketBridge) (delivered : Handle -> bool)
    (callback : option (Handle -> Result unit)) :
  ws_running self = true -> clients self <> [] -> quiet callback ->
  broadcast_signal self delivered callback
  = (with_clients self (List.filter delivered (clients self)),
     List.length (clients self)).
Proof.
  intros Hrun Hne Hq. unfold broadcast_signal.
  destruct (clients self) as [|c0 cs] eqn:Hcl; [congruence|].
  rewrite Hrun. simpl negb. cbv iota.
  rewrite (send_all_quiet delivered callback (c0 :: cs) Hq (c0 :: cs)).
  f_equal.
  - f_equal. apply List.filter_ext_in. intros c Hin.
    assert (Hmem : mem c (c0 :: cs) = true).
    { unfold mem. apply List.existsb_exists. exists c.
      split; [exact Hin | apply Nat.eqb_refl]. }
    rewrite Hmem. simpl. apply orb_false_r.
  - clear. induction (c0 :: cs) as [|x l IH]; simpl; [reflexivity|].
    rewrite IH. reflexivity.
Qed.

(** X25: [broadcast_signal] counts clients, not deliveries.  A task that
    fails to send swallows the exception and, like one that sent, returns
    [None]; so with the bridge running, at least one client and a callback
    that does not raise (or none), the number returned is the number of
    clients connected when the broadcast began, however many of the sends
    failed.  The clients whose send failed are gone from the set
    afterwards, the others stay. *)
Theorem broadcast_counts_clients :
  forall (self : WebSocketBridge) (delivered : Handle -> bool)
         (callback : option (Handle -> Result unit)),
    ws_running self = true ->
    clients self <> [] ->
    quiet callback ->
    let r := broadcast_signal self delivered callback in
    snd r = List.length (clients self)
    /\ clients (fst r) = List.filter delivered (clients self)
    /\ (List.length (List.filter delivered (clients self)) <= snd r)%nat.
Proof.
  intros self delivered callback Hrun Hne Hq. cbv zeta.
  rewrite (broadcast_quiet self delivered callback Hrun Hne Hq). simpl.
  split; [reflexivity | split; [reflexivity | apply List.filter_length_le]].
Qed.

Lemma broadcast_counts_clients_witness :
  let r := broadcast_signal (websocket_bridge websocket_manager) (fun _ => false) None in
  snd r = 3%nat /\ clients (fst r) = [].
Proof.
  cbv zeta.
  destruct (broadcast_counts_clients (websocket_bridge websocket_manager)
              (fun _ => false) None eq_refl ltac:(discriminate) I) as [Hn [Hc _]].
  split; [exact Hn | exact Hc].
Defined.

(** X26: what follows for the manager.  With the websocket bridge active
    and running, at least one client connected and a quiet callback,
    [send_signal] reports success and stays on the websocket bridge even
    when not one client received the signal: the failover to ZeroMQ is
    not attempted. *)
Theorem manager_send_websocket_reports_success :
  forall (self : CommunicationManager) (zmq_sent : bool) (delivered : Handle -> bool)
         (callback : option (Handle -> Result unit)),
    active_bridge self = websocket ->
    ws_running (websocket_bridge self) = true ->
    clients (websocket_bridge self) <> [] ->
    quiet callback ->
    let r := manager_send_signal self zmq_sent delivered callback in
    snd r = true
    /\ active_bridge (fst r) = websocket
    /\ clients (websocket_bridge (fst r))
       = List.filter delivered (clients (websocket_bridge self)).
Proof.
  intros self zmq_sent delivered callback Hact Hrun Hne Hq. cbv zeta.
  unfold manager_send_signal. rewrite Hact.
  rewrite (broadcast_quiet _ delivered callback Hrun Hne Hq).
  assert (Hpos : (0 <? List.length (clients (websocket_bridge self)))%nat = true).
  { destruct (clients (websocket_bridge self)); [congruence | reflexivity]. }
  rewrite Hpos. simpl. repeat split; [exact Hact].
Qed.

Lemma manager_send_websocket_reports_success_witness :
  manager_send_signal websocket_manager true (fun _ => false) None
  = (with_ws websocket_manager
       (with_clients (websocket_bridge websocket_manager) []), true).
Proof.
  destruct (manager_send_websocket_reports_success websocket_manager true
              (fun _ => false) None eq_refl eq_refl ltac:(discriminate) I) as [_ _].
  reflexivity.
Defined.

(** ** Latency samples *)








(** ** Indicators *)

Lemma Qsum_nonneg (l : list Q) : (forall x, In x l -> 0 <= x) -> 0 <= Qsum l.
Proof.
  induction l as [|x l IH]; intros H; simpl; [apply Qle_refl|].
  pose proof (H x (or_introl eq_refl)).
  pose proof (IH (fun y Hy => H y (or_intror Hy))). lra.
Qed.

Lemma np_mean_nonneg (l : list Q) : (forall x, In x l -> 0 <= x) -> 0 <= np_mean l.
Proof.
  intros H. unfold np_mean, Qdiv. apply Qmult_le_0_compat.
  - apply Qsum_nonneg. exact H.
  - apply Qinv_le_0_compat. rewrite <- (Zle_Qle 0). lia.
Qed.






Lemma max3_ge (a b c : Q) : a <= max3 a b c /\ b <= max3 a b c /\ c <= max3 a b c.
Proof.
  unfold max3.
  destruct (Qgtb b a) eqn:E1;
    [apply Qgtb_gt in E1 | apply Qgtb_false in E1];
    match goal with
    | |- context [Qgtb c ?m] =>
        destruct (Qgtb c m) eqn:E2;
        [apply Qgtb_gt in E2 | apply Qgtb_false in E2]
    end; repeat split; lra.
Qed.

Lemma true_ranges_cons (prev cur : Candle) (rest : list Candle) :
  true_ranges (prev :: cur :: rest)
  = max3 (get_or (c_high cur) 0 - get_or (c_low cur) 0)
      (Qabs (get_or (c_high cur) 0 - candle_close prev))
      (Qabs (get_or (c_low cur) 0 - candle_close prev))
    :: true_ranges (cur :: rest).
Proof. reflexivity. Qed.

Lemma true_ranges_nonneg (market_data : list Candle) :
  forall x, In x (true_ranges market_data) -> 0 <= x.
Proof.
  induction market_data as [|prev rest IH]; [intros x []|].
  destruct rest as [|cur rest']; [intros x []|].
  intros x Hx. rewrite true_ranges_cons in Hx.
  destruct Hx as [<- | Hx]; [|apply IH; exact Hx].
  pose proof (max3_ge (get_or (c_high cur) 0 - get_or (c_low cur) 0)
                (Qabs (get_or (c_high cur) 0 - candle_close prev))
                (Qabs (get_or (c_low cur) 0 - candle_close prev))) as [_ [Hb _]].
  pose proof (Qabs_nonneg (get_or (c_high cur) 0 - candle_close prev)).
  lra.
Qed.

Lemma calculate_atr_nonneg (market_data : list Candle) (period : nat) :
  0 <= _calculate_atr market_data period.
Proof.
  unfold _calculate_atr.
  destruct (List.length market_data <? period)%nat; [apply Qle_refl|].
  destruct (true_ranges (List.firstn (period + 1) market_data)) as [|t ts] eqn:Ht;
    [apply Qle_refl|].
  apply np_mean_nonneg. rewrite <- Ht. apply true_ranges_nonneg.
Qed.

(** X30: the ATR of [_calculate_atr] is never negative, is 0 when there
    are fewer candles than the period, and depends on the first
    period + 1 candles only: candles appended after them, the recent ones
    in a list in time order, do not change it. *)
Theorem calculate_atr_oldest_only :
  forall (market_data extra : list Candle) (period : nat),
    0 <= _calculate_atr market_data period
    /\ ((List.length market_data < period)%nat -> _calculate_atr market_data period = 0)
    /\ ((period + 1 <= List.length market_data)%nat ->
        _calculate_atr (market_data ++ extra) period = _calculate_atr market_data period).
Proof.
  intros md extra period. split; [apply calculate_atr_nonneg|].
  unfold _calculate_atr. split.
  - intros H. apply Nat.ltb_lt in H. rewrite H. reflexivity.
  - intros H. rewrite List.firstn_app.
    replace (period + 1 - List.length md)%nat with 0%nat by lia.
    change (List.firstn 0 extra) with (@nil Candle). rewrite !List.app_nil_r.
    rewrite List.length_app.
    assert (H1 : (List.length md + List.length extra <? period)%nat = false)
      by (apply Nat.ltb_ge; lia).
    assert (H2 : (List.length md <? period)%nat = false) by (apply Nat.ltb_ge; lia).
    rewrite H1, H2. reflexivity.
Qed.

Lemma calculate_atr_oldest_only_witness :
  _calculate_atr (List.repeat (flat_candle 1) 15 ++ [flat_candle 5; flat_candle 9]) 14
  = _calculate_atr (List.repeat (flat_candle 1) 15) 14.
Proof.
  apply (proj2 (proj2 (calculate_atr_oldest_only (List.repeat (flat_candle 1) 15)
                         [flat_candle 5; flat_candle 9] 14))).
  simpl. lia.
Defined.

(** The price and risk feature vectors have a fixed shape.
    [_preprocess_price_data] gives 20 numbers whatever the history: the
    closes of the last 20 candles, or 20 zeros when there are fewer than
    20.  [_preprocess_risk_data] gives 5 numbers, the fourth (the ATR) not
    negative and the fifth (the time factor) 1 or 0.5. *)
Theorem feature_vectors_shape :
  forall (now : Z) (market_data : list Candle),
    List.length (_preprocess_price_data market_data) = 20%nat
    /\ ((List.length market_data < 20)%nat ->
        _preprocess_price_data market_data = List.repeat 0 20)
    /\ exists price volume spread atr time_factor,
         _preprocess_risk_data now market_data = [price; volume; spread; atr; time_factor]
         /\ 0 <= atr
         /\ (time_factor = 1 \/ time_factor = 0.5).
Proof.
  intros now md. split; [|split].
  - unfold _preprocess_price_data.
    destruct (20 <=? List.length md)%nat eqn:E.
    + rewrite List.length_map. unfold last_n. rewrite List.length_skipn.
      apply Nat.leb_le in E. lia.
    + apply List.repeat_length.
  - intros H. unfold _preprocess_price_data.
    assert (E : (20 <=? List.length md)%nat = false) by (apply Nat.leb_gt; exact H).
    rewrite E. reflexivity.
  - unfold _preprocess_risk_data. destruct md as [|first rest].
    + do 5 eexists. split; [reflexivity|]. split; [apply Qle_refl | right; reflexivity].
    + do 5 eexists. split; [reflexivity|]. split.
      * apply calculate_atr_nonneg.
      * destruct ((8 <=? hour_of now)%Z && (hour_of now <=? 16)%Z);
          [left | right]; reflexivity.
Qed.

Lemma feature_vectors_shape_witness :
  _preprocess_price_data [flat_candle 1; flat_candle 2] = List.repeat 0 20.
Proof.
  apply (proj1 (proj2 (feature_vectors_shape t0 [flat_candle 1; flat_candle 2]))).
  simpl. lia.
Defined.

